(** * Tg_Link_Bot: the catalogue bot of [bot.py]

    A shallow embedding of [bot.py] (the text renderers, the [/add] argument
    parser, the startup reconciliation and the command handlers) and the
    properties of it that the specification states. *)

From Stdlib Require Import Ascii String DecimalString.
From Stdlib Require Import List ZArith NArith Lia Bool.
Import ListNotations.

Set Implicit Arguments.

(* ================================================================== *)
(** * Python strings *)
(* ================================================================== *)

(** A Python 3 [str] is a sequence of Unicode code points. *)
Definition str : Type := list N.

Module Utf8.

(** Source literals are written as UTF-8 text and decoded to code points. *)
Fixpoint decode (bs : list N) : str :=
  match bs with
  | [] => []
  | b0 :: r0 =>
    if (b0 <? 128)%N then b0 :: decode r0
    else if (b0 <? 224)%N then
      match r0 with
      | b1 :: r1 => ((b0 - 192) * 64 + (b1 - 128))%N :: decode r1
      | _ => []
      end
    else if (b0 <? 240)%N then
      match r0 with
      | b1 :: b2 :: r2 =>
          ((b0 - 224) * 4096 + (b1 - 128) * 64 + (b2 - 128))%N :: decode r2
      | _ => []
      end
    else
      match r0 with
      | b1 :: b2 :: b3 :: r3 =>
          ((b0 - 240) * 262144 + (b1 - 128) * 4096 + (b2 - 128) * 64
           + (b3 - 128))%N :: decode r3
      | _ => []
      end
  end.

Definition bytes (s : string) : list N :=
  map N_of_ascii (list_ascii_of_string s).

End Utf8.

(** [u "text"] is the Python literal ["text"]. *)
Definition u (s : string) : str := Utf8.decode (Utf8.bytes s).

(** The two characters a Rocq literal cannot hold. *)
Definition NL : str := [10%N].
Definition DQ : str := [34%N].

Definition str_eqb (a b : str) : bool :=
  if list_eq_dec N.eq_dec a b then true else false.

(** Truth value of a [str]: the empty string is false. *)
Definition truthy (s : str) : bool :=
  match s with [] => false | _ :: _ => true end.

(** [str.isspace] on one code point: the white-space table of CPython
    ([_PyUnicode_IsWhitespace]); [str.split], [str.strip] and the regular
    expression classes [\s] and [\S] of [re] on [str] patterns all use it. *)
Definition isspace (c : N) : bool :=
  ((9 <=? c) && (c <=? 13) || (28 <=? c) && (c <=? 32)
   || (c =? 133) || (c =? 160) || (c =? 5760)
   || (8192 <=? c) && (c <=? 8202)
   || (c =? 8232) || (c =? 8233) || (c =? 8239) || (c =? 8287)
   || (c =? 12288))%N.

(** [s.lstrip()] *)
Fixpoint lstrip (s : str) : str :=
  match s with
  | c :: s' => if isspace c then lstrip s' else s
  | [] => []
  end.

(** [s.strip()] *)
Definition strip (s : str) : str := rev (lstrip (rev (lstrip s))).

(** [s.lstrip(chars)] for a one-character [chars]. *)
Fixpoint lstrip_char (ch : N) (s : str) : str :=
  match s with
  | c :: s' => if (c =? ch)%N then lstrip_char ch s' else s
  | [] => []
  end.

(** [s.split()]: the maximal runs of non-white-space characters.  [cur] is
    the run being read, last character first. *)
Fixpoint split_from (cur : str) (s : str) : list str :=
  match s with
  | [] => match cur with [] => [] | _ => [rev cur] end
  | c :: s' =>
      if isspace c
      then match cur with
           | [] => split_from [] s'
           | _ => rev cur :: split_from [] s'
           end
      else split_from (c :: cur) s'
  end.

Definition split (s : str) : list str := split_from [] s.

(** [s.startswith(p)] *)
Fixpoint startswith (s p : str) {struct p} : bool :=
  match p, s with
  | [], _ => true
  | a :: p', b :: s' => (a =? b)%N && startswith s' p'
  | _ :: _, [] => false
  end.

(** [sep.join(xs)] *)
Fixpoint join (sep : str) (xs : list str) : str :=
  match xs with
  | [] => []
  | [x] => x
  | x :: rest => x ++ sep ++ join sep rest
  end.

(** [str(n)] for an [int]. *)
Definition str_of_int (z : Z) : str :=
  u (NilZero.string_of_int (Z.to_int z)).

Definition str_of_len (n : nat) : str := str_of_int (Z.of_nat n).

(** [needle in hay] *)
Fixpoint contains (hay needle : str) : bool :=
  startswith hay needle ||
  match hay with
  | [] => false
  | _ :: hay' => contains hay' needle
  end.

(** [text.split("\n")]: the lines of a text. *)
Fixpoint lines_from (cur : str) (s : str) : list str :=
  match s with
  | [] => [rev cur]
  | c :: s' =>
      if (c =? 10)%N then rev cur :: lines_from [] s'
      else lines_from (c :: cur) s'
  end.

Definition text_lines (s : str) : list str := lines_from [] s.

(* ================================================================== *)
(** * The [/add] argument parser *)
(* ================================================================== *)

(** [rest] matches [\S+$]: one or more non-space characters up to the end of
    the string, or up to a final newline ([$] also matches just before a
    newline that ends the string). *)
Definition nonspace_to_end (rest : str) : bool :=
  let all_nonspace r := truthy r && forallb (fun c => negb (isspace c)) r in
  all_nonspace rest
  || match rev rest with
     | 10%N :: r => all_nonspace (rev r)
     | _ => false
     end.

Fixpoint drop_prefix (s p : str) {struct p} : option str :=
  match p, s with
  | [], _ => Some s
  | a :: p', b :: s' => if (a =? b)%N then drop_prefix s' p' else None
  | _ :: _, [] => None
  end.

(** [url_pattern.match(tok)] for [url_pattern = re.compile(r"^https?://\S+$")],
    as a truth value. *)
Definition url_pattern_match (tok : str) : bool :=
  match drop_prefix tok (u "http") with
  | None => false
  | Some r =>
      let after_s :=
        match r with
        | 115%N :: r' => (* the optional "s" taken *)
            match drop_prefix r' (u "://") with
            | Some rest => nonspace_to_end rest
            | None => false
            end
        | _ => false
        end in
      after_s
      || match drop_prefix r (u "://") with
         | Some rest => nonspace_to_end rest
         | None => false
         end
  end.

(** The loop [for i in range(len(parts) - 1, -1, -1)]: [find_url parts n]
    visits the indices [n-1], [n-2], ..., [0] and stops at the first token
    that matches. *)
Fixpoint find_url (parts : list str) (n : nat) : option nat :=
  match n with
  | O => None
  | S i => if url_pattern_match (nth i parts []) then Some i
           else find_url parts i
  end.

(** [parts[a:b]] *)
Definition slice {A} (xs : list A) (a b : nat) : list A :=
  firstn (b - a) (skipn a xs).

(** The tokens that remain once the command is removed. *)
Definition add_tokens (text : str) : list str :=
  let parts := split (strip text) in
  match parts with
  | p0 :: rest => if startswith p0 (u "/add") then rest else parts
  | [] => parts
  end.

(** The result is the triple the Python function returns; [None] is Python's
    [None]. *)
Definition parse_add_args (text : str)
  : option str * option str * option str :=
  let parts := add_tokens text in
  match parts with
  | [] => (None, None, None)
  | _ :: _ =>
      match find_url parts (length parts) with
      | None => (None, None, None)
      | Some url_idx =>
          let url := nth url_idx parts [] in
          let category := nth 0 parts [] in
          let title :=
            if (1 <? url_idx)%nat then join (u " ") (slice parts 1 url_idx)
            else [] in
          (Some category, Some title, Some url)
      end
  end.

(* ================================================================== *)
(** * The catalogue document ([data.json]) *)
(* ================================================================== *)

(** A key of a JSON object whose value is read both with [d.get(k)] and with
    [d[k]]: the key can be missing, hold [null], or hold a value. *)
Inductive field (A : Type) : Type :=
| Missing
| Null
| Value (a : A).
Arguments Missing {A}.
Arguments Null {A}.

(** One link: [{"texto": ..., "url": ..., "autor": ...}]. *)
Record LinkEntry : Type := mkLink {
  texto : str;
  url : str;
  autor : str
}.

(** One category: [{"message_id": ..., "links": [...]}].  [links = None] is a
    record without the key ["links"]. *)
Record Category : Type := mkCategory {
  message_id : field Z;
  links : option (list LinkEntry)
}.

(** A Python [dict] with [str] keys: the entries in insertion order.  The keys
    of a dict are pairwise distinct ([dict_wf]). *)
Definition dict (V : Type) : Type := list (str * V).

(** The document.  [channel_username] and [indice_message_id] are only read
    with [data.get], which does not tell a missing key from [null]: both are
    [None]. *)
Record Doc : Type := mkDoc {
  channel_username : option str;
  indice_message_id : option Z;
  categorias : dict Category
}.

Definition keys {V} (d : dict V) : list str := map fst d.

Definition dict_wf {V} (d : dict V) : Prop := NoDup (keys d).

(** [d.get(k)] *)
Fixpoint dict_get {V} (k : str) (d : dict V) : option V :=
  match d with
  | [] => None
  | (k', v) :: d' => if str_eqb k' k then Some v else dict_get k d'
  end.

(** [d[k] = v]: an existing key keeps its place, a new key goes last. *)
Fixpoint dict_set {V} (k : str) (v : V) (d : dict V) : dict V :=
  match d with
  | [] => [(k, v)]
  | (k', v') :: d' =>
      if str_eqb k' k then (k', v) :: d' else (k', v') :: dict_set k v d'
  end.

(** [info.get("links", [])] *)
Definition get_links (info : Category) : list LinkEntry :=
  match links info with
  | Some l => l
  | None => []
  end.

(** Truth value of [info.get("message_id")] and of
    [data.get("indice_message_id")]: [None] and [0] are false. *)
Definition int_truthy (z : Z) : bool := negb (z =? 0)%Z.

Definition field_truthy (f : field Z) : bool :=
  match f with
  | Value z => int_truthy z
  | _ => false
  end.

Definition opt_int_truthy (o : option Z) : bool :=
  match o with
  | Some z => int_truthy z
  | None => false
  end.

Definition set_indice (data : Doc) (mid : Z) : Doc :=
  mkDoc (channel_username data) (Some mid) (categorias data).

Definition set_categorias (data : Doc) (cats : dict Category) : Doc :=
  mkDoc (channel_username data) (indice_message_id data) cats.

(* ================================================================== *)
(** * Rendering *)
(* ================================================================== *)

Definition INDEX_HEADER : str := u "📚 <b>ÍNDICE</b>" ++ NL.

(** The value of [jump] in [format_index]. *)
Definition jump_of (data : Doc) (info : Category) : str :=
  match channel_username data, message_id info with
  | Some channel, Value mid =>
      if truthy channel && int_truthy mid
      then u " — <a href=" ++ DQ ++ u "https://t.me/"
           ++ lstrip_char 64 channel ++ u "/" ++ str_of_int mid
           ++ DQ ++ u ">ir</a>"
      else []
  | _, _ => []
  end.

(** One pass of the loop of [format_index]: [lines.append(...)]. *)
Definition index_step (data : Doc) (lines : list str)
           (item : str * Category) : list str :=
  let '(cat, info) := item in
  let count := length (get_links info) in
  let jump := jump_of data info in
  lines ++ [u "• <b>" ++ cat ++ u "</b> (" ++ str_of_len count ++ u ")" ++ jump].

Definition format_index (data : Doc) : str :=
  let lines := fold_left (index_step data) (categorias data) [INDEX_HEADER] in
  join NL lines.

Definition ADD_HINT : str := u "_No hay enlaces aún. Agrega alguno con_ /add".

(** [item.get("texto") or item.get("url")] *)
Definition link_title (item : LinkEntry) : str :=
  if truthy (texto item) then texto item else url item.

(** One pass of the loop over [enumerate(links, start=1)]; the state is the
    next number and the lines so far. *)
Definition category_step (st : nat * list str) (item : LinkEntry)
  : nat * list str :=
  let '(i, lines) := st in
  let title := link_title item in
  (S i, lines ++ [str_of_len i ++ u ". <a href=" ++ DQ ++ url item ++ DQ
                  ++ u ">" ++ title ++ u "</a>"]).

Section Bot.

(** [str.lower] and [str.upper]: the case mappings of the Unicode database,
    which is not part of the program. *)
Variable lower : str -> str.
Variable upper : str -> str.

Definition category_header (cat_name : str) (n : nat) : str :=
  u "📎 <b>" ++ upper cat_name ++ u "</b> (" ++ str_of_len n ++ u " enlaces)"
  ++ NL ++ NL.

Definition format_category_message (cat_name : str) (links : list LinkEntry)
  : str :=
  let header := category_header cat_name (length links) in
  match links with
  | [] => header ++ ADD_HINT
  | _ :: _ =>
      let lines := snd (fold_left category_step links (1%nat, [])) in
      header ++ join NL lines
  end.

(* ================================================================== *)
(** * The world: the data file, the channel and the chat *)
(* ================================================================== *)

Inductive level : Type := INFO | WARNING | ERROR.

(** What the program does to the outside, in order. *)
Inductive event : Type :=
| SendMessage (chat_id text : str) (disable_web_page_preview : bool)
| EditMessageText (chat_id : str) (msg_id : option Z) (text : str)
                  (disable_web_page_preview : bool)
| ReplyText (text : str) (html : bool)
| SaveData (data : Doc)
| Log (lvl : level) (msg : str).

(** The answer of the Telegram API to a request: the id of the message, or
    an error with its text. *)
Inductive response : Type :=
| Done (msg_id : Z)
| Failed (err : str).

(** The channel side: it answers each request, and the answer may depend on
    everything that happened so far (the trace ends with the request). *)
Variable bot : list event -> response.

Inductive exn : Type :=
| FileNotFoundError (msg : str)
| KeyError (key : str)
| TelegramError (msg : str).

(** [str(e)] *)
Definition str_of_exn (e : exn) : str :=
  match e with
  | FileNotFoundError msg => msg
  | KeyError key => u "'" ++ key ++ u "'"
  | TelegramError msg => msg
  end.

(** [file] is the content of [data.json], [None] when the file does not
    exist. *)
Record World : Type := mkWorld {
  file : option Doc;
  trace : list event
}.

Inductive result (A : Type) : Type :=
| Returned (a : A)
| Raised (e : exn).
Arguments Raised {A}.

(** Computations that act on the world and may raise. *)
Definition M (A : Type) : Type := World -> result A * World.

Definition ret {A} (a : A) : M A := fun w => (Returned a, w).

Definition bind {A B} (m : M A) (k : A -> M B) : M B :=
  fun w =>
    match m w with
    | (Returned a, w') => k a w'
    | (Raised e, w') => (Raised e, w')
    end.

Definition raise {A} (e : exn) : M A := fun w => (Raised e, w).

(** [try: body except Exception as e: handler(e)] *)
Definition try_except {A} (body : M A) (handler : exn -> M A) : M A :=
  fun w =>
    match body w with
    | (Returned a, w') => (Returned a, w')
    | (Raised e, w') => handler e w'
    end.

Notation "x <- m ;; k" := (bind m (fun x => k))
  (at level 61, m at next level, right associativity).
Notation "m ;;; k" := (bind m (fun _ => k))
  (at level 61, right associativity).

Definition emit (e : event) : M unit :=
  fun w => (Returned tt, mkWorld (file w) (trace w ++ [e])).

Definition logger (lvl : level) (msg : str) : M unit := emit (Log lvl msg).

(** [update.message.reply_text]: the reply is recorded; its delivery is the
    business of the transport. *)
Definition reply_text (text : str) (html : bool) : M unit :=
  emit (ReplyText text html).

Definition DATA_FILE : str := u "data.json".

Definition load_data : M Doc :=
  fun w =>
    match file w with
    | None =>
        (Raised (FileNotFoundError
                   (DATA_FILE ++ u " not found. Create it from the template.")),
         w)
    | Some data => (Returned data, w)
    end.

Definition save_data (data : Doc) : M unit :=
  fun w => (Returned tt, mkWorld (Some data) (trace w ++ [SaveData data])).

(** A request to the channel: the request is recorded, then answered. *)
Definition request (e : event) : M Z :=
  fun w =>
    let tr := trace w ++ [e] in
    match bot tr with
    | Done mid => (Returned mid, mkWorld (file w) tr)
    | Failed err => (Raised (TelegramError err), mkWorld (file w) tr)
    end.

Definition send_message (chat_id text : str) (no_preview : bool) : M Z :=
  request (SendMessage chat_id text no_preview).

Definition edit_message_text (chat_id : str) (msg_id : option Z) (text : str)
           (no_preview : bool) : M unit :=
  _ <- request (EditMessageText chat_id msg_id text no_preview) ;; ret tt.

(** [data["categorias"][cat]], a [KeyError] when [cat] is not a key. *)
Definition get_category (data : Doc) (cat : str) : M Category :=
  match dict_get cat (categorias data) with
  | Some info => ret info
  | None => raise (KeyError cat)
  end.

(** [data["categorias"][cat]["message_id"] = mid] *)
Definition set_message_id (data : Doc) (cat : str) (mid : Z) : M Doc :=
  info <- get_category data cat ;;
  ret (set_categorias data
         (dict_set cat (mkCategory (Value mid) (links info)) (categorias data))).

(** A [for] loop over [items] whose body updates the local variables [st]. *)
Fixpoint for_each {A S} (items : list A) (body : A -> S -> M S) (st : S)
  : M S :=
  match items with
  | [] => ret st
  | x :: rest => st' <- body x st ;; for_each rest body st'
  end.

(* ================================================================== *)
(** * Startup reconciliation *)
(* ================================================================== *)

(** The body of the loop of [ensure_channel_messages].  [info] is the record
    that [items()] yields for [cat], the very object stored under that key;
    the local variables are [data] and [modified]. *)
Definition ensure_category (chat_id : str) (item : str * Category)
           (st : Doc * bool) : M (Doc * bool) :=
  let '(cat, info) := item in
  let '(data, modified) := st in
  if negb (field_truthy (message_id info)) then
    let text := format_category_message cat (get_links info) in
    mid <- send_message chat_id text false ;;
    data' <- set_message_id data cat mid ;;
    logger INFO (u "Created message for category '" ++ cat ++ u "' id="
                 ++ str_of_int mid) ;;;
    ret (data', true)
  else ret (data, modified).

Definition ensure_channel_messages : M unit :=
  data <- load_data ;;
  let skip :=
    logger WARNING
      (u "channel_username is null in data.json. Skipping auto-initialization.")
  in
  match channel_username data with
  | None => skip
  | Some channel =>
    if negb (truthy channel) then skip
    else
      let chat_id := channel in
      st <- (if negb (opt_int_truthy (indice_message_id data)) then
               let text := format_index data in
               mid <- send_message chat_id text true ;;
               logger INFO (u "Created index message id=" ++ str_of_int mid) ;;;
               ret (set_indice data mid, true)
             else ret (data, false)) ;;
      st' <- for_each (categorias (fst st)) (ensure_category chat_id) st ;;
      let '(data', modified) := st' in
      if modified then
        save_data data' ;;;
        logger INFO (u "data.json updated with new message ids.")
      else ret tt
  end.

(* ================================================================== *)
(** * The [/add] and [/refresh] handlers *)
(* ================================================================== *)

(** [update.effective_user] *)
Record User : Type := mkUser {
  username : option str;
  full_name : str
}.

(** [a or b], where [a] may be [None]. *)
Definition or_else (a : option str) (b : str) : str :=
  match a with
  | Some s => if truthy s then s else b
  | None => b
  end.

Definition USAGE : str :=
  u "Uso inválido. Formato correcto:" ++ NL
  ++ u "/add <Categoría> <Título opcional> <URL>" ++ NL
  ++ u "Ejemplo:" ++ NL
  ++ u "/add Diseño Vectorizar imagen https://example.com".

Definition not_found_text (category : str) : str :=
  u "Categoría '" ++ category
  ++ u "' no encontrada. Usa /list para ver categorías disponibles.".

Definition added_text (cat_key : str) : str :=
  u "Enlace agregado a <b>" ++ cat_key ++ u "</b> ✅".

(** [[c for c in data["categorias"].keys() if c.lower() == category.lower()]] *)
Definition matches (data : Doc) (category : str) : list str :=
  filter (fun c => str_eqb (lower c) (lower category)) (keys (categorias data)).

(** [info.setdefault("links", []).append(entry)] *)
Definition append_link (info : Category) (entry : LinkEntry) : Category :=
  mkCategory (message_id info) (Some (get_links info ++ [entry])).

(** [info["message_id"]] *)
Definition index_message_id (info : Category) : M (option Z) :=
  match message_id info with
  | Missing => raise (KeyError (u "message_id"))
  | Null => ret None
  | Value z => ret (Some z)
  end.

(** [info["links"]] *)
Definition index_links (info : Category) : M (list LinkEntry) :=
  match links info with
  | None => raise (KeyError (u "links"))
  | Some l => ret l
  end.

(** The part of [add_command] under [if channel:]. *)
Definition push_category_and_index (data : Doc) (chat_id cat_key : str)
  : M unit :=
  info <- get_category data cat_key ;;
  cat_msg_id <- index_message_id info ;;
  info' <- get_category data cat_key ;;
  ls <- index_links info' ;;
  let new_text := format_category_message cat_key ls in
  try_except
    (edit_message_text chat_id cat_msg_id new_text false)
    (fun e => logger ERROR (u "Failed to edit category message: "
                            ++ str_of_exn e)) ;;;
  let idx_id := indice_message_id data in
  if opt_int_truthy idx_id then
    let idx_text := format_index data in
    try_except
      (edit_message_text chat_id idx_id idx_text true)
      (fun e => logger ERROR (u "Failed to edit index message: "
                              ++ str_of_exn e))
  else ret tt.

Definition add_command (user : User) (raw : str) : M unit :=
  let '(category, title, url) := parse_add_args raw in
  match category, url with
  | Some category, Some url =>
    if negb (truthy category) || negb (truthy url) then reply_text USAGE false
    else
      data <- load_data ;;
      match matches data category with
      | [] => reply_text (not_found_text category) false
      | cat_key :: _ =>
          let entry :=
            mkLink (or_else title url) url
                   (or_else (username user) (full_name user)) in
          info <- get_category data cat_key ;;
          let data :=
            set_categorias data
              (dict_set cat_key (append_link info entry) (categorias data)) in
          save_data data ;;;
          (match channel_username data with
           | Some channel =>
               if truthy channel
               then push_category_and_index data channel cat_key
               else ret tt
           | None => ret tt
           end) ;;;
          reply_text (added_text cat_key) true
      end
  | _, _ => reply_text USAGE false
  end.

(** [info.get("message_id")] *)
Definition field_get {A} (f : field A) : option A :=
  match f with
  | Value a => Some a
  | _ => None
  end.

(** The body of the first loop of [refresh_command]; the local variable is
    [data]. *)
Definition refresh_category (chat_id : str) (item : str * Category)
           (data : Doc) : M Doc :=
  let '(cat, info) := item in
  let msg_id := field_get (message_id info) in
  let text := format_category_message cat (get_links info) in
  try_except
    (if opt_int_truthy msg_id then
       edit_message_text chat_id msg_id text false ;;; ret data
     else
       mid <- send_message chat_id text false ;;
       set_message_id data cat mid)
    (fun e =>
       logger ERROR (u "Error refreshing category " ++ cat ++ u ": "
                     ++ str_of_exn e) ;;;
       ret data).

Definition refresh_command : M unit :=
  data <- load_data ;;
  let unset :=
    reply_text (u "channel_username no está configurado en data.json. Edita el archivo y pon el @username del canal.") false in
  match channel_username data with
  | None => unset
  | Some channel =>
    if negb (truthy channel) then unset
    else
      let chat_id := channel in
      data1 <- for_each (categorias data) (refresh_category chat_id) data ;;
      let idx_id := indice_message_id data1 in
      let idx_text := format_index data1 in
      data2 <- try_except
                 (if opt_int_truthy idx_id then
                    edit_message_text chat_id idx_id idx_text true ;;;
                    ret data1
                  else
                    mid <- send_message chat_id idx_text true ;;
                    ret (set_indice data1 mid))
                 (fun e =>
                    logger ERROR (u "Error refreshing index: "
                                  ++ str_of_exn e) ;;;
                    ret data1) ;;
      save_data data2 ;;;
      reply_text (u "Canal regenerado ✅") false
  end.

(** The operations that touch the document. *)
Inductive operation : Type :=
| Startup
| Add (user : User) (raw : str)
| Refresh.

Definition run_operation (op : operation) : M unit :=
  match op with
  | Startup => ensure_channel_messages
  | Add user raw => add_command user raw
  | Refresh => refresh_command
  end.

(** A run of operations, one after the other; an operation that raises ends
    there and the next one starts from the world it left. *)
Fixpoint run_all (ops : list operation) (w : World) : World :=
  match ops with
  | [] => w
  | op :: rest => run_all rest (snd (run_operation op w))
  end.

(* ================================================================== *)
(** * The read-only handlers *)
(* ================================================================== *)

(** One pass of the loop of [list_command]. *)
Definition list_step (lines : list str) (item : str * Category) : list str :=
  let '(cat, info) := item in
  lines ++ [u "• <b>" ++ cat ++ u "</b> — "
            ++ str_of_len (length (get_links info)) ++ u " enlaces"].

Definition list_command : M unit :=
  data <- load_data ;;
  let lines :=
    fold_left list_step (categorias data)
              [u "📚 <b>Categorías disponibles:</b>" ++ NL] in
  let text := join NL lines in
  reply_text text true.

(** [sum(len(info.get("links", [])) for info in data["categorias"].values())] *)
Definition total_links (data : Doc) : nat :=
  list_sum (map (fun item => length (get_links (snd item))) (categorias data)).

Definition info_command : M unit :=
  data <- load_data ;;
  let channel :=
    or_else (channel_username data) (u "No configurado (usa data.json)") in
  let total := total_links data in
  reply_text (u "Canal: " ++ channel ++ NL
              ++ u "Categorías: " ++ str_of_len (length (categorias data)) ++ NL
              ++ u "Enlaces totales: " ++ str_of_len total) false.

(** [echo_handler] on the text of the message. *)
Definition echo_handler (raw : str) : M unit :=
  let text := strip raw in
  if startswith text (u "http://") || startswith text (u "https://") then
    reply_text (u "Si quieres agregar este enlace, usa:" ++ NL
                ++ u "/add <Categoría> <Título opcional> <URL>" ++ NL
                ++ u "Ejemplo: /add Videos Video útil " ++ text) false
  else
    reply_text
      (u "Comando no reconocido. Usa /add para agregar enlaces o /list para ver categorías.")
      false.

(** ** Traces of the requests made under [try] *)

(** The trace after a request [e] made inside [try]/[except]: the request,
    and the error line when the channel refuses it. *)
Definition logged (prefix : str) (e : event) (tr : list event) : list event :=
  tr ++ [e] ++ match bot (tr ++ [e]) with
               | Failed err => [Log ERROR (prefix ++ err)]
               | Done _ => []
               end.

(** The trace of the two edits of [/add], from the trace [tr] on. *)
Definition pushed (data : Doc) (chat cat_key : str) (info : Category)
           (ls : list LinkEntry) (tr : list event) : list event :=
  let tr1 :=
    logged (u "Failed to edit category message: ")
      (EditMessageText chat (field_get (message_id info))
         (format_category_message cat_key ls) false) tr in
  if opt_int_truthy (indice_message_id data)
  then logged (u "Failed to edit index message: ")
         (EditMessageText chat (indice_message_id data) (format_index data) true)
         tr1
  else tr1.

End Bot.

Arguments Returned {A}.
Arguments Raised {A}.

(** Case mappings on Basic Latin and Latin-1 Supplement: what [str.lower] and
    [str.upper] do to strings whose code points are all below U+0100. *)
Module Latin1.

Definition lower_cp (c : N) : N :=
  if ((65 <=? c) && (c <=? 90))%N then (c + 32)%N
  else if ((192 <=? c) && (c <=? 222) && negb (c =? 215))%N then (c + 32)%N
  else c.

Definition upper_cp (c : N) : str :=
  if ((97 <=? c) && (c <=? 122))%N then [(c - 32)%N]
  else if ((224 <=? c) && (c <=? 254) && negb (c =? 247))%N then [(c - 32)%N]
  else if (c =? 223)%N then [83%N; 83%N]
  else if (c =? 255)%N then [376%N]
  else if (c =? 181)%N then [924%N]
  else [c].

Definition lower (s : str) : str := map lower_cp s.
Definition upper (s : str) : str := flat_map upper_cp s.

End Latin1.

(* ================================================================== *)
(** * Vocabulary of the statements *)
(* ================================================================== *)

(** A character that [split] keeps inside a token. *)
Definition nonspace (c : N) : bool := negb (isspace c).

(** A token that the URL pattern rejects. *)
Definition no_url (t : str) : bool := negb (url_pattern_match t).

(** The tokens that are left once a leading [/add...] token is dropped. *)
Definition without_command (toks : list str) : list str :=
  match toks with
  | t0 :: rest => if startswith t0 (u "/add") then rest else toks
  | [] => []
  end.

(** A string that stays on one line. *)
Definition no_newline (s : str) : bool :=
  forallb (fun c => negb (c =? 10)%N) s.

(** [channel_username] is set: it holds a non-empty string. *)
Definition channel_set (data : Doc) : bool :=
  match channel_username data with
  | Some c => truthy c
  | None => false
  end.

(** The channel name, empty when there is none. *)
Definition channel_name (data : Doc) : str :=
  match channel_username data with
  | Some c => c
  | None => []
  end.

(** The message id of a category, 0 when there is none. *)
Definition id_of (info : Category) : Z :=
  match message_id info with
  | Value z => z
  | _ => 0%Z
  end.

(** The hyperlink to message [mid] of the channel. *)
Definition jump_link (channel : str) (mid : Z) : str :=
  u " — <a href=" ++ DQ ++ u "https://t.me/" ++ lstrip_char 64 channel
  ++ u "/" ++ str_of_int mid ++ DQ ++ u ">ir</a>".

(** The line of the index for one category: name, link count and, when the
    channel and the message id of the category are both set, the jump. *)
Definition index_line (data : Doc) (item : str * Category) : str :=
  u "• <b>" ++ fst item ++ u "</b> ("
  ++ str_of_len (length (get_links (snd item))) ++ u ")"
  ++ (if channel_set data && field_truthy (message_id (snd item))
      then jump_link (channel_name data) (id_of (snd item))
      else []).

(** No category name and no channel name holds a newline. *)
Definition doc_one_line_names (data : Doc) : bool :=
  forallb no_newline (keys (categorias data)) && no_newline (channel_name data).

(** The line of link number [i]. *)
Definition link_line (i : nat) (item : LinkEntry) : str :=
  str_of_len i ++ u ". <a href=" ++ DQ ++ url item ++ DQ ++ u ">"
  ++ (if truthy (texto item) then texto item else url item) ++ u "</a>".

(** The lines of the links, numbered from 1 in stored order. *)
Definition numbered_lines (ls : list LinkEntry) : list str :=
  map (fun p => link_line (fst p) (snd p)) (combine (seq 1 (length ls)) ls).

(** Neither the title nor the url of the link holds a newline. *)
Definition link_one_line (item : LinkEntry) : bool :=
  no_newline (texto item) && no_newline (url item).

(** The characters of a decimal numeral. *)
Definition digit_or_minus (c : N) : bool :=
  ((48 <=? c) && (c <=? 57) || (c =? 45))%N.

(** The entry that [/add] stores. *)
Definition new_entry (user : User) (title : option str) (tok : str) : LinkEntry :=
  mkLink (or_else title tok) tok (or_else (username user) (full_name user)).

(** The document with [entry] appended to the links of [cat_key]. *)
Definition with_link (data : Doc) (cat_key : str) (info : Category)
           (entry : LinkEntry) : Doc :=
  set_categorias data
    (dict_set cat_key (append_link info entry) (categorias data)).

(** The event is an edit of a message of the channel. *)
Definition is_edit (e : event) : bool :=
  match e with
  | EditMessageText _ _ _ _ => true
  | _ => false
  end.

(** The event is a message sent to the channel. *)
Definition is_send (e : event) : bool :=
  match e with
  | SendMessage _ _ _ => true
  | _ => false
  end.

(** A category after an operation: a message id that was set is the same,
    and the links are the old ones followed by new ones. *)
Definition category_grows (old new : Category) : Prop :=
  (field_truthy (message_id old) = true -> message_id new = message_id old)
  /\ exists added, get_links new = get_links old ++ added.

(** A document after an operation: an index message id that was set is the
    same, and the categories are the same keys in the same order, each one
    grown. *)
Definition doc_grows (old new : Doc) : Prop :=
  (opt_int_truthy (indice_message_id old) = true ->
   indice_message_id new = indice_message_id old)
  /\ Forall2 (fun a b => fst a = fst b /\ category_grows (snd a) (snd b))
             (categorias old) (categorias new).

(** The document after one pass of a loop that records message ids: the same
    document, or the id of a new message stored for a category that had
    none. *)
Definition id_recorded (cur : Doc) (cat : str) (info : Category) (cur' : Doc)
  : Prop :=
  cur' = cur
  \/ (field_truthy (message_id info) = false
      /\ exists mid,
           cur' = set_categorias cur
                    (dict_set cat (mkCategory (Value mid) (links info))
                              (categorias cur))).

(** The computation leaves the data file alone. *)
Definition keeps_file {A} (m : M A) : Prop :=
  forall w, file (snd (m w)) = file w.

(** Every value the computation returns satisfies [P]. *)
Definition returns {A} (m : M A) (P : A -> Prop) : Prop :=
  forall w a, fst (m w) = Returned a -> P a.

(** Every message id of the document is set: the index has a message and so
    has each category. *)
Definition all_ids_set (data : Doc) : bool :=
  opt_int_truthy (indice_message_id data)
  && forallb (fun item => field_truthy (message_id (snd item)))
             (categorias data).

(** The event is a request to the channel. *)
Definition is_request (e : event) : bool := is_send e || is_edit e.

(** The event is a write of the data file. *)
Definition is_save (e : event) : bool :=
  match e with
  | SaveData _ => true
  | _ => false
  end.

(** A token: not empty and free of white space. *)
Definition is_token (t : str) : bool := truthy t && forallb nonspace t.

(** The line of [/list] for one category. *)
Definition list_line (item : str * Category) : str :=
  u "• <b>" ++ fst item ++ u "</b> — "
  ++ str_of_len (length (get_links (snd item))) ++ u " enlaces".

(** The text of the reply of [/info]. *)
Definition info_text (channel : str) (categories total : nat) : str :=
  u "Canal: " ++ channel ++ NL ++ u "Categorías: " ++ str_of_len categories
  ++ NL ++ u "Enlaces totales: " ++ str_of_len total.

(** ** A concrete catalogue *)

Module Sample.

(** A channel that accepts every request and numbers the messages. *)
Definition counting_bot (tr : list event) : response :=
  Done (Z.of_nat (length tr)).

(** A channel that rejects every request. *)
Definition failing_bot (tr : list event) : response :=
  Failed (u "Bad Request").

Definition catalogue : Doc :=
  mkDoc (Some (u "@mi_canal")) (Some 5%Z)
        [(u "Diseño", mkCategory (Value 7%Z) (Some []));
         (u "Videos", mkCategory Missing None)].

Definition ana : User := mkUser (Some (u "ana")) (u "Ana").

Definition start : World := mkWorld (Some catalogue) [].

Definition example_url : str := u "https://example.com/x".

Definition entry : LinkEntry := mkLink (u "Mi título") example_url (u "ana").

Definition catalogue_added : Doc :=
  mkDoc (Some (u "@mi_canal")) (Some 5%Z)
        [(u "Diseño", mkCategory (Value 7%Z) (Some [entry]));
         (u "Videos", mkCategory Missing None)].

Definition videos_doc : Doc :=
  mkDoc (Some (u "@mi_canal")) None [(u "Videos", mkCategory Null (Some []))].

Definition videos_ready : Doc :=
  mkDoc (Some (u "@mi_canal")) (Some 1%Z)
        [(u "Videos", mkCategory (Value 3%Z) (Some []))].

End Sample.

(** ** Further catalogues and channels *)

Module Scenario.

(** A channel that accepts the first request and refuses the later ones. *)
Definition flaky_bot (tr : list event) : response :=
  if (length tr <=? 1)%nat then Done 11%Z else Failed (u "Bad Request").

(** Two categories whose names differ only in case. *)
Definition shadow_doc : Doc :=
  mkDoc (Some (u "@mi_canal")) (Some 5%Z)
        [(u "Videos", mkCategory (Value 7%Z) (Some []));
         (u "videos", mkCategory (Value 8%Z) (Some []))].

(** A catalogue without a channel. *)
Definition offline_doc : Doc :=
  mkDoc None None [(u "Videos", mkCategory Missing None)].

Definition clip : str := u "/add videos Clip https://example.com/x".

Definition clip_entry : LinkEntry :=
  mkLink (u "Clip") Sample.example_url (u "ana").

End Scenario.

(* ================================================================== *)
(** * Properties of the string operations *)
(* ================================================================== *)

Ltac by_compute := vm_compute; reflexivity.

(** Finds the places of an event in an explicit list of events. *)
Ltac find_edit E :=
  lazymatch type of E with
  | [] = ?pre ++ _ :: _ => destruct pre; discriminate E
  | _ :: _ = ?pre ++ _ :: _ =>
      let E1 := fresh "E" in
      let E2 := fresh "E" in
      destruct pre as [|? pre]; cbn [app] in E; injection E as E1 E2;
      [ | find_edit E2 ]
  end.

Ltac distinct_names :=
  repeat (apply Forall_cons;
          [let E := fresh in intros E; vm_compute in E; discriminate E|]);
  apply Forall_nil.

Lemma str_eqb_eq (a b : str) : str_eqb a b = true <-> a = b.
Proof.
  unfold str_eqb. destruct (list_eq_dec N.eq_dec a b); split; congruence.
Qed.

Lemma str_eqb_refl (a : str) : str_eqb a a = true.
Proof. now apply str_eqb_eq. Qed.

Lemma str_eqb_neq (a b : str) : str_eqb a b = false <-> a <> b.
Proof.
  unfold str_eqb. destruct (list_eq_dec N.eq_dec a b); split; congruence.
Qed.

Lemma lstrip_decompose (s : str) :
  exists ws, s = ws ++ lstrip s /\ forallb isspace ws = true.
Proof.
  induction s as [|c s IH]; simpl.
  - now exists [].
  - destruct (isspace c) eqn:Hc.
    + destruct IH as [ws [E Hws]]. exists (c :: ws). simpl.
      rewrite Hc, Hws. split; [now f_equal | reflexivity].
    + now exists [].
Qed.

Lemma split_from_leading (ws s : str) :
  forallb isspace ws = true -> split_from [] (ws ++ s) = split_from [] s.
Proof.
  induction ws as [|c ws IH]; simpl; [reflexivity|].
  intros H. apply andb_true_iff in H as [Hc Hws]. rewrite Hc. now apply IH.
Qed.

Lemma split_from_trailing_one (c : N) (s cur : str) :
  isspace c = true -> split_from cur (s ++ [c]) = split_from cur s.
Proof.
  intros Hc. revert cur.
  induction s as [|d s IH]; intros cur; simpl.
  - rewrite Hc. now destruct cur.
  - destruct (isspace d); [destruct cur|]; now rewrite IH.
Qed.

Lemma split_from_trailing (ws s cur : str) :
  forallb isspace ws = true -> split_from cur (s ++ ws) = split_from cur s.
Proof.
  revert s. induction ws as [|c ws IH]; intros s H; simpl in *.
  - now rewrite app_nil_r.
  - apply andb_true_iff in H as [Hc Hws].
    change (c :: ws) with ([c] ++ ws). rewrite app_assoc, IH by assumption.
    now apply split_from_trailing_one.
Qed.

(** [strip] before [split] changes nothing. *)
Lemma split_strip (s : str) : split (strip s) = split s.
Proof.
  unfold split, strip.
  destruct (lstrip_decompose s) as [ws [E Hws]].
  destruct (lstrip_decompose (rev (lstrip s))) as [ws' [E' Hws']].
  rewrite E at 2. rewrite split_from_leading by assumption.
  apply (f_equal (@rev N)) in E'. rewrite rev_involutive, rev_app_distr in E'.
  rewrite E' at 2. rewrite split_from_trailing; [reflexivity|].
  rewrite forallb_forall in *. intros x Hx. apply Hws'. now apply in_rev.
Qed.

(** White space before the first token is skipped. *)
Lemma split_space (c : N) (s : str) :
  isspace c = true -> split (c :: s) = split s.
Proof. intros H. unfold split. simpl. now rewrite H. Qed.

Lemma split_from_run (t s cur : str) :
  forallb nonspace t = true ->
  split_from cur (t ++ s) = split_from (rev t ++ cur) s.
Proof.
  revert cur. induction t as [|c t IH]; intros cur H; simpl in *.
  - reflexivity.
  - apply andb_true_iff in H as [Hc Ht]. unfold nonspace in Hc.
    apply negb_true_iff in Hc. rewrite Hc, IH by assumption.
    now rewrite <- app_assoc.
Qed.

(** A run of non-space characters that ends at white space or at the end of
    the text is one token. *)
Lemma split_token (t s : str) :
  t <> [] -> forallb nonspace t = true ->
  match s with [] => True | c :: _ => isspace c = true end ->
  split (t ++ s) = t :: split s.
Proof.
  intros Hne Ht Hs. unfold split. rewrite split_from_run by assumption.
  rewrite app_nil_r.
  assert (Hr : rev t <> []).
  { intros E. apply Hne. apply (f_equal (@rev N)) in E.
    now rewrite rev_involutive in E. }
  destruct s as [|c s]; simpl.
  - destruct (rev t) eqn:E; [congruence|]. now rewrite <- E, rev_involutive.
  - rewrite Hs. destruct (rev t) eqn:E; [congruence|].
    now rewrite <- E, rev_involutive.
Qed.

Lemma split_from_tokens (s cur : str) :
  forallb nonspace cur = true ->
  Forall (fun t => t <> [] /\ forallb nonspace t = true) (split_from cur s).
Proof.
  revert cur. induction s as [|c s IH]; intros cur Hcur; simpl.
  - destruct cur as [|d cur]; constructor; [|constructor].
    split.
    + intros E. apply (f_equal (@rev N)) in E.
      rewrite rev_involutive in E. discriminate.
    + rewrite forallb_forall in *. intros x Hx. apply Hcur. now apply in_rev.
  - destruct (isspace c) eqn:Hc.
    + destruct cur as [|d cur]; [now apply IH|].
      constructor; [|now apply IH].
      split.
      * intros E. apply (f_equal (@rev N)) in E.
        rewrite rev_involutive in E. discriminate.
      * rewrite forallb_forall in *. intros x Hx. apply Hcur. now apply in_rev.
    + apply IH. simpl. unfold nonspace at 1. now rewrite Hc.
Qed.

(** Every token of [split] is non-empty and free of white space. *)
Lemma split_tokens (s : str) :
  Forall (fun t => t <> [] /\ forallb nonspace t = true) (split s).
Proof. now apply split_from_tokens. Qed.

(* ================================================================== *)
(** * Properties of the parser *)
(* ================================================================== *)

Lemma add_tokens_split (text : str) :
  add_tokens text = without_command (split text).
Proof.
  unfold add_tokens, without_command. rewrite split_strip.
  now destruct (split text).
Qed.

Lemma find_url_none (parts : list str) (n : nat) :
  forallb no_url parts = true -> (n <= length parts)%nat ->
  find_url parts n = None.
Proof.
  intros H. induction n as [|n IH]; intros Hn; simpl; [reflexivity|].
  rewrite forallb_forall in H.
  assert (Hin : In (nth n parts []) parts) by (apply nth_In; lia).
  apply H in Hin. unfold no_url in Hin. apply negb_true_iff in Hin.
  rewrite Hin. apply IH. lia.
Qed.

Lemma find_url_last (pre post : list str) (tok : str) (k : nat) :
  url_pattern_match tok = true -> forallb no_url post = true ->
  (k <= length post)%nat ->
  find_url (pre ++ tok :: post) (length pre + 1 + k) = Some (length pre).
Proof.
  intros Htok Hpost. induction k as [|k IH]; intros Hk.
  - replace (length pre + 1 + 0)%nat with (S (length pre)) by lia. simpl.
    rewrite nth_middle. now rewrite Htok.
  - replace (length pre + 1 + S k)%nat with (S (length pre + 1 + k)) by lia.
    simpl.
    replace (nth (length pre + 1 + k) (pre ++ tok :: post) [])
      with (nth k post []).
    + rewrite forallb_forall in Hpost.
      assert (Hin : In (nth k post []) post) by (apply nth_In; lia).
      apply Hpost in Hin. unfold no_url in Hin. apply negb_true_iff in Hin.
      rewrite Hin. apply IH. lia.
    + rewrite app_nth2 by lia.
      replace (length pre + 1 + k - length pre)%nat with (S k) by lia.
      reflexivity.
Qed.

(** Either no token is a URL, or there is a last one. *)
Lemma last_url_split (parts : list str) :
  forallb no_url parts = true \/
  exists pre tok post,
    parts = pre ++ tok :: post /\ url_pattern_match tok = true /\
    forallb no_url post = true.
Proof.
  induction parts as [|x parts IH].
  - now left.
  - destruct IH as [Hall | [pre [tok [post [E [Ht Hp]]]]]].
    + destruct (url_pattern_match x) eqn:Hx.
      * right. exists [], x, parts. now repeat split.
      * left. simpl. unfold no_url at 1. now rewrite Hx.
    + right. exists (x :: pre), tok, post. subst. now repeat split.
Qed.

Lemma parse_tokens_found (text : str) (pre post : list str) (tok : str) :
  add_tokens text = pre ++ tok :: post ->
  url_pattern_match tok = true -> forallb no_url post = true ->
  parse_add_args text =
    (Some (hd tok pre), Some (join (u " ") (tl pre)), Some tok).
Proof.
  intros E Htok Hpost. unfold parse_add_args. rewrite E.
  destruct (pre ++ tok :: post) as [|p0 ps] eqn:Eparts.
  { now destruct pre. }
  rewrite <- Eparts.
  replace (length (pre ++ tok :: post))
    with (length pre + 1 + length post)%nat
    by (rewrite length_app; simpl; lia).
  rewrite (@find_url_last pre post tok (length post) Htok Hpost (le_n _)).
  rewrite nth_middle.
  destruct pre as [|c mid]; simpl.
  - reflexivity.
  - destruct mid as [|m mid']; simpl; [reflexivity|].
    unfold slice. simpl.
    replace (length mid' - 0)%nat with (length mid') by lia.
    now rewrite firstn_app, firstn_all, Nat.sub_diag, app_nil_r.
Qed.

Lemma parse_tokens_none (text : str) :
  add_tokens text = [] \/ forallb no_url (add_tokens text) = true ->
  parse_add_args text = (None, None, None).
Proof.
  unfold parse_add_args. intros [E | H].
  - now rewrite E.
  - destruct (add_tokens text) as [|p0 ps] eqn:E; [reflexivity|].
    now rewrite find_url_none.
Qed.

Lemma drop_prefix_spec (p s r : str) :
  drop_prefix s p = Some r <-> s = p ++ r.
Proof.
  revert s. induction p as [|a p IH]; intros s; simpl.
  - split; congruence.
  - destruct s as [|b s]; [split; discriminate|].
    destruct (N.eqb_spec a b) as [->|Hab].
    + rewrite IH. split; congruence.
    + split; [discriminate | congruence].
Qed.

Lemma nonspace_to_end_token (rest : str) :
  forallb nonspace rest = true -> nonspace_to_end rest = truthy rest.
Proof.
  intros H. unfold nonspace_to_end.
  change (fun c : N => negb (isspace c)) with nonspace. rewrite H.
  destruct (rev rest) as [|c r] eqn:E.
  - now rewrite andb_true_r, orb_false_r.
  - assert (Hc : nonspace c = true).
    { rewrite forallb_forall in H. apply H, in_rev. rewrite E. now left. }
    destruct (N.eqb_spec c 10) as [->|Hne]; [discriminate Hc|].
    rewrite andb_true_r.
    destruct c as [|q]; [now rewrite orb_false_r|].
    repeat (destruct q as [q|q|]; try now rewrite orb_false_r).
    now elim Hne.
Qed.

(** On a token of [split], the pattern [^https?://\S+$] asks for the prefix
    [http://] or [https://] and at least one more character. *)
Lemma url_pattern_match_token (t : str) :
  forallb nonspace t = true ->
  url_pattern_match t = true <->
  exists rest, rest <> [] /\ (t = u "http://" ++ rest \/ t = u "https://" ++ rest).
Proof.
  intros Ht. unfold url_pattern_match. split.
  - destruct (drop_prefix t (u "http")) as [r|] eqn:E; [|discriminate].
    apply drop_prefix_spec in E. subst t.
    rewrite forallb_app in Ht. apply andb_true_iff in Ht as [_ Hr].
    intros H. apply orb_true_iff in H as [H|H].
    + destruct r as [|c r]; [discriminate|].
      destruct (N.eqb_spec c 115) as [->|Hc].
      * destruct (drop_prefix r (u "://")) as [rest|] eqn:E; [|discriminate].
        apply drop_prefix_spec in E. subst r. exists rest.
        change (115%N :: u "://" ++ rest) with (u "s://" ++ rest) in Hr.
        rewrite forallb_app in Hr. apply andb_true_iff in Hr as [_ Hr].
        rewrite nonspace_to_end_token in H by assumption.
        split; [now destruct rest | now right].
      * exfalso. destruct c as [|q]; [discriminate|].
        repeat (destruct q as [q|q|]; try discriminate). now elim Hc.
    + destruct (drop_prefix r (u "://")) as [rest|] eqn:E; [|discriminate].
      apply drop_prefix_spec in E. subst r. exists rest.
      rewrite forallb_app in Hr. apply andb_true_iff in Hr as [_ Hr].
      rewrite nonspace_to_end_token in H by assumption.
      split; [now destruct rest | now left].
  - intros [rest [Hne [-> | ->]]].
    + assert (Hr : forallb nonspace rest = true).
      { rewrite forallb_app in Ht. now apply andb_true_iff in Ht. }
      cbn. rewrite nonspace_to_end_token by assumption.
      destruct rest; [congruence|]. reflexivity.
    + assert (Hr : forallb nonspace rest = true).
      { rewrite forallb_app in Ht. now apply andb_true_iff in Ht. }
      cbn. rewrite nonspace_to_end_token by assumption.
      destruct rest; [congruence|]. reflexivity.
Qed.

Example split_unicode_space :
  split (u "  /add   Diseño" ++ [160%N; 9%N] ++ u "x ") = [u "/add"; u "Diseño"; u "x"].
Proof. reflexivity. Qed.

Example url_pattern_examples :
  url_pattern_match (u "https://example.com/x") = true
  /\ url_pattern_match (u "http://a") = true
  /\ url_pattern_match (u "http://") = false
  /\ url_pattern_match (u "ftp://example.com") = false
  /\ url_pattern_match (u "xhttps://example.com") = false
  /\ url_pattern_match (u "https://example.com/a b") = false
  /\ url_pattern_match (u "httpss://example.com") = false
  /\ url_pattern_match (u "http://a" ++ NL) = true
  /\ url_pattern_match (u "http://" ++ NL) = false
  /\ url_pattern_match (u "http://a" ++ NL ++ NL) = false.
Proof. repeat split; reflexivity. Qed.

Example parse_without_title :
  parse_add_args (u "/add Diseño https://example.com/x")
  = (Some (u "Diseño"), Some [], Some (u "https://example.com/x")).
Proof. reflexivity. Qed.

Example parse_last_url_wins :
  parse_add_args (u "/add Diseño http://a.example ver https://b.example fin")
  = (Some (u "Diseño"), Some (u "http://a.example ver"),
     Some (u "https://b.example")).
Proof. reflexivity. Qed.

(** C1. [parse_add_args] splits the text on white space and drops a leading
    token that starts with [/add].  It returns [(None, None, None)] exactly
    when no token is left or no token matches the URL pattern.  Otherwise the
    url is the last token that matches, the category is the first token, and
    the title joins with spaces the tokens strictly between the two (the
    empty string when there is none).  The two examples of the specification
    evaluate as stated. *)
Theorem parse_add_args_spec :
  (forall text : str,
     let parts := without_command (split text) in
     add_tokens text = parts /\
     Forall (fun t => t <> [] /\ forallb nonspace t = true) (split text) /\
     (parse_add_args text = (None, None, None) <->
        parts = [] \/ forallb no_url parts = true) /\
     (forall pre tok post,
        parts = pre ++ tok :: post ->
        url_pattern_match tok = true ->
        forallb no_url post = true ->
        parse_add_args text =
          (Some (hd tok pre), Some (join (u " ") (tl pre)), Some tok)))
  /\ parse_add_args (u "/add Diseño Mi título https://example.com/x")
     = (Some (u "Diseño"), Some (u "Mi título"), Some (u "https://example.com/x"))
  /\ parse_add_args (u "/add Diseño sin-url-aquí") = (None, None, None).
Proof.
  split; [|split; reflexivity].
  intros text parts. subst parts. rewrite <- add_tokens_split.
  split; [reflexivity|]. split; [apply split_tokens|]. split.
  - split.
    + intros H.
      destruct (add_tokens text) as [|p0 ps] eqn:E; [now left|]. right.
      destruct (last_url_split (p0 :: ps)) as [Hall|[pre [tok [post [E' [Ht Hp]]]]]];
        [assumption|].
      rewrite <- E in E'.
      rewrite (@parse_tokens_found text pre post tok E' Ht Hp) in H. discriminate.
    + apply parse_tokens_none.
  - intros pre tok post E Ht Hp.
    now apply parse_tokens_found with (post := post).
Qed.

(** The general statement at the tokens of the first example. *)
Lemma parse_add_args_spec_witness :
  parse_add_args (u "/add Diseño Mi título https://example.com/x")
  = (Some (hd (u "https://example.com/x") [u "Diseño"; u "Mi"; u "título"]),
     Some (join (u " ") (tl [u "Diseño"; u "Mi"; u "título"])),
     Some (u "https://example.com/x")).
Proof.
  destruct parse_add_args_spec as [H _].
  destruct (H (u "/add Diseño Mi título https://example.com/x"))
    as (_ & _ & _ & H3).
  apply (H3 [u "Diseño"; u "Mi"; u "título"] (u "https://example.com/x") []);
    reflexivity.
Defined.

(* ================================================================== *)
(** * Properties of the renderers *)
(* ================================================================== *)

Lemma no_newline_app (a b : str) :
  no_newline (a ++ b) = no_newline a && no_newline b.
Proof. apply forallb_app. Qed.

Lemma lines_from_run (x rest cur : str) :
  no_newline x = true ->
  lines_from cur (x ++ rest) = lines_from (rev x ++ cur) rest.
Proof.
  revert cur. induction x as [|c x IH]; intros cur H; simpl in *.
  - reflexivity.
  - apply andb_true_iff in H as [Hc Hx]. apply negb_true_iff in Hc.
    rewrite Hc, IH by assumption. now rewrite <- app_assoc.
Qed.

Lemma text_lines_one (x : str) : no_newline x = true -> text_lines x = [x].
Proof.
  intros H. unfold text_lines.
  rewrite <- (app_nil_r x) at 1. rewrite lines_from_run by assumption.
  simpl. now rewrite app_nil_r, rev_involutive.
Qed.

(** The lines of a text made by joining one-line strings with newlines are
    these strings. *)
Lemma text_lines_join (x : str) (xs : list str) :
  forallb no_newline (x :: xs) = true ->
  text_lines (join NL (x :: xs)) = x :: xs.
Proof.
  revert x. induction xs as [|y xs IH]; intros x H.
  - simpl in H. rewrite andb_true_r in H. now apply text_lines_one.
  - change (forallb no_newline (x :: y :: xs))
      with (no_newline x && forallb no_newline (y :: xs)) in H.
    apply andb_true_iff in H as [Hx Hr].
    change (join NL (x :: y :: xs)) with (x ++ NL ++ join NL (y :: xs)).
    unfold text_lines. rewrite lines_from_run by assumption.
    change (lines_from (rev x ++ []) (NL ++ join NL (y :: xs)))
      with (rev (rev x ++ []) :: text_lines (join NL (y :: xs))).
    rewrite app_nil_r, rev_involutive. rewrite (IH y Hr). reflexivity.
Qed.

(** The same for a title line, an empty line and the lines of the body. *)
Lemma text_lines_header (title : str) (body : list str) :
  no_newline title = true -> forallb no_newline body = true ->
  text_lines (join NL (title :: [] :: body)) = title :: [] :: body.
Proof.
  intros Ht Hb. apply text_lines_join.
  cbn [forallb]. rewrite Ht, Hb. reflexivity.
Qed.

Lemma string_of_uint_digits (d : Decimal.uint) :
  forallb digit_or_minus (u (NilEmpty.string_of_uint d)) = true.
Proof.
  induction d; [reflexivity | exact IHd ..].
Qed.

Lemma str_of_int_digits (z : Z) : forallb digit_or_minus (str_of_int z) = true.
Proof.
  unfold str_of_int, NilZero.string_of_int, NilZero.string_of_uint.
  destruct (Z.to_int z) as [d|d].
  - destruct d; try apply string_of_uint_digits; reflexivity.
  - destruct d;
      try (change (forallb digit_or_minus
                     (45%N :: u (NilEmpty.string_of_uint d)) = true);
           simpl; apply string_of_uint_digits);
      reflexivity.
Qed.

Lemma str_of_int_no_newline (z : Z) : no_newline (str_of_int z) = true.
Proof.
  pose proof (str_of_int_digits z) as H. unfold no_newline.
  rewrite forallb_forall in *. intros c Hc. apply H in Hc.
  unfold digit_or_minus in Hc. destruct (N.eqb_spec c 10) as [->|]; [|reflexivity].
  discriminate Hc.
Qed.

Lemma lstrip_char_no_newline (ch : N) (s : str) :
  no_newline s = true -> no_newline (lstrip_char ch s) = true.
Proof.
  induction s as [|c s IH]; simpl; [reflexivity|]. intros H.
  destruct (c =? ch)%N; [|exact H].
  apply andb_true_iff in H as [_ H]. now apply IH.
Qed.

Lemma jump_of_spec (data : Doc) (info : Category) :
  jump_of data info =
    if channel_set data && field_truthy (message_id info)
    then jump_link (channel_name data) (id_of info)
    else [].
Proof.
  unfold jump_of, channel_set, channel_name, id_of, jump_link.
  destruct (channel_username data) as [c|]; [|reflexivity].
  destruct (message_id info) as [| |z]; simpl;
    try (now destruct (truthy c)).
Qed.

Lemma index_step_line (data : Doc) (lines : list str) (item : str * Category) :
  index_step data lines item = lines ++ [index_line data item].
Proof.
  destruct item as [cat info]. unfold index_step, index_line.
  now rewrite jump_of_spec.
Qed.

Lemma fold_index_step (data : Doc) (cats : dict Category) (acc : list str) :
  fold_left (index_step data) cats acc = acc ++ map (index_line data) cats.
Proof.
  revert acc. induction cats as [|item cats IH]; intros acc; simpl.
  - now rewrite app_nil_r.
  - rewrite IH, index_step_line, <- app_assoc. reflexivity.
Qed.

Lemma format_index_closed (data : Doc) :
  format_index data =
    join NL (INDEX_HEADER :: map (index_line data) (categorias data)).
Proof. unfold format_index. now rewrite fold_index_step. Qed.

Lemma jump_link_nonempty (channel : str) (mid : Z) : jump_link channel mid <> [].
Proof. discriminate. Qed.

Lemma jump_link_no_newline (channel : str) (mid : Z) :
  no_newline channel = true -> no_newline (jump_link channel mid) = true.
Proof.
  intros H. unfold jump_link.
  repeat rewrite no_newline_app.
  rewrite lstrip_char_no_newline, str_of_int_no_newline by assumption.
  reflexivity.
Qed.

Lemma index_line_no_newline (data : Doc) (item : str * Category) :
  no_newline (fst item) = true -> no_newline (channel_name data) = true ->
  no_newline (index_line data item) = true.
Proof.
  intros Hc Hch. unfold index_line, str_of_len.
  repeat rewrite no_newline_app.
  rewrite Hc, str_of_int_no_newline.
  destruct (channel_set data && field_truthy (message_id (snd item))).
  - now rewrite jump_link_no_newline.
  - reflexivity.
Qed.

(** C4. For a document with [N] categories, [format_index] is the header
    followed by [N] lines, the line of each category in the order of the
    mapping.  The line shows the name of the category and the number of its
    links, and ends with the jump hyperlink to the message of the category
    exactly when the channel and the message id of the category are both
    set.  When no name holds a newline these are also the lines of the text,
    after the title and the empty line that the header makes. *)
Theorem format_index_spec (data : Doc) :
  let cats := categorias data in
  format_index data = join NL (INDEX_HEADER :: map (index_line data) cats)
  /\ length (map (index_line data) cats) = length cats
  /\ (forall i cat info,
        nth_error cats i = Some (cat, info) ->
        exists jump,
          nth_error (map (index_line data) cats) i =
            Some (u "• <b>" ++ cat ++ u "</b> ("
                  ++ str_of_len (length (get_links info)) ++ u ")" ++ jump)
          /\ (channel_set data && field_truthy (message_id info) = true ->
              jump = jump_link (channel_name data) (id_of info))
          /\ (channel_set data && field_truthy (message_id info) = false ->
              jump = []))
  /\ (doc_one_line_names data = true ->
      text_lines (format_index data) =
        u "📚 <b>ÍNDICE</b>" :: [] :: map (index_line data) cats).
Proof.
  intros cats. split; [apply format_index_closed|].
  split; [apply length_map|]. split.
  - intros i cat info Hi.
    exists (if channel_set data && field_truthy (message_id info)
            then jump_link (channel_name data) (id_of info) else []).
    split.
    + rewrite nth_error_map, Hi. reflexivity.
    + split; intros ->; reflexivity.
  - intros H. unfold doc_one_line_names in H.
    apply andb_true_iff in H as [Hk Hch].
    rewrite format_index_closed. fold cats.
    replace (join NL (INDEX_HEADER :: map (index_line data) cats))
      with (join NL (u "📚 <b>ÍNDICE</b>" :: [] :: map (index_line data) cats)).
    + apply text_lines_header; [reflexivity|].
      rewrite forallb_forall in *. intros x Hx.
      apply in_map_iff in Hx as [item [<- Hitem]].
      apply index_line_no_newline; [|assumption].
      apply Hk. unfold keys. now apply in_map.
    + unfold INDEX_HEADER.
      destruct (map (index_line data) cats) as [|l ls]; reflexivity.
Qed.

(** [format_index_spec] on a document with two categories, one of them with
    a message in the channel. *)
Lemma format_index_spec_witness :
  text_lines
    (format_index
       (mkDoc (Some (u "@mi_canal")) (Some 5%Z)
          [(u "Diseño", mkCategory (Value 7%Z) None);
           (u "Videos", mkCategory Null (Some []))]))
  = [u "📚 <b>ÍNDICE</b>"; [];
     u "• <b>Diseño</b> (0) — <a href=" ++ DQ ++ u "https://t.me/mi_canal/7"
       ++ DQ ++ u ">ir</a>";
     u "• <b>Videos</b> (0)"].
Proof.
  apply (format_index_spec
           (mkDoc (Some (u "@mi_canal")) (Some 5%Z)
              [(u "Diseño", mkCategory (Value 7%Z) None);
               (u "Videos", mkCategory Null (Some []))])).
  reflexivity.
Defined.

Lemma join_cons (sep x y : str) (ys : list str) :
  join sep (x :: y :: ys) = x ++ sep ++ join sep (y :: ys).
Proof. reflexivity. Qed.

Lemma join_one (sep x : str) : join sep [x] = x.
Proof. reflexivity. Qed.

Lemma join_title (title : str) (body : list str) :
  body <> [] ->
  join NL (title :: [] :: body) = (title ++ NL ++ NL) ++ join NL body.
Proof.
  destruct body as [|b body]; [congruence|]. intros _.
  rewrite !join_cons. cbn [app]. now rewrite <- !app_assoc.
Qed.

Lemma numbered_lines_cons (x : LinkEntry) (ls : list LinkEntry) :
  numbered_lines (x :: ls) <> [].
Proof. discriminate. Qed.

Lemma fold_category_step (ls : list LinkEntry) (i : nat) (acc : list str) :
  fold_left category_step ls (i, acc) =
    ((i + length ls)%nat,
     acc ++ map (fun p => link_line (fst p) (snd p))
                (combine (seq i (length ls)) ls)).
Proof.
  revert i acc. induction ls as [|item ls IH]; intros i acc; simpl.
  - now rewrite app_nil_r, Nat.add_0_r.
  - rewrite IH, <- app_assoc. f_equal. lia.
Qed.

Lemma format_category_message_closed (upper : str -> str) (cat : str)
      (ls : list LinkEntry) :
  format_category_message upper cat ls =
    category_header upper cat (length ls)
    ++ match ls with
       | [] => ADD_HINT
       | _ :: _ => join NL (numbered_lines ls)
       end.
Proof.
  unfold format_category_message, numbered_lines.
  destruct ls as [|item ls]; [reflexivity|].
  now rewrite fold_category_step.
Qed.

Lemma numbered_from_nth (ls : list LinkEntry) (k i : nat) (item : LinkEntry) :
  nth_error ls i = Some item ->
  nth_error (map (fun p => link_line (fst p) (snd p))
                 (combine (seq k (length ls)) ls)) i
  = Some (link_line (k + i) item).
Proof.
  revert i k. induction ls as [|x ls IH]; intros i k H.
  - destruct i; discriminate.
  - destruct i as [|i]; simpl in *.
    + injection H as ->. now rewrite Nat.add_0_r.
    + rewrite (IH i (S k) H). do 2 f_equal. lia.
Qed.

Lemma numbered_lines_nth (ls : list LinkEntry) (i : nat) (item : LinkEntry) :
  nth_error ls i = Some item ->
  nth_error (numbered_lines ls) i = Some (link_line (S i) item).
Proof. apply numbered_from_nth. Qed.

Lemma link_line_no_newline (i : nat) (item : LinkEntry) :
  link_one_line item = true -> no_newline (link_line i item) = true.
Proof.
  unfold link_one_line, link_line, str_of_len. intros H.
  apply andb_true_iff in H as [Ht Hu].
  repeat rewrite no_newline_app. rewrite str_of_int_no_newline, Hu.
  destruct (truthy (texto item)); [rewrite Ht | rewrite Hu]; reflexivity.
Qed.

Lemma numbered_lines_no_newline (ls : list LinkEntry) :
  forallb link_one_line ls = true ->
  forallb no_newline (numbered_lines ls) = true.
Proof.
  unfold numbered_lines. generalize 1%nat as k.
  induction ls as [|x ls IH]; intros k H; simpl in *; [reflexivity|].
  apply andb_true_iff in H as [Hx Hls].
  rewrite link_line_no_newline by assumption. now apply IH.
Qed.

(** C5. On an empty list [format_category_message] is the header followed by
    the hint, which mentions [/add].  On [M >= 1] links it is the header
    followed by [M] lines joined by newlines; line [i] (from 1) belongs to the
    [i]-th link in stored order, starts with its number and is a hyperlink to
    the url whose text is [texto], or the url when [texto] is empty.  When no
    name, title or url holds a newline these are also the lines of the text,
    after the title line and the empty line of the header. *)
Theorem format_category_message_spec (upper : str -> str) (cat : str)
        (ls : list LinkEntry) :
  format_category_message upper cat [] = category_header upper cat 0 ++ ADD_HINT
  /\ contains ADD_HINT (u "/add") = true
  /\ format_category_message upper cat ls =
       category_header upper cat (length ls)
       ++ match ls with
          | [] => ADD_HINT
          | _ :: _ => join NL (numbered_lines ls)
          end
  /\ length (numbered_lines ls) = length ls
  /\ (forall i item,
        nth_error ls i = Some item ->
        nth_error (numbered_lines ls) i =
          Some (str_of_len (S i) ++ u ". <a href=" ++ DQ ++ url item ++ DQ
                ++ u ">"
                ++ (if truthy (texto item) then texto item else url item)
                ++ u "</a>"))
  /\ (no_newline (upper cat) = true -> forallb link_one_line ls = true ->
      text_lines (format_category_message upper cat ls) =
        (u "📎 <b>" ++ upper cat ++ u "</b> (" ++ str_of_len (length ls)
         ++ u " enlaces)")
        :: [] :: match ls with
                 | [] => [ADD_HINT]
                 | _ :: _ => numbered_lines ls
                 end).
Proof.
  split; [reflexivity|]. split; [reflexivity|].
  split; [apply format_category_message_closed|]. split.
  { unfold numbered_lines. rewrite length_map, length_combine, length_seq.
    apply Nat.min_id. }
  split; [apply numbered_lines_nth|].
  intros Hcat Hls. rewrite format_category_message_closed.
  set (title := u "📎 <b>" ++ upper cat ++ u "</b> (" ++ str_of_len (length ls)
                ++ u " enlaces)").
  assert (Ht : no_newline title = true).
  { unfold title, str_of_len. repeat rewrite no_newline_app.
    now rewrite Hcat, str_of_int_no_newline. }
  assert (Eh : category_header upper cat (length ls) = title ++ NL ++ NL).
  { unfold category_header, title. now rewrite <- !app_assoc. }
  rewrite Eh. destruct ls as [|x ls'].
  - assert (E : (title ++ NL ++ NL) ++ ADD_HINT =
                join NL (title :: [] :: [ADD_HINT])).
    { rewrite join_title by discriminate. now rewrite join_one. }
    rewrite E. apply text_lines_header; [assumption | reflexivity].
  - rewrite <- join_title by apply numbered_lines_cons.
    apply text_lines_header; [assumption|].
    now apply numbered_lines_no_newline.
Qed.

(** [format_category_message_spec] on two links, the second without title. *)
Lemma format_category_message_spec_witness :
  text_lines
    (format_category_message (fun s => s) (u "VIDEOS")
       [mkLink (u "Un vídeo") (u "https://example.com/v") (u "ana");
        mkLink [] (u "https://example.com/w") (u "ana")])
  = [u "📎 <b>VIDEOS</b> (2 enlaces)"; [];
     u "1. <a href=" ++ DQ ++ u "https://example.com/v" ++ DQ
       ++ u ">Un vídeo</a>";
     u "2. <a href=" ++ DQ ++ u "https://example.com/w" ++ DQ
       ++ u ">https://example.com/w</a>"].
Proof.
  destruct (format_category_message_spec (fun s => s) (u "VIDEOS")
              [mkLink (u "Un vídeo") (u "https://example.com/v") (u "ana");
               mkLink [] (u "https://example.com/w") (u "ana")])
    as (_ & _ & _ & _ & _ & H).
  rewrite H by (vm_compute; reflexivity).
  vm_compute. reflexivity.
Defined.

(* ================================================================== *)
(** * Properties of the handlers *)
(* ================================================================== *)

Lemma startswith_app (c b : str) : startswith (c ++ b) c = true.
Proof.
  induction c as [|x c IH]; simpl; [reflexivity|].
  now rewrite N.eqb_refl.
Qed.

Lemma contains_app (a c b : str) : contains (a ++ c ++ b) c = true.
Proof.
  induction a as [|x a IH].
  - simpl app. destruct (c ++ b) eqn:E; simpl; rewrite <- E;
      now rewrite startswith_app.
  - simpl. rewrite IH. apply orb_true_r.
Qed.

Lemma dict_get_set_same {V} (k : str) (v : V) (d : dict V) :
  dict_get k (dict_set k v d) = Some v.
Proof.
  induction d as [|[k' v'] d IH]; simpl.
  - now rewrite str_eqb_refl.
  - destruct (str_eqb k' k) eqn:E; simpl; now rewrite E.
Qed.

Lemma dict_get_set_other {V} (k k' : str) (v : V) (d : dict V) :
  k <> k' -> dict_get k' (dict_set k v d) = dict_get k' d.
Proof.
  intros Hne. induction d as [|[k0 v0] d IH]; simpl.
  - destruct (str_eqb k k') eqn:E; [|reflexivity].
    apply str_eqb_eq in E. contradiction.
  - destruct (str_eqb k0 k) eqn:E; simpl.
    + apply str_eqb_eq in E. subst k0.
      destruct (str_eqb k k') eqn:E'; [|reflexivity].
      apply str_eqb_eq in E'. contradiction.
    + now rewrite IH.
Qed.

Lemma keys_dict_set {V} (k : str) (v : V) (d : dict V) :
  In k (keys d) -> keys (dict_set k v d) = keys d.
Proof.
  induction d as [|[k' v'] d IH]; simpl; [contradiction|].
  intros [->|H].
  - now rewrite str_eqb_refl.
  - destruct (str_eqb k' k); simpl; [reflexivity|]. now rewrite IH.
Qed.

Lemma dict_get_in_keys {V} (k : str) (v : V) (d : dict V) :
  dict_get k d = Some v -> In k (keys d).
Proof.
  induction d as [|[k' v'] d IH]; simpl; [discriminate|].
  destruct (str_eqb k' k) eqn:E.
  - apply str_eqb_eq in E. now left.
  - intros H. right. now apply IH.
Qed.

(** Both parts of a successful parse are tokens, so they are not empty. *)
Lemma parse_some (text : str) (c tok : str) (t : option str) :
  parse_add_args text = (Some c, t, Some tok) -> truthy c = true /\ truthy tok = true.
Proof.
  intros H.
  assert (Htoks : Forall (fun x : str => x <> [] /\ forallb nonspace x = true)
                         (add_tokens text)).
  { rewrite add_tokens_split. pose proof (split_tokens text) as F.
    unfold without_command. destruct (split text) as [|t0 r]; [constructor|].
    destruct (startswith t0 (u "/add")); [now inversion F | assumption]. }
  destruct (last_url_split (add_tokens text))
    as [Hall|[pre [tk [post [E [Ht Hp]]]]]].
  - rewrite parse_tokens_none in H by now right. discriminate.
  - rewrite (@parse_tokens_found text pre post tk E Ht Hp) in H.
    injection H as Hc _ Htk. subst tok c.
    rewrite E in Htoks. rewrite Forall_forall in Htoks.
    assert (H1 : tk <> []) by (apply Htoks, in_elt).
    assert (H2 : hd tk pre <> []).
    { destruct pre as [|p pre]; [exact H1|]. apply Htoks. now left. }
    split; [now destruct (hd tk pre) | now destruct tk].
Qed.

Section Runs.

Variable lower : str -> str.
Variable upper : str -> str.
Variable bot : list event -> response.

Lemma try_edit_run (chat : str) (mid : option Z) (text : str) (np : bool)
      (prefix : str) (w : World) :
  try_except (edit_message_text bot chat mid text np)
             (fun e => logger ERROR (prefix ++ str_of_exn e)) w
  = (Returned tt,
     mkWorld (file w) (logged bot prefix (EditMessageText chat mid text np) (trace w))).
Proof.
  unfold try_except, edit_message_text, bind, request, logged, logger, emit, ret.
  destruct (bot (trace w ++ [EditMessageText chat mid text np])); simpl.
  - reflexivity.
  - now rewrite <- app_assoc.
Qed.

(** [/add] up to the save, when the category is found. *)
Lemma add_command_saved (user : User) (raw : str) (w : World) (data : Doc)
      (category tok cat_key : str) (title : option str) (rest : list str)
      (info : Category) :
  parse_add_args raw = (Some category, title, Some tok) ->
  file w = Some data ->
  matches lower data category = cat_key :: rest ->
  dict_get cat_key (categorias data) = Some info ->
  let data' := with_link data cat_key info (new_entry user title tok) in
  add_command lower upper bot user raw w =
    bind (match channel_username data' with
          | Some channel =>
              if truthy channel
              then push_category_and_index upper bot data' channel cat_key
              else ret tt
          | None => ret tt
          end)
         (fun _ => reply_text (added_text cat_key) true)
         (mkWorld (Some data') (trace w ++ [SaveData data'])).
Proof.
  intros Hp Hf Hm Hg data'.
  destruct (parse_some _ Hp) as [Hc Ht].
  unfold add_command. rewrite Hp, Hc, Ht. cbn [negb orb]. cbv iota.
  unfold bind at 1. unfold load_data at 1. cbv beta. rewrite Hf.
  cbv iota beta. rewrite Hm.
  unfold bind at 1. unfold get_category at 1. rewrite Hg.
  reflexivity.
Qed.

(** [/add] when no key matches: one reply, nothing else. *)
Lemma add_command_not_found (user : User) (raw : str) (w : World) (data : Doc)
      (category tok : str) (title : option str) :
  parse_add_args raw = (Some category, title, Some tok) ->
  file w = Some data ->
  matches lower data category = [] ->
  add_command lower upper bot user raw w =
    (Returned tt,
     mkWorld (file w) (trace w ++ [ReplyText (not_found_text category) false])).
Proof.
  intros Hp Hf Hm.
  destruct (parse_some _ Hp) as [Hc Ht].
  unfold add_command. rewrite Hp, Hc, Ht. cbn [negb orb]. cbv iota.
  unfold bind at 1. unfold load_data at 1. cbv beta. rewrite Hf.
  cbv iota beta. rewrite Hm. unfold reply_text, emit. now rewrite Hf.
Qed.

Lemma logged_extends (prefix : str) (e : event) (tr : list event) :
  exists more, logged bot prefix e tr = tr ++ more.
Proof. unfold logged. now eexists. Qed.

Lemma pushed_extends (data : Doc) (chat cat_key : str) (info : Category)
      (ls : list LinkEntry) (tr : list event) :
  exists more, pushed upper bot data chat cat_key info ls tr = tr ++ more.
Proof.
  unfold pushed.
  destruct (logged_extends (u "Failed to edit category message: ")
              (EditMessageText chat (field_get (message_id info))
                 (format_category_message upper cat_key ls) false) tr)
    as [m1 E1].
  rewrite E1. destruct (opt_int_truthy (indice_message_id data)).
  - destruct (logged_extends (u "Failed to edit index message: ")
                (EditMessageText chat (indice_message_id data)
                   (format_index data) true) (tr ++ m1)) as [m2 E2].
    rewrite E2. exists (m1 ++ m2). now rewrite app_assoc.
  - now exists m1.
Qed.

Lemma push_run (data : Doc) (chat cat_key : str) (info : Category)
      (ls : list LinkEntry) (w : World) :
  dict_get cat_key (categorias data) = Some info ->
  links info = Some ls ->
  push_category_and_index upper bot data chat cat_key w =
    match message_id info with
    | Missing => (Raised (KeyError (u "message_id")), w)
    | _ => (Returned tt,
            mkWorld (file w) (pushed upper bot data chat cat_key info ls (trace w)))
    end.
Proof.
  intros Hg Hl. unfold push_category_and_index, pushed.
  unfold bind at 1. unfold get_category at 1. rewrite Hg.
  unfold ret at 1. cbv beta iota.
  unfold bind at 1. unfold index_message_id.
  destruct (message_id info) as [| |z];
    [unfold raise; cbv beta iota; reflexivity | |];
    (unfold ret at 1; cbv beta iota;
     unfold bind at 1; unfold get_category at 1; rewrite Hg;
     unfold ret at 1; cbv beta iota;
     unfold bind at 1; unfold index_links; rewrite Hl;
     unfold ret at 1; cbv beta iota;
     unfold bind at 1; rewrite try_edit_run; cbv beta iota;
     destruct (opt_int_truthy (indice_message_id data));
     [rewrite try_edit_run | unfold ret];
     cbn [file trace field_get]; reflexivity).
Qed.

Lemma add_command_found (user : User) (raw : str) (w : World) (data : Doc)
      (category tok cat_key channel : str) (title : option str)
      (rest : list str) (info : Category) :
  parse_add_args raw = (Some category, title, Some tok) ->
  file w = Some data ->
  matches lower data category = cat_key :: rest ->
  dict_get cat_key (categorias data) = Some info ->
  channel_username data = Some channel -> truthy channel = true ->
  let entry := new_entry user title tok in
  let data' := with_link data cat_key info entry in
  let saved := trace w ++ [SaveData data'] in
  add_command lower upper bot user raw w =
    match message_id info with
    | Missing => (Raised (KeyError (u "message_id")), mkWorld (Some data') saved)
    | _ =>
        (Returned tt,
         mkWorld (Some data')
           (pushed upper bot data' channel cat_key info (get_links info ++ [entry]) saved
            ++ [ReplyText (added_text cat_key) true]))
    end.
Proof.
  intros Hp Hf Hm Hg Hch Htr entry data' saved.
  rewrite (add_command_saved user _ w Hp Hf Hm Hg).
  fold entry. fold data'. fold saved.
  change (channel_username data') with (channel_username data).
  rewrite Hch, Htr. unfold bind.
  rewrite (@push_run data' channel cat_key (append_link info entry)
             (get_links info ++ [entry])).
  - change (message_id (append_link info entry)) with (message_id info).
    destruct (message_id info); reflexivity.
  - apply dict_get_set_same.
  - reflexivity.
Qed.

Lemma field_missing_dec {A} (f : field A) : {f = Missing} + {f <> Missing}.
Proof. destruct f; [now left | right; discriminate ..]. Qed.

Lemma add_command_found_cases (user : User) (raw : str) (w : World)
      (data : Doc) (category tok cat_key channel : str) (title : option str)
      (rest : list str) (info : Category) :
  parse_add_args raw = (Some category, title, Some tok) ->
  file w = Some data ->
  matches lower data category = cat_key :: rest ->
  dict_get cat_key (categorias data) = Some info ->
  channel_username data = Some channel -> truthy channel = true ->
  let entry := new_entry user title tok in
  let data' := with_link data cat_key info entry in
  let saved := trace w ++ [SaveData data'] in
  (message_id info = Missing ->
   add_command lower upper bot user raw w =
     (Raised (KeyError (u "message_id")), mkWorld (Some data') saved))
  /\ (message_id info <> Missing ->
      add_command lower upper bot user raw w =
        (Returned tt,
         mkWorld (Some data')
           (pushed upper bot data' channel cat_key info
              (get_links info ++ [entry]) saved
            ++ [ReplyText (added_text cat_key) true]))).
Proof.
  intros Hp Hf Hm Hg Hch Htr entry data' saved.
  pose proof (add_command_found user _ w Hp Hf Hm Hg Hch Htr) as Hrun.
  cbv zeta in Hrun. fold entry in Hrun. fold data' in Hrun.
  fold saved in Hrun. rewrite Hrun.
  destruct (message_id info); split; intros H; congruence.
Qed.

(** Two requests made one after the other, each under its own [try]: a
    request that the channel refuses is followed by its own error line. *)
Lemma two_attempts (tr : list event) (e1 e2 reply : event) (p1 p2 : str)
      (two : bool) (pre post : list event) (e : event) (err : str) :
  is_edit e1 = true -> is_edit e2 = true -> is_edit reply = false ->
  let l1 := match bot (tr ++ [e1]) with
            | Failed err1 => [Log ERROR (p1 ++ err1)]
            | Done _ => []
            end in
  let l2 := match bot ((tr ++ [e1] ++ l1) ++ [e2]) with
            | Failed err2 => [Log ERROR (p2 ++ err2)]
            | Done _ => []
            end in
  [e1] ++ l1 ++ (if two then [e2] ++ l2 else []) ++ [reply] = pre ++ e :: post ->
  is_edit e = true ->
  bot (tr ++ pre ++ [e]) = Failed err ->
  exists what post',
    post = Log ERROR (what ++ err) :: post' /\ (what = p1 \/ what = p2).
Proof.
  intros H1 H2 Hr l1 l2 E He Hb. subst l1 l2.
  destruct (bot (tr ++ [e1])) as [m1|err1] eqn:B1; destruct two;
    cbn [app] in *;
    try (destruct (bot ((tr ++ _) ++ [e2])) as [m2|err2] eqn:B2);
    rewrite <- ?app_assoc in *; cbn [app] in *; find_edit E; subst;
    try (simpl in He; congruence);
    cbn [app] in Hb; rewrite ?B1, ?B2 in Hb; try discriminate Hb;
    injection Hb as ->; eexists; eexists; (split; [reflexivity | auto]).
Qed.

Lemma pushed_later (data : Doc) (chat cat_key : str) (info : Category)
      (ls : list LinkEntry) (tr : list event) (reply : event) :
  let e1 := EditMessageText chat (field_get (message_id info))
              (format_category_message upper cat_key ls) false in
  let e2 := EditMessageText chat (indice_message_id data) (format_index data)
              true in
  let l1 := match bot (tr ++ [e1]) with
            | Failed err1 =>
                [Log ERROR (u "Failed to edit category message: " ++ err1)]
            | Done _ => []
            end in
  let l2 := match bot ((tr ++ [e1] ++ l1) ++ [e2]) with
            | Failed err2 =>
                [Log ERROR (u "Failed to edit index message: " ++ err2)]
            | Done _ => []
            end in
  pushed upper bot data chat cat_key info ls tr ++ [reply]
  = tr ++ ([e1] ++ l1
           ++ (if opt_int_truthy (indice_message_id data)
               then [e2] ++ l2 else [])
           ++ [reply]).
Proof.
  intros e1 e2 l1 l2. unfold pushed, logged. fold e1. fold l1. fold e2.
  fold l2. destruct (opt_int_truthy (indice_message_id data));
    now rewrite <- !app_assoc.
Qed.

(** C3. When [/add] appends a link and the channel is set, the first thing
    the command does is to save the document with the link appended, and the
    file holds that document when the command ends, whatever the channel
    answers.  Whenever the command then attempts an edit, it runs to the end
    and its last act is the success reply; and when the channel refuses the
    edit, the next event is the error line of that edit, after which the
    command goes on.  When the record of the category has a ["message_id"]
    entry the events are, in this order: the save, the edit of the category
    message with its error line if refused, the edit of the index message
    (when the index has a message) with its error line if refused, and the
    reply. *)
Theorem add_command_edit_failures (user : User) (raw : str) (w : World)
        (data : Doc) (category tok cat_key channel : str) (title : option str)
        (rest : list str) (info : Category) :
  parse_add_args raw = (Some category, title, Some tok) ->
  file w = Some data ->
  matches lower data category = cat_key :: rest ->
  dict_get cat_key (categorias data) = Some info ->
  channel_username data = Some channel -> truthy channel = true ->
  let entry := new_entry user title tok in
  let data' := with_link data cat_key info entry in
  let saved := trace w ++ [SaveData data'] in
  let reply := ReplyText (u "Enlace agregado a <b>" ++ cat_key ++ u "</b> ✅")
                         true in
  let cat_edit :=
    EditMessageText channel (field_get (message_id info))
      (format_category_message upper cat_key (get_links info ++ [entry]))
      false in
  let idx_edit :=
    EditMessageText channel (indice_message_id data) (format_index data')
      true in
  let cat_log :=
    match bot (saved ++ [cat_edit]) with
    | Failed err => [Log ERROR (u "Failed to edit category message: " ++ err)]
    | Done _ => []
    end in
  let idx_log :=
    match bot ((saved ++ [cat_edit] ++ cat_log) ++ [idx_edit]) with
    | Failed err => [Log ERROR (u "Failed to edit index message: " ++ err)]
    | Done _ => []
    end in
  exists out later,
    add_command lower upper bot user raw w =
      (out, mkWorld (Some data') (saved ++ later))
    /\ (forall pre e post,
          later = pre ++ e :: post -> is_edit e = true ->
          out = Returned tt
          /\ (exists before, later = before ++ [reply])
          /\ forall err,
               bot (saved ++ pre ++ [e]) = Failed err ->
               exists what post',
                 post = Log ERROR (what ++ err) :: post'
                 /\ (what = u "Failed to edit category message: "
                     \/ what = u "Failed to edit index message: "))
    /\ (message_id info <> Missing ->
        out = Returned tt
        /\ later = [cat_edit] ++ cat_log
                   ++ (if opt_int_truthy (indice_message_id data)
                       then [idx_edit] ++ idx_log else [])
                   ++ [reply]).
Proof.
  intros Hp Hf Hm Hg Hch Htr entry data' saved reply cat_edit idx_edit cat_log
         idx_log.
  destruct (add_command_found_cases user _ w Hp Hf Hm Hg Hch Htr)
    as [Hmissing Hpresent].
  destruct (field_missing_dec (message_id info)) as [Hmid | Hmid].
  - exists (Raised (KeyError (u "message_id"))), []. split; [|split].
    + rewrite app_nil_r. exact (Hmissing Hmid).
    + intros pre e post E. destruct pre; discriminate E.
    + intros Hne. contradiction.
  - exists (Returned tt),
           ([cat_edit] ++ cat_log
            ++ (if opt_int_truthy (indice_message_id data)
                then [idx_edit] ++ idx_log else [])
            ++ [reply]).
    split; [|split].
    + rewrite (Hpresent Hmid).
      exact (f_equal (fun tr => (Returned tt, mkWorld (Some data') tr))
               (pushed_later data' channel cat_key info
                  (get_links info ++ [entry]) saved reply)).
    + intros pre e post E He. split; [reflexivity|]. split.
      * exists ([cat_edit] ++ cat_log
                ++ (if opt_int_truthy (indice_message_id data)
                    then [idx_edit] ++ idx_log else [])).
        now rewrite <- !app_assoc.
      * intros err Hb.
        exact (@two_attempts saved cat_edit idx_edit reply
                 (u "Failed to edit category message: ")
                 (u "Failed to edit index message: ")
                 (opt_int_truthy (indice_message_id data)) pre post e err
                 eq_refl eq_refl eq_refl E He Hb).
    + intros _. split; reflexivity.
Qed.

Lemma filter_first {A} (f : A -> bool) (l : list A) (k : A) (rest : list A) :
  filter f l = k :: rest ->
  exists pre post,
    l = pre ++ k :: post /\ f k = true /\ Forall (fun x => f x = false) pre
    /\ rest = filter f post.
Proof.
  induction l as [|x l IH]; simpl; [discriminate|].
  destruct (f x) eqn:E.
  - intros H. injection H as -> <-. exists [], l. now repeat split.
  - intros H. destruct (IH H) as [pre [post [-> [Hk [Hpre Hrest]]]]].
    exists (x :: pre), post. repeat split; try assumption.
    now constructor.
Qed.

Lemma filter_skip {A} (f : A -> bool) (pre post : list A) (k : A) :
  Forall (fun x => f x = false) pre -> f k = true ->
  filter f (pre ++ k :: post) = k :: filter f post.
Proof.
  intros Hpre Hk. induction Hpre as [|x pre Hx _ IH]; simpl.
  - now rewrite Hk.
  - now rewrite Hx.
Qed.

Lemma matches_none (data : Doc) (category : str) :
  Forall (fun k => lower k <> lower category) (keys (categorias data)) ->
  matches lower data category = [].
Proof.
  unfold matches. induction (keys (categorias data)) as [|k ks IH]; intros H.
  - reflexivity.
  - inversion H as [|? ? Hk Hks]; subst. simpl.
    apply str_eqb_neq in Hk. rewrite Hk. now apply IH.
Qed.

(** [/add] when the category is found: the save comes first and the file
    keeps the new document to the end. *)
Lemma add_command_stored (user : User) (raw : str) (w : World) (data : Doc)
      (category tok cat_key : str) (title : option str) (rest : list str)
      (info : Category) :
  parse_add_args raw = (Some category, title, Some tok) ->
  file w = Some data ->
  matches lower data category = cat_key :: rest ->
  dict_get cat_key (categorias data) = Some info ->
  let data' := with_link data cat_key info (new_entry user title tok) in
  exists out later,
    add_command lower upper bot user raw w =
      (out, mkWorld (Some data') (trace w ++ SaveData data' :: later))
    /\ (out = Returned tt ->
        exists before, later = before ++ [ReplyText (added_text cat_key) true]).
Proof.
  intros Hp Hf Hm Hg data'.
  destruct (channel_username data) as [channel|] eqn:Hch.
  - destruct (truthy channel) eqn:Htr.
    + pose proof (add_command_found user _ w Hp Hf Hm Hg Hch Htr) as Hrun.
      cbv zeta in Hrun. fold data' in Hrun. rewrite Hrun.
      destruct (pushed_extends data' channel cat_key info
                  (get_links info ++ [new_entry user title tok])
                  (trace w ++ [SaveData data'])) as [more ->].
      destruct (message_id info).
      * exists (Raised (KeyError (u "message_id"))), [].
        split; [reflexivity | discriminate].
      * exists (Returned tt), (more ++ [ReplyText (added_text cat_key) true]).
        split; [now rewrite <- !app_assoc | intros _; now exists more].
      * exists (Returned tt), (more ++ [ReplyText (added_text cat_key) true]).
        split; [now rewrite <- !app_assoc | intros _; now exists more].
    + rewrite (add_command_saved user _ w Hp Hf Hm Hg). fold data'.
      change (channel_username data') with (channel_username data).
      rewrite Hch, Htr.
      exists (Returned tt), [ReplyText (added_text cat_key) true]. split.
      * unfold bind, ret, reply_text, emit. simpl. now rewrite <- app_assoc.
      * intros _. now exists [].
  - rewrite (add_command_saved user _ w Hp Hf Hm Hg). fold data'.
    change (channel_username data') with (channel_username data).
    rewrite Hch.
    exists (Returned tt), [ReplyText (added_text cat_key) true]. split.
    + unfold bind, ret, reply_text, emit. simpl. now rewrite <- app_assoc.
    + intros _. now exists [].
Qed.

(** C7. When [/add] parses and no stored key equals the category once both
    are lower-cased, the command only replies, with a text that names the
    category as the user wrote it: nothing is saved and the file is
    unchanged. *)
Theorem add_command_unknown_category (user : User) (raw : str) (w : World)
        (data : Doc) (category tok : str) (title : option str) :
  parse_add_args raw = (Some category, title, Some tok) ->
  file w = Some data ->
  Forall (fun k => lower k <> lower category) (keys (categorias data)) ->
  add_command lower upper bot user raw w =
    (Returned tt,
     mkWorld (Some data)
       (trace w
        ++ [ReplyText
              (u "Categoría '" ++ category
               ++ u "' no encontrada. Usa /list para ver categorías disponibles.")
              false]))
  /\ contains (not_found_text category) category = true.
Proof.
  intros Hp Hf Hk. split.
  - rewrite (add_command_not_found user _ w Hp Hf (matches_none _ Hk)).
    now rewrite Hf.
  - apply contains_app.
Qed.

(** C10. With the channel set, [/add] reads [message_id] of the category by
    indexing, outside of any [try]: on a record without that key the command
    raises [KeyError] once the document with the new link is saved, and
    neither an edit nor the reply happens. *)
Theorem add_command_missing_message_id (user : User) (raw : str) (w : World)
        (data : Doc) (category tok cat_key channel : str)
        (title : option str) (rest : list str) (info : Category) :
  parse_add_args raw = (Some category, title, Some tok) ->
  file w = Some data ->
  matches lower data category = cat_key :: rest ->
  dict_get cat_key (categorias data) = Some info ->
  channel_username data = Some channel -> truthy channel = true ->
  message_id info = Missing ->
  let data' := with_link data cat_key info (new_entry user title tok) in
  add_command lower upper bot user raw w =
    (Raised (KeyError (u "message_id")),
     mkWorld (Some data') (trace w ++ [SaveData data'])).
Proof.
  intros Hp Hf Hm Hg Hch Htr Hmid data'.
  pose proof (add_command_found user _ w Hp Hf Hm Hg Hch Htr) as Hrun.
  cbv zeta in Hrun. now rewrite Hmid in Hrun.
Qed.

Lemma split_command_token (tok : str) :
  tok <> [] -> forallb nonspace tok = true ->
  split (u "/add " ++ tok) = [u "/add"; tok].
Proof.
  intros Hne Hns.
  change (u "/add " ++ tok) with (u "/add" ++ 32%N :: tok).
  rewrite split_token; [|discriminate|reflexivity|reflexivity].
  rewrite split_space by reflexivity.
  rewrite <- (app_nil_r tok) at 1.
  now rewrite split_token.
Qed.

(** C9. When the only token after the command is a URL, [parse_add_args]
    does not fail: the token is both the category and the url and the title
    is empty.  [/add] then looks for a category with the name of the URL: it
    answers that this category is not found when no key matches, and stores
    the link under the key that matches otherwise.  ["/add "] followed by a
    URL is such an input. *)
Theorem add_command_url_alone (user : User) (raw : str) (w : World)
        (data : Doc) (tok : str) :
  add_tokens raw = [tok] -> url_pattern_match tok = true ->
  file w = Some data ->
  parse_add_args raw = (Some tok, Some [], Some tok)
  /\ parse_add_args (u "/add https://example.com/x")
     = (Some (u "https://example.com/x"), Some [],
        Some (u "https://example.com/x"))
  /\ (forall t, forallb nonspace t = true -> url_pattern_match t = true ->
                add_tokens (u "/add " ++ t) = [t])
  /\ (Forall (fun k => lower k <> lower tok) (keys (categorias data)) ->
      add_command lower upper bot user raw w =
        (Returned tt,
         mkWorld (Some data)
           (trace w
            ++ [ReplyText
                  (u "Categoría '" ++ tok
                   ++ u "' no encontrada. Usa /list para ver categorías disponibles.")
                  false])))
  /\ (forall cat_key rest info,
        matches lower data tok = cat_key :: rest ->
        dict_get cat_key (categorias data) = Some info ->
        let entry := mkLink tok tok (or_else (username user) (full_name user)) in
        let data' := with_link data cat_key info entry in
        exists out later,
          add_command lower upper bot user raw w =
            (out, mkWorld (Some data') (trace w ++ SaveData data' :: later))).
Proof.
  intros Htoks Hm Hf.
  assert (Hp : parse_add_args raw = (Some tok, Some [], Some tok)).
  { apply (@parse_tokens_found raw [] [] tok); [assumption ..|reflexivity]. }
  split; [exact Hp|]. split; [reflexivity|]. split; [|split].
  - intros t Hns Ht.
    assert (Hne : t <> []) by (intros ->; discriminate Ht).
    rewrite add_tokens_split, split_command_token by assumption.
    reflexivity.
  - intros Hk.
    rewrite (add_command_not_found user _ w Hp Hf (matches_none _ Hk)).
    now rewrite Hf.
  - intros cat_key rest info Hmt Hg entry data'.
    destruct (add_command_stored user _ w Hp Hf Hmt Hg) as [out [later [E _]]].
    exists out, later. rewrite E. unfold data', entry, new_entry.
    assert (Ht : truthy tok = true) by (destruct tok; [discriminate Hm | reflexivity]).
    unfold or_else at 1. simpl truthy. reflexivity.
Qed.

(** C6, as the code has it.  The lookup of [/add] compares lower-cased names:
    two names with the same lower-case form find the same keys, and the key
    taken is the first one, in the order of the mapping, whose lower-case form
    is that of the name.  The key is shown as stored in the line of the index
    and in the reply that confirms [/add]; the header of the category message
    shows it in upper case. *)
Theorem category_lookup_and_display :
  (forall data c1 c2,
     lower c1 = lower c2 -> matches lower data c1 = matches lower data c2)
  /\ (forall data c k rest,
        matches lower data c = k :: rest ->
        exists pre post,
          keys (categorias data) = pre ++ k :: post
          /\ lower k = lower c
          /\ Forall (fun x => lower x <> lower c) pre)
  /\ (forall data c k pre post,
        keys (categorias data) = pre ++ k :: post ->
        lower k = lower c ->
        Forall (fun x => lower x <> lower c) pre ->
        exists rest, matches lower data c = k :: rest)
  /\ (forall data,
        format_index data =
          join NL (INDEX_HEADER :: map (index_line data) (categorias data))
        /\ forall cat info,
             exists tail,
               index_line data (cat, info) = u "• <b>" ++ cat ++ u "</b> (" ++ tail)
  /\ (forall cat ls,
        exists tail,
          format_category_message upper cat ls
          = u "📎 <b>" ++ upper cat ++ u "</b> (" ++ tail)
  /\ (forall user raw w data category tok title k rest info,
        parse_add_args raw = (Some category, title, Some tok) ->
        file w = Some data ->
        matches lower data category = k :: rest ->
        dict_get k (categorias data) = Some info ->
        fst (add_command lower upper bot user raw w) = Returned tt ->
        exists before,
          trace (snd (add_command lower upper bot user raw w))
          = before ++ [ReplyText (u "Enlace agregado a <b>" ++ k ++ u "</b> ✅")
                                 true]).
Proof.
  split; [|split; [|split; [|split; [|split]]]].
  - intros data c1 c2 E. unfold matches. now rewrite E.
  - intros data c k rest H. unfold matches in H.
    destruct (filter_first _ _ H) as [pre [post [E [Hk [Hpre _]]]]].
    exists pre, post. split; [exact E|]. split.
    + now apply str_eqb_eq in Hk.
    + eapply Forall_impl; [|exact Hpre]. intros x Hx. now apply str_eqb_neq.
  - intros data c k pre post E Hk Hpre. unfold matches. rewrite E.
    eexists. apply filter_skip.
    + eapply Forall_impl; [|exact Hpre]. intros x Hx. now apply str_eqb_neq.
    + now apply str_eqb_eq.
  - intros data. split; [apply format_index_closed|].
    intros cat info. unfold index_line. simpl fst. eexists. reflexivity.
  - intros cat ls. rewrite format_category_message_closed.
    unfold category_header. rewrite <- !app_assoc. eexists. reflexivity.
  - intros user raw w data category tok title k rest info Hp Hf Hm Hg Hret.
    destruct (add_command_stored user _ w Hp Hf Hm Hg)
      as [out [later [E Hlast]]].
    rewrite E in *. simpl in Hret. destruct (Hlast Hret) as [before ->].
    exists (trace w
            ++ SaveData (with_link data k info (new_entry user title tok))
               :: before).
    simpl. now rewrite <- app_assoc.
Qed.

End Runs.

Section Startup.

Variable upper : str -> str.
Variable bot : list event -> response.

Lemma ensure_unset (w : World) (data : Doc) :
  file w = Some data -> channel_set data = false ->
  ensure_channel_messages upper bot w =
    (Returned tt,
     mkWorld (Some data)
       (trace w
        ++ [Log WARNING
              (u "channel_username is null in data.json. Skipping auto-initialization.")])).
Proof.
  intros Hf Hch. unfold ensure_channel_messages.
  unfold bind at 1. unfold load_data at 1. rewrite Hf. cbv beta iota.
  unfold channel_set in Hch. unfold logger, emit.
  destruct (channel_username data) as [c|]; [rewrite Hch|];
    cbn [negb]; now rewrite Hf.
Qed.

Lemma ensure_videos (w : World) (channel : str) (idx0 : option Z)
      (mid0 : field Z) (id1 id2 : Z) :
  truthy channel = true -> opt_int_truthy idx0 = false ->
  field_truthy mid0 = false ->
  let data :=
    mkDoc (Some channel) idx0 [(u "Videos", mkCategory mid0 (Some []))] in
  file w = Some data ->
  let send_index := SendMessage channel (format_index data) true in
  let log_index :=
    Log INFO (u "Created index message id=" ++ str_of_int id1) in
  let send_videos :=
    SendMessage channel (format_category_message upper (u "Videos") []) false in
  bot (trace w ++ [send_index]) = Done id1 ->
  bot (trace w ++ [send_index; log_index; send_videos]) = Done id2 ->
  let data' :=
    mkDoc (Some channel) (Some id1)
          [(u "Videos", mkCategory (Value id2) (Some []))] in
  ensure_channel_messages upper bot w =
    (Returned tt,
     mkWorld (Some data')
       (trace w
        ++ [send_index; log_index; send_videos;
            Log INFO (u "Created message for category '" ++ u "Videos"
                      ++ u "' id=" ++ str_of_int id2);
            SaveData data';
            Log INFO (u "data.json updated with new message ids.")])).
Proof.
  intros Hch Hidx Hmid data Hf send_index log_index send_videos Hb1 Hb2 data'.
  unfold ensure_channel_messages.
  unfold bind at 1. unfold load_data at 1. rewrite Hf. cbv beta iota.
  subst data. cbn [channel_username indice_message_id categorias].
  rewrite Hch, Hidx. cbn [negb].
  unfold bind at 1. unfold bind at 1. unfold send_message at 1, request at 1.
  cbv beta zeta. fold send_index. rewrite Hb1. cbv iota beta.
  unfold bind at 1. unfold logger at 1, emit at 1. cbv beta iota.
  unfold ret at 1. cbv beta iota. cbn [file trace fst for_each].
  unfold set_indice. cbn [channel_username indice_message_id categorias].
  cbn [for_each].
  unfold bind at 1. unfold bind at 1. unfold ensure_category at 1.
  cbn [message_id links get_links]. rewrite Hmid. cbn [negb].
  unfold bind at 1. unfold send_message at 1, request at 1.
  cbv beta zeta. cbn [file trace]. fold send_videos. fold log_index.
  rewrite <- !app_assoc. cbn [app]. rewrite Hb2. cbv iota beta.
  unfold bind at 1. unfold set_message_id at 1.
  unfold bind at 1. unfold get_category at 1.
  cbn [categorias dict_get]. rewrite str_eqb_refl.
  unfold ret at 1. cbv beta iota. unfold ret at 1. cbv beta iota.
  unfold set_categorias.
  cbn [categorias dict_set channel_username indice_message_id links].
  rewrite str_eqb_refl.
  unfold bind at 1. unfold logger at 1, emit at 1. cbv beta iota.
  unfold ret at 1. cbv beta iota. unfold ret at 1. cbv beta iota.
  unfold bind at 1. unfold save_data at 1. cbv beta iota.
  unfold logger, emit. cbn [file trace].
  rewrite <- !app_assoc. cbn [app]. reflexivity.
Qed.

(** C2. On a document with the channel set, no index message and the one
    category ["Videos"] with no links and no message, when the channel
    accepts the requests [ensure_channel_messages] sends two messages, the
    index and then the category, and saves the document with the two ids it
    got.  With the channel unset it sends nothing and saves nothing: it logs
    a warning and returns. *)
Theorem ensure_channel_messages_spec :
  (forall (w : World) (channel : str) (idx0 : option Z) (mid0 : field Z)
          (id1 id2 : Z),
     truthy channel = true -> opt_int_truthy idx0 = false ->
     field_truthy mid0 = false ->
     let data :=
       mkDoc (Some channel) idx0 [(u "Videos", mkCategory mid0 (Some []))] in
     file w = Some data ->
     let send_index := SendMessage channel (format_index data) true in
     let log_index :=
       Log INFO (u "Created index message id=" ++ str_of_int id1) in
     let send_videos :=
       SendMessage channel (format_category_message upper (u "Videos") [])
                   false in
     bot (trace w ++ [send_index]) = Done id1 ->
     bot (trace w ++ [send_index; log_index; send_videos]) = Done id2 ->
     let data' :=
       mkDoc (Some channel) (Some id1)
             [(u "Videos", mkCategory (Value id2) (Some []))] in
     let events :=
       [send_index; log_index; send_videos;
        Log INFO (u "Created message for category '" ++ u "Videos"
                  ++ u "' id=" ++ str_of_int id2);
        SaveData data';
        Log INFO (u "data.json updated with new message ids.")] in
     ensure_channel_messages upper bot w =
       (Returned tt, mkWorld (Some data') (trace w ++ events))
     /\ filter is_send events = [send_index; send_videos])
  /\ (forall (w : World) (data : Doc),
        file w = Some data -> channel_set data = false ->
        ensure_channel_messages upper bot w =
          (Returned tt,
           mkWorld (Some data)
             (trace w
              ++ [Log WARNING
                    (u "channel_username is null in data.json. Skipping auto-initialization.")]))).
Proof.
  split.
  - intros w channel idx0 mid0 id1 id2 Hch Hidx Hmid data Hf send_index
           log_index send_videos Hb1 Hb2 data' events.
    split; [|reflexivity].
    now apply ensure_videos.
  - apply ensure_unset.
Qed.

End Startup.

(* ================================================================== *)
(** * What the operations may change in the document *)
(* ================================================================== *)

Lemma category_grows_refl (c : Category) : category_grows c c.
Proof. split; [reflexivity|]. exists []. now rewrite app_nil_r. Qed.

Lemma category_grows_trans (a b c : Category) :
  category_grows a b -> category_grows b c -> category_grows a c.
Proof.
  intros [Hab [l1 E1]] [Hbc [l2 E2]]. split.
  - intros Ha. specialize (Hab Ha). rewrite <- Hab. apply Hbc.
    now rewrite Hab.
  - exists (l1 ++ l2). now rewrite E2, E1, app_assoc.
Qed.

Lemma doc_grows_refl (d : Doc) : doc_grows d d.
Proof.
  split; [reflexivity|].
  induction (categorias d) as [|x l IH]; constructor; [|exact IH].
  split; [reflexivity | apply category_grows_refl].
Qed.

Lemma doc_grows_trans (a b c : Doc) :
  doc_grows a b -> doc_grows b c -> doc_grows a c.
Proof.
  intros [Hab Fab] [Hbc Fbc]. split.
  - intros Ha. specialize (Hab Ha). rewrite <- Hab. apply Hbc.
    now rewrite Hab.
  - revert Fbc. generalize (categorias c).
    induction Fab as [|x y l l' [Hk Hg] _ IH]; intros lc Fbc;
      inversion Fbc as [|y' z l1 l2 [Hk' Hg'] Fbc']; subst; constructor.
    + split; [congruence | eapply category_grows_trans; eassumption].
    + now apply IH.
Qed.

Lemma doc_grows_keys (a b : Doc) :
  doc_grows a b -> keys (categorias b) = keys (categorias a).
Proof.
  intros [_ F]. unfold keys.
  induction F as [|x y l l' [Hk _] _ IH]; simpl; [reflexivity|].
  now rewrite Hk, IH.
Qed.

Lemma dict_set_grows (k : str) (v v' : Category) (d : dict Category) :
  dict_get k d = Some v -> category_grows v v' ->
  Forall2 (fun a b => fst a = fst b /\ category_grows (snd a) (snd b))
          d (dict_set k v' d).
Proof.
  intros Hg Hv. induction d as [|[k0 v0] d IH]; simpl in *; [discriminate|].
  destruct (str_eqb k0 k) eqn:E.
  - injection Hg as ->. constructor; [now split|].
    clear. induction d as [|x d IH]; constructor; [|exact IH].
    split; [reflexivity | apply category_grows_refl].
  - constructor; [|now apply IH].
    split; [reflexivity | apply category_grows_refl].
Qed.

Lemma doc_grows_set_indice (d : Doc) (mid : Z) :
  opt_int_truthy (indice_message_id d) = false ->
  doc_grows d (set_indice d mid).
Proof.
  intros H. split.
  - rewrite H. discriminate.
  - apply (doc_grows_refl d).
Qed.

Lemma doc_grows_with_link (d : Doc) (k : str) (info : Category)
      (entry : LinkEntry) :
  dict_get k (categorias d) = Some info ->
  doc_grows d (with_link d k info entry).
Proof.
  intros Hg. split; [reflexivity|].
  apply dict_set_grows with (v := info); [assumption|].
  split; [reflexivity|]. now exists [entry].
Qed.

Lemma id_recorded_grows (cur cur' : Doc) (cat : str) (info : Category) :
  dict_get cat (categorias cur) = Some info ->
  id_recorded cur cat info cur' -> doc_grows cur cur'.
Proof.
  intros Hg [-> | [Hf [mid ->]]]; [apply doc_grows_refl|].
  split; [reflexivity|].
  apply dict_set_grows with (v := info); [assumption|].
  split.
  - rewrite Hf. discriminate.
  - exists []. unfold get_links. simpl. now rewrite app_nil_r.
Qed.

Lemma id_recorded_other (cur cur' : Doc) (cat cat' : str) (info : Category) :
  id_recorded cur cat info cur' -> cat <> cat' ->
  dict_get cat' (categorias cur') = dict_get cat' (categorias cur).
Proof.
  intros [-> | [_ [mid ->]]] Hne; [reflexivity|].
  now apply dict_get_set_other.
Qed.

Lemma dict_get_nodup {V} (d : dict V) (k : str) (v : V) :
  NoDup (keys d) -> In (k, v) d -> dict_get k d = Some v.
Proof.
  induction d as [|[k0 v0] d IH]; simpl; [contradiction|].
  intros Hnd [E | Hin].
  - injection E as -> ->. now rewrite str_eqb_refl.
  - inversion Hnd as [|? ? Hnotin Hnd']; subst.
    destruct (str_eqb k0 k) eqn:E.
    + apply str_eqb_eq in E. subst k0. exfalso. apply Hnotin.
      unfold keys. change k with (fst (k, v)). now apply in_map.
    + now apply IH.
Qed.

Lemma matches_in_keys (lower : str -> str) (data : Doc) (c k : str)
      (rest : list str) :
  matches lower data c = k :: rest -> In k (keys (categorias data)).
Proof.
  unfold matches. intros H.
  assert (Hin : In k (filter (fun c0 => str_eqb (lower c0) (lower c))
                             (keys (categorias data))))
    by (rewrite H; now left).
  now apply filter_In in Hin.
Qed.

Lemma in_keys_dict_get {V} (k : str) (d : dict V) :
  In k (keys d) -> exists v, dict_get k d = Some v.
Proof.
  induction d as [|[k0 v0] d IH]; simpl; [contradiction|].
  intros [-> | H].
  - rewrite str_eqb_refl. now eexists.
  - destruct (str_eqb k0 k); [now eexists | now apply IH].
Qed.

Lemma bind_run {A B} (m : M A) (k : A -> M B) (w : World) :
  bind m k w =
    match m w with
    | (Returned a, w') => k a w'
    | (Raised e, w') => (Raised e, w')
    end.
Proof. reflexivity. Qed.

Lemma keeps_ret {A} (a : A) : keeps_file (ret a).
Proof. now intros w. Qed.

Lemma keeps_raise {A} (e : exn) : keeps_file (@raise A e).
Proof. now intros w. Qed.

Lemma keeps_emit (e : event) : keeps_file (emit e).
Proof. now intros w. Qed.

Lemma keeps_bind {A B} (m : M A) (k : A -> M B) :
  keeps_file m -> (forall a, keeps_file (k a)) -> keeps_file (bind m k).
Proof.
  intros Hm Hk w. rewrite bind_run. specialize (Hm w).
  destruct (m w) as [[a|e] w']; simpl in *; [|assumption].
  now rewrite Hk.
Qed.

Lemma keeps_try {A} (body : M A) (handler : exn -> M A) :
  keeps_file body -> (forall e, keeps_file (handler e)) ->
  keeps_file (try_except body handler).
Proof.
  intros Hb Hh w. unfold try_except. specialize (Hb w).
  destruct (body w) as [[a|e] w']; simpl in *; [assumption|].
  now rewrite Hh.
Qed.

Lemma keeps_for_each {A S} (items : list A) (body : A -> S -> M S) (st : S) :
  (forall x s, keeps_file (body x s)) -> keeps_file (for_each items body st).
Proof.
  intros Hb. revert st. induction items as [|x items IH]; intros st; simpl.
  - apply keeps_ret.
  - apply keeps_bind; [apply Hb | intros a; apply IH].
Qed.

Lemma returns_ret {A} (a : A) (P : A -> Prop) : P a -> returns (ret a) P.
Proof. intros H w b E. simpl in E. now injection E as <-. Qed.

Lemma returns_raise {A} (e : exn) (P : A -> Prop) : returns (raise e) P.
Proof. intros w b E. discriminate E. Qed.

Lemma returns_any {A} (m : M A) : returns m (fun _ => True).
Proof. now intros w a _. Qed.

Lemma returns_bind {A B} (m : M A) (k : A -> M B) (Q : A -> Prop)
      (P : B -> Prop) :
  returns m Q -> (forall a, Q a -> returns (k a) P) -> returns (bind m k) P.
Proof.
  intros Hm Hk w b E. rewrite bind_run in E. specialize (Hm w).
  destruct (m w) as [[a|e] w']; simpl in *; [|discriminate E].
  exact (Hk a (Hm a eq_refl) w' b E).
Qed.

Lemma returns_try {A} (body : M A) (handler : exn -> M A) (P : A -> Prop) :
  returns body P -> (forall e, returns (handler e) P) ->
  returns (try_except body handler) P.
Proof.
  intros Hb Hh w a E. unfold try_except in E. specialize (Hb w).
  destruct (body w) as [[b|e] w']; simpl in *.
  - injection E as <-. now apply Hb.
  - exact (Hh e w' a E).
Qed.

Section Growth.

Variable lower : str -> str.
Variable upper : str -> str.
Variable bot : list event -> response.

Lemma keeps_request (e : event) : keeps_file (request bot e).
Proof. intros w. unfold request. now destruct (bot (trace w ++ [e])). Qed.

Lemma keeps_send (chat text : str) (np : bool) :
  keeps_file (send_message bot chat text np).
Proof. apply keeps_request. Qed.

Lemma keeps_edit (chat : str) (mid : option Z) (text : str) (np : bool) :
  keeps_file (edit_message_text bot chat mid text np).
Proof.
  apply keeps_bind; [apply keeps_request | intros; apply keeps_ret].
Qed.

Lemma keeps_get_category (data : Doc) (cat : str) :
  keeps_file (get_category data cat).
Proof.
  unfold get_category.
  destruct (dict_get cat (categorias data)); [apply keeps_ret | apply keeps_raise].
Qed.

Lemma keeps_set_message_id (data : Doc) (cat : str) (mid : Z) :
  keeps_file (set_message_id data cat mid).
Proof.
  apply keeps_bind; [apply keeps_get_category | intros; apply keeps_ret].
Qed.

Lemma returns_set_message_id (data : Doc) (cat : str) (mid : Z)
      (info : Category) :
  dict_get cat (categorias data) = Some info ->
  field_truthy (message_id info) = false ->
  returns (set_message_id data cat mid) (id_recorded data cat info).
Proof.
  intros Hg Hf. unfold set_message_id, get_category. rewrite Hg.
  apply returns_bind with (Q := fun i => i = info).
  - now apply returns_ret.
  - intros a ->. apply returns_ret. right. split; [assumption|]. now exists mid.
Qed.

Lemma keeps_refresh_category (chat : str) (item : str * Category) (data : Doc) :
  keeps_file (refresh_category upper bot chat item data).
Proof.
  destruct item as [cat info]. unfold refresh_category.
  apply keeps_try.
  - destruct (opt_int_truthy (field_get (message_id info))).
    + apply keeps_bind; [apply keeps_edit | intros; apply keeps_ret].
    + apply keeps_bind; [apply keeps_send | intros; apply keeps_set_message_id].
  - intros e. apply keeps_bind; [apply keeps_emit | intros; apply keeps_ret].
Qed.

Lemma field_get_truthy (f : field Z) :
  opt_int_truthy (field_get f) = field_truthy f.
Proof. now destruct f. Qed.

Lemma returns_refresh_category (chat cat : str) (info : Category) (data : Doc) :
  dict_get cat (categorias data) = Some info ->
  returns (refresh_category upper bot chat (cat, info) data)
          (id_recorded data cat info).
Proof.
  intros Hg. unfold refresh_category. rewrite field_get_truthy.
  apply returns_try.
  - destruct (field_truthy (message_id info)) eqn:Hf.
    + apply returns_bind with (Q := fun _ => True); [apply returns_any|].
      intros _ _. apply returns_ret. now left.
    + apply returns_bind with (Q := fun _ => True); [apply returns_any|].
      intros mid _. now apply returns_set_message_id.
  - intros e. apply returns_bind with (Q := fun _ => True); [apply returns_any|].
    intros _ _. apply returns_ret. now left.
Qed.

Lemma keeps_ensure_category (chat : str) (item : str * Category)
      (st : Doc * bool) :
  keeps_file (ensure_category upper bot chat item st).
Proof.
  destruct item as [cat info], st as [data modified]. unfold ensure_category.
  destruct (negb (field_truthy (message_id info))); [|apply keeps_ret].
  apply keeps_bind; [apply keeps_send|]. intros mid.
  apply keeps_bind; [apply keeps_set_message_id|]. intros d.
  apply keeps_bind; [apply keeps_emit | intros; apply keeps_ret].
Qed.

Lemma returns_ensure_category (chat cat : str) (info : Category)
      (st : Doc * bool) :
  dict_get cat (categorias (fst st)) = Some info ->
  returns (ensure_category upper bot chat (cat, info) st)
          (fun st' => id_recorded (fst st) cat info (fst st')).
Proof.
  destruct st as [data modified]. simpl fst. intros Hg.
  unfold ensure_category.
  destruct (field_truthy (message_id info)) eqn:Hf; simpl negb; cbv iota.
  - apply returns_ret. now left.
  - apply returns_bind with (Q := fun _ => True); [apply returns_any|].
    intros mid _.
    apply returns_bind with (Q := id_recorded data cat info);
      [now apply returns_set_message_id|].
    intros d Hd.
    apply returns_bind with (Q := fun _ => True); [apply returns_any|].
    intros _ _. now apply returns_ret.
Qed.

(** A loop over the items of the categories whose passes record message
    ids: it only grows the document. *)
Lemma for_each_grows {S} (proj : S -> Doc)
      (body : str * Category -> S -> M S) :
  (forall cat info st,
     dict_get cat (categorias (proj st)) = Some info ->
     returns (body (cat, info) st)
             (fun st' => id_recorded (proj st) cat info (proj st'))) ->
  forall (items : dict Category) (st : S),
    NoDup (keys items) ->
    (forall cat info, In (cat, info) items ->
                      dict_get cat (categorias (proj st)) = Some info) ->
    returns (for_each items body st) (fun st' => doc_grows (proj st) (proj st')).
Proof.
  intros Hbody items. induction items as [|[cat info] items IH];
    intros st Hnd Hin; simpl for_each.
  - apply returns_ret, doc_grows_refl.
  - inversion Hnd as [|? ? Hnotin Hnd']; subst.
    assert (Hg : dict_get cat (categorias (proj st)) = Some info)
      by (apply Hin; now left).
    apply returns_bind
      with (Q := fun st' => id_recorded (proj st) cat info (proj st'));
      [now apply Hbody|].
    intros st1 Hrec w st2 E.
    apply doc_grows_trans with (b := proj st1);
      [now apply id_recorded_grows with (cat := cat) (info := info)|].
    apply (IH st1 Hnd') with (w := w); [|exact E].
    intros cat' info' Hin'.
    rewrite (id_recorded_other (cat' := cat') Hrec).
    + apply Hin. now right.
    + intros ->. apply Hnotin. unfold keys.
      change cat' with (fst (cat', info')). now apply in_map.
Qed.

End Growth.

Section Operations.

Variable lower : str -> str.
Variable upper : str -> str.
Variable bot : list event -> response.

Lemma load_data_run (w : World) (data : Doc) :
  file w = Some data -> load_data w = (Returned data, w).
Proof. intros H. unfold load_data. now rewrite H. Qed.

Lemma startup_grows (w : World) (data : Doc) :
  file w = Some data -> dict_wf (categorias data) ->
  exists data',
    file (snd (ensure_channel_messages upper bot w)) = Some data'
    /\ doc_grows data data'.
Proof.
  intros Hf Hwf. unfold ensure_channel_messages.
  rewrite bind_run, (load_data_run w Hf). cbv zeta.
  assert (Hskip : forall msg,
            exists data', file (snd (logger WARNING msg w)) = Some data'
                          /\ doc_grows data data').
  { intros msg. exists data. split; [exact Hf | apply doc_grows_refl]. }
  destruct (channel_username data) as [channel|]; [|apply Hskip].
  destruct (truthy channel); cbn [negb]; [|apply Hskip].
  set (phase1 :=
         if negb (opt_int_truthy (indice_message_id data))
         then bind (send_message bot channel (format_index data) true)
                (fun mid =>
                   bind (logger INFO (u "Created index message id="
                                      ++ str_of_int mid))
                     (fun _ => ret (set_indice data mid, true)))
         else ret (data, false)).
  assert (K1 : keeps_file phase1).
  { unfold phase1. destruct (negb (opt_int_truthy (indice_message_id data)));
      [|apply keeps_ret].
    apply keeps_bind; [apply keeps_send|]. intros mid.
    apply keeps_bind; [apply keeps_emit | intros; apply keeps_ret]. }
  assert (R1 : returns phase1
                 (fun st => doc_grows data (fst st)
                            /\ categorias (fst st) = categorias data)).
  { unfold phase1.
    destruct (opt_int_truthy (indice_message_id data)) eqn:Hidx; simpl negb;
      cbv iota.
    - apply returns_ret. split; [apply doc_grows_refl | reflexivity].
    - apply returns_bind with (Q := fun _ => True); [apply returns_any|].
      intros mid _.
      apply returns_bind with (Q := fun _ => True); [apply returns_any|].
      intros _ _. apply returns_ret.
      split; [now apply doc_grows_set_indice | reflexivity]. }
  rewrite bind_run. specialize (K1 w). specialize (R1 w).
  destruct (phase1 w) as [[st|e] w1]; simpl in K1, R1.
  2:{ exists data. simpl. split; [congruence | apply doc_grows_refl]. }
  destruct (R1 st eq_refl) as [G1 C1].
  rewrite bind_run.
  pose proof (@keeps_for_each _ _ (categorias (fst st))
                (ensure_category upper bot channel) st
                (keeps_ensure_category upper bot channel) w1) as K2.
  pose proof (@for_each_grows (Doc * bool) fst
                (ensure_category upper bot channel)
                (fun cat info st0 => @returns_ensure_category upper bot channel
                                       cat info st0)
                (categorias (fst st)) st) as R2.
  rewrite C1 in R2 at 1. specialize (R2 Hwf).
  assert (Hin : forall cat info,
            In (cat, info) (categorias (fst st)) ->
            dict_get cat (categorias (fst st)) = Some info).
  { intros cat info Hin. apply dict_get_nodup; [|exact Hin].
    rewrite C1. exact Hwf. }
  specialize (R2 Hin w1).
  destruct (for_each (categorias (fst st)) (ensure_category upper bot channel)
              st w1) as [[[data' modified]|e] w2]; simpl in K2, R2.
  2:{ exists data. simpl. split; [congruence | apply doc_grows_refl]. }
  specialize (R2 _ eq_refl). simpl in R2.
  destruct modified.
  - exists data'. split; [reflexivity|].
    now apply doc_grows_trans with (b := fst st).
  - exists data. simpl. split; [congruence | apply doc_grows_refl].
Qed.

Lemma refresh_grows (w : World) (data : Doc) :
  file w = Some data -> dict_wf (categorias data) ->
  exists data',
    file (snd (refresh_command upper bot w)) = Some data'
    /\ doc_grows data data'.
Proof.
  intros Hf Hwf. unfold refresh_command.
  rewrite bind_run, (load_data_run w Hf). cbv zeta.
  assert (Hskip : forall msg,
            exists data', file (snd (reply_text msg false w)) = Some data'
                          /\ doc_grows data data').
  { intros msg. exists data. split; [exact Hf | apply doc_grows_refl]. }
  destruct (channel_username data) as [channel|]; [|apply Hskip].
  destruct (truthy channel); cbn [negb]; [|apply Hskip].
  rewrite bind_run.
  pose proof (@for_each_grows Doc (fun d => d)
                (refresh_category upper bot channel)
                (fun cat info st0 => @returns_refresh_category upper bot channel
                                       cat info st0)
                (categorias data) data Hwf
                (fun cat info Hin => @dict_get_nodup _ _ cat info Hwf Hin) w) as R1.
  pose proof (@keeps_for_each _ _ (categorias data)
                (refresh_category upper bot channel) data
                (keeps_refresh_category upper bot channel) w) as K1.
  destruct (for_each (categorias data) (refresh_category upper bot channel)
              data w) as [[data1|e] w1]; simpl in R1, K1.
  2:{ exists data. simpl. split; [congruence | apply doc_grows_refl]. }
  specialize (R1 _ eq_refl).
  rewrite bind_run.
  set (index_part :=
         try_except
           (if opt_int_truthy (indice_message_id data1)
            then bind (edit_message_text bot channel (indice_message_id data1)
                         (format_index data1) true)
                   (fun _ => ret data1)
            else bind (send_message bot channel (format_index data1) true)
                   (fun mid => ret (set_indice data1 mid)))
           (fun e => bind (logger ERROR (u "Error refreshing index: "
                                         ++ str_of_exn e))
                       (fun _ => ret data1))).
  assert (R2 : returns index_part (doc_grows data1)).
  { unfold index_part. apply returns_try.
    - destruct (opt_int_truthy (indice_message_id data1)) eqn:Hidx.
      + apply returns_bind with (Q := fun _ => True); [apply returns_any|].
        intros _ _. apply returns_ret, doc_grows_refl.
      + apply returns_bind with (Q := fun _ => True); [apply returns_any|].
        intros mid _. apply returns_ret. now apply doc_grows_set_indice.
    - intros e.
      apply returns_bind with (Q := fun _ => True); [apply returns_any|].
      intros _ _. apply returns_ret, doc_grows_refl. }
  assert (K2 : keeps_file index_part).
  { unfold index_part. apply keeps_try.
    - destruct (opt_int_truthy (indice_message_id data1)).
      + apply keeps_bind; [apply keeps_edit | intros; apply keeps_ret].
      + apply keeps_bind; [apply keeps_send | intros; apply keeps_ret].
    - intros e. apply keeps_bind; [apply keeps_emit | intros; apply keeps_ret]. }
  specialize (R2 w1). specialize (K2 w1).
  destruct (index_part w1) as [[data2|e] w2]; simpl in R2, K2.
  - exists data2. split; [reflexivity|].
    apply doc_grows_trans with (b := data1); [assumption | now apply R2].
  - exists data. simpl. split; [congruence | apply doc_grows_refl].
Qed.

Lemma add_grows (user : User) (raw : str) (w : World) (data : Doc) :
  file w = Some data ->
  exists data',
    file (snd (add_command lower upper bot user raw w)) = Some data'
    /\ doc_grows data data'.
Proof.
  intros Hf.
  assert (Husage :
    exists data', file (snd (reply_text USAGE false w)) = Some data'
                  /\ doc_grows data data').
  { exists data. split; [exact Hf | apply doc_grows_refl]. }
  destruct (parse_add_args raw) as [[c title] tk] eqn:Hp.
  destruct c as [category|], tk as [tok|];
    try (unfold add_command; rewrite Hp; exact Husage).
  destruct (matches lower data category) as [|k rest] eqn:Hm.
  - rewrite (add_command_not_found lower upper bot user raw w Hp Hf Hm).
    exists data. split; [exact Hf | apply doc_grows_refl].
  - destruct (in_keys_dict_get _ _ (matches_in_keys _ _ _ Hm)) as [info Hg].
    destruct (add_command_stored lower upper bot user raw w Hp Hf Hm Hg)
      as [out [later [E _]]].
    rewrite E. eexists. split; [reflexivity|].
    now apply doc_grows_with_link.
Qed.

Lemma operation_grows (op : operation) (w : World) (data : Doc) :
  file w = Some data -> dict_wf (categorias data) ->
  exists data',
    file (snd (run_operation lower upper bot op w)) = Some data'
    /\ doc_grows data data'.
Proof.
  intros Hf Hwf. destruct op as [|user raw|]; simpl.
  - now apply startup_grows.
  - now apply add_grows.
  - now apply refresh_grows.
Qed.

(** C8. Whatever the channel answers, after any run of [/add], [/refresh]
    and startup reconciliations the file holds a document in which the id of
    the index message, if it was set, is the same; the categories are the
    same keys in the same order; the message id of each category, if it was
    set, is the same; and the links of each category are the old links, in
    their order, followed by the links added.  An id is set when the program
    reads it as true: it is an integer other than 0. *)
Theorem documents_only_grow (ops : list operation) (w : World) (data : Doc) :
  file w = Some data -> dict_wf (categorias data) ->
  exists data',
    file (run_all lower upper bot ops w) = Some data'
    /\ dict_wf (categorias data')
    /\ (opt_int_truthy (indice_message_id data) = true ->
        indice_message_id data' = indice_message_id data)
    /\ Forall2 (fun old new =>
                  fst old = fst new
                  /\ (field_truthy (message_id (snd old)) = true ->
                      message_id (snd new) = message_id (snd old))
                  /\ exists added,
                       get_links (snd new) = get_links (snd old) ++ added)
               (categorias data) (categorias data').
Proof.
  revert w data. induction ops as [|op ops IH]; intros w data Hf Hwf.
  - exists data. split; [exact Hf|]. split; [exact Hwf|].
    exact (doc_grows_refl data).
  - destruct (operation_grows op w Hf Hwf) as [data1 [Hf1 G1]].
    assert (Hwf1 : dict_wf (categorias data1)).
    { unfold dict_wf. now rewrite (doc_grows_keys G1). }
    destruct (IH _ _ Hf1 Hwf1) as [data' [Hf' [Hwf' G']]].
    exists data'. split; [exact Hf'|]. split; [exact Hwf'|].
    exact (doc_grows_trans G1 G').
Qed.

End Operations.

(* ================================================================== *)
(** * The statements on a concrete catalogue *)
(* ================================================================== *)

(** [ensure_channel_messages_spec] on the catalogue with the one category
    ["Videos"], with a channel that numbers its messages. *)
Lemma ensure_channel_messages_spec_witness :
  file (snd (ensure_channel_messages Latin1.upper Sample.counting_bot
               (mkWorld (Some Sample.videos_doc) [])))
  = Some Sample.videos_ready.
Proof.
  destruct (ensure_channel_messages_spec Latin1.upper Sample.counting_bot)
    as [H _].
  specialize (H (mkWorld (Some Sample.videos_doc) []) (u "@mi_canal") None
                Null 1%Z 3%Z eq_refl eq_refl eq_refl eq_refl).
  cbv zeta in H. destruct H as [H _]; [by_compute | by_compute |].
  etransitivity; [apply (f_equal (fun r => file (snd r))); exact H|].
  by_compute.
Defined.

(** [add_command_edit_failures] with a channel that refuses every edit. *)
Lemma add_command_edit_failures_witness :
  add_command Latin1.lower Latin1.upper Sample.failing_bot Sample.ana
    (u "/add diseño Mi título https://example.com/x") Sample.start
  = (Returned tt,
     mkWorld (Some Sample.catalogue_added)
       [SaveData Sample.catalogue_added;
        EditMessageText (u "@mi_canal") (Some 7%Z)
          (format_category_message Latin1.upper (u "Diseño") [Sample.entry])
          false;
        Log ERROR (u "Failed to edit category message: Bad Request");
        EditMessageText (u "@mi_canal") (Some 5%Z)
          (format_index Sample.catalogue_added) true;
        Log ERROR (u "Failed to edit index message: Bad Request");
        ReplyText (u "Enlace agregado a <b>Diseño</b> ✅") true]).
Proof.
  pose proof (@add_command_edit_failures Latin1.lower Latin1.upper
                Sample.failing_bot Sample.ana
                (u "/add diseño Mi título https://example.com/x")
                Sample.start Sample.catalogue (u "diseño")
                Sample.example_url (u "Diseño") (u "@mi_canal")
                (Some (u "Mi título")) []
                (mkCategory (Value 7%Z) (Some []))) as H.
  specialize (H ltac:(by_compute) ltac:(by_compute) ltac:(by_compute)
                ltac:(by_compute) ltac:(by_compute) ltac:(by_compute)).
  cbv zeta in H. destruct H as (out & later & Hrun & _ & Hshape).
  destruct (Hshape ltac:(discriminate)) as [Hout Hlater].
  rewrite Hout, Hlater in Hrun.
  etransitivity; [exact Hrun|]. by_compute.
Defined.

(** [add_command_unknown_category] on a category the catalogue lacks. *)
Lemma add_command_unknown_category_witness :
  add_command Latin1.lower Latin1.upper Sample.counting_bot Sample.ana
    (u "/add Música Una canción https://example.com/x") Sample.start
  = (Returned tt,
     mkWorld (Some Sample.catalogue)
       [ReplyText
          (u "Categoría 'Música' no encontrada. Usa /list para ver categorías disponibles.")
          false]).
Proof.
  pose proof (@add_command_unknown_category Latin1.lower Latin1.upper
                Sample.counting_bot Sample.ana
                (u "/add Música Una canción https://example.com/x")
                Sample.start Sample.catalogue (u "Música")
                Sample.example_url (Some (u "Una canción"))) as H.
  specialize (H ltac:(by_compute) ltac:(by_compute) ltac:(distinct_names)).
  destruct H as [H _].
  etransitivity; [exact H|]. by_compute.
Defined.

(** [add_command_missing_message_id] on the category ["Videos"], whose
    record has no ["message_id"]. *)
Lemma add_command_missing_message_id_witness :
  add_command Latin1.lower Latin1.upper Sample.counting_bot Sample.ana
    (u "/add videos https://example.com/x") Sample.start
  = (Raised (KeyError (u "message_id")),
     let data' :=
       mkDoc (Some (u "@mi_canal")) (Some 5%Z)
         [(u "Diseño", mkCategory (Value 7%Z) (Some []));
          (u "Videos",
           mkCategory Missing
             (Some [mkLink Sample.example_url Sample.example_url (u "ana")]))]
     in mkWorld (Some data') [SaveData data']).
Proof.
  pose proof (@add_command_missing_message_id Latin1.lower Latin1.upper
                Sample.counting_bot Sample.ana
                (u "/add videos https://example.com/x")
                Sample.start Sample.catalogue (u "videos")
                Sample.example_url (u "Videos") (u "@mi_canal")
                (Some []) [] (mkCategory Missing None)) as H.
  specialize (H ltac:(by_compute) ltac:(by_compute) ltac:(by_compute)
                ltac:(by_compute) ltac:(by_compute) ltac:(by_compute)
                ltac:(by_compute)).
  etransitivity; [exact H|]. by_compute.
Defined.

(** [add_command_url_alone] on the URL of the example. *)
Lemma add_command_url_alone_witness :
  add_command Latin1.lower Latin1.upper Sample.counting_bot Sample.ana
    (u "/add " ++ Sample.example_url) Sample.start
  = (Returned tt,
     mkWorld (Some Sample.catalogue)
       [ReplyText
          (u "Categoría 'https://example.com/x' no encontrada. Usa /list para ver categorías disponibles.")
          false]).
Proof.
  pose proof (@add_command_url_alone Latin1.lower Latin1.upper
                Sample.counting_bot Sample.ana
                (u "/add " ++ Sample.example_url) Sample.start
                Sample.catalogue Sample.example_url) as H.
  specialize (H ltac:(by_compute) ltac:(by_compute) ltac:(by_compute)).
  destruct H as (_ & _ & _ & H & _).
  etransitivity; [apply H; distinct_names|]. by_compute.
Defined.

(** [category_lookup_and_display]: ["diseño"] and ["DISEÑO"] find the same
    key, the stored ["Diseño"]. *)
Lemma category_lookup_and_display_witness :
  matches Latin1.lower Sample.catalogue (u "diseño")
  = matches Latin1.lower Sample.catalogue (u "DISEÑO")
  /\ exists rest,
       matches Latin1.lower Sample.catalogue (u "DISEÑO") = u "Diseño" :: rest.
Proof.
  destruct (category_lookup_and_display Latin1.lower Latin1.upper
              Sample.counting_bot) as (Hsame & _ & Hfirst & _).
  split.
  - apply Hsame. by_compute.
  - apply (Hfirst Sample.catalogue (u "DISEÑO") (u "Diseño") [] [u "Videos"]).
    + by_compute.
    + by_compute.
    + apply Forall_nil.
Defined.

(** C6 as stated fails on the header of the category message: for the stored
    key ["Diseño"] the header reads ["DISEÑO"], and the message does not
    hold the key in its original case. *)
Lemma category_header_is_upper_case :
  format_category_message Latin1.upper (u "Diseño") []
  = u "📎 <b>DISEÑO</b> (0 enlaces)" ++ NL ++ NL
    ++ u "_No hay enlaces aún. Agrega alguno con_ /add"
  /\ contains (format_category_message Latin1.upper (u "Diseño") [])
              (u "Diseño") = false.
Proof. split; by_compute. Qed.

(** [documents_only_grow] on a startup, an [/add] and a [/refresh]. *)
Lemma documents_only_grow_witness :
  exists data',
    file (run_all Latin1.lower Latin1.upper Sample.counting_bot
            [Startup;
             Add Sample.ana (u "/add diseño Mi título https://example.com/x");
             Refresh]
            Sample.start) = Some data'
    /\ dict_wf (categorias data')
    /\ (opt_int_truthy (indice_message_id Sample.catalogue) = true ->
        indice_message_id data' = indice_message_id Sample.catalogue)
    /\ Forall2 (fun old new =>
                  fst old = fst new
                  /\ (field_truthy (message_id (snd old)) = true ->
                      message_id (snd new) = message_id (snd old))
                  /\ exists added,
                       get_links (snd new) = get_links (snd old) ++ added)
               (categorias Sample.catalogue) (categorias data').
Proof.
  apply (@documents_only_grow Latin1.lower Latin1.upper Sample.counting_bot
           [Startup;
            Add Sample.ana (u "/add diseño Mi título https://example.com/x");
            Refresh]
           Sample.start Sample.catalogue).
  - reflexivity.
  - change (NoDup [u "Diseño"; u "Videos"]). apply NoDup_cons.
    + intros [E | []]. vm_compute in E. discriminate E.
    + apply NoDup_cons; [intros [] | apply NoDup_nil].
Defined.

(* ================================================================== *)
(** * More on the parser: round trip and trailing tokens *)
(* ================================================================== *)

Lemma is_token_spec (t : str) :
  is_token t = true <-> t <> [] /\ forallb nonspace t = true.
Proof.
  unfold is_token. rewrite andb_true_iff. split; intros [H1 H2]; split;
    try assumption.
  - intros ->. discriminate H1.
  - now destruct t.
Qed.

Lemma split_from_app (c : N) (a b cur : str) :
  isspace c = true ->
  split_from cur (a ++ c :: b) = split_from cur a ++ split_from [] b.
Proof.
  intros Hc. revert cur. induction a as [|d a IH]; intros cur; simpl.
  - rewrite Hc. now destruct cur.
  - destruct (isspace d); [destruct cur|]; simpl; now rewrite IH.
Qed.

(** White space between two texts separates their tokens. *)
Lemma split_app (c : N) (a b : str) :
  isspace c = true -> split (a ++ c :: b) = split a ++ split b.
Proof. intros Hc. now apply split_from_app. Qed.

Lemma split_one (t : str) : is_token t = true -> split t = [t].
Proof.
  intros H. apply is_token_spec in H as [Hne Hns].
  rewrite <- (app_nil_r t) at 1. now rewrite split_token.
Qed.

(** Tokens joined by single spaces split back into the same tokens. *)
Lemma split_join (toks : list str) :
  forallb is_token toks = true -> split (join (u " ") toks) = toks.
Proof.
  induction toks as [|x toks IH]; intros H; [reflexivity|].
  cbn [forallb] in H. apply andb_true_iff in H as [Hx Hr].
  destruct toks as [|y toks]; [now apply split_one|].
  rewrite join_cons. change (u " " ++ join (u " ") (y :: toks))
    with (32%N :: join (u " ") (y :: toks)).
  rewrite split_app by reflexivity.
  rewrite split_one by assumption. now rewrite IH.
Qed.

Lemma without_command_app (l l' : list str) :
  l <> [] -> without_command (l ++ l') = without_command l ++ l'.
Proof.
  destruct l as [|t0 l]; [congruence|]. intros _.
  unfold without_command. cbn [app].
  now destruct (startswith t0 (u "/add")).
Qed.

(** What a successful parse says about the tokens. *)
Lemma parse_inv (text c t tok : str) :
  parse_add_args text = (Some c, Some t, Some tok) ->
  exists pre post,
    add_tokens text = pre ++ tok :: post
    /\ url_pattern_match tok = true
    /\ forallb no_url post = true
    /\ c = hd tok pre
    /\ t = join (u " ") (tl pre).
Proof.
  intros H.
  destruct (last_url_split (add_tokens text))
    as [Hall|[pre [tk [post [E [Ht Hp]]]]]].
  - rewrite parse_tokens_none in H by now right. discriminate.
  - rewrite (@parse_tokens_found text pre post tk E Ht Hp) in H.
    injection H as Hc Htl Htk. subst tk.
    exists pre, post. now repeat split.
Qed.

Lemma forallb_token_app (a b : list str) :
  forallb is_token (a ++ b) = forallb is_token a && forallb is_token b.
Proof. apply forallb_app. Qed.

(** X1. A command line written as the usage text says, the command, the
    category, the words of the title and the URL separated by single spaces,
    parses back to that category, that title and that URL.  The command may
    be left out when the category does not itself start with [/add]. *)
Theorem parse_add_args_round_trip (cmd cat tok : str) (words : list str) :
  is_token cmd = true -> startswith cmd (u "/add") = true ->
  is_token cat = true -> forallb is_token words = true ->
  is_token tok = true -> url_pattern_match tok = true ->
  parse_add_args (join (u " ") (cmd :: cat :: words ++ [tok]))
  = (Some cat, Some (join (u " ") words), Some tok)
  /\ (startswith cat (u "/add") = false ->
      parse_add_args (join (u " ") (cat :: words ++ [tok]))
      = (Some cat, Some (join (u " ") words), Some tok)).
Proof.
  intros Hcmd Hadd Hcat Hwords Htok Hurl.
  assert (Hall : forallb is_token (cat :: words ++ [tok]) = true).
  { cbn [forallb]. rewrite Hcat, forallb_token_app, Hwords. cbn [forallb].
    now rewrite Htok. }
  split.
  - apply (@parse_tokens_found _ (cat :: words) [] tok);
      [|assumption|reflexivity].
    rewrite add_tokens_split, split_join.
    + unfold without_command. rewrite Hadd. now rewrite <- app_comm_cons.
    + cbn [forallb]. rewrite Hcmd. exact Hall.
  - intros Hnot.
    apply (@parse_tokens_found _ (cat :: words) [] tok);
      [|assumption|reflexivity].
    rewrite add_tokens_split, split_join by exact Hall.
    rewrite <- app_comm_cons. unfold without_command. now rewrite Hnot.
Qed.

(** X2. Once a command parses, what follows it after white space changes
    the result in one way only.  Tokens none of which is a URL are dropped:
    the result is the same.  A further URL becomes the url, and the title
    becomes every token that stood after the category, the old url
    included. *)
Theorem parse_add_args_trailing (text c t tok : str) (sp : N) :
  parse_add_args text = (Some c, Some t, Some tok) ->
  isspace sp = true ->
  (forall extra,
     forallb no_url (split extra) = true ->
     parse_add_args (text ++ sp :: extra) = (Some c, Some t, Some tok))
  /\ (forall tok2,
        is_token tok2 = true -> url_pattern_match tok2 = true ->
        parse_add_args (text ++ sp :: tok2)
        = (Some c, Some (join (u " ") (tl (add_tokens text))), Some tok2)).
Proof.
  intros Hp Hsp.
  destruct (parse_inv _ Hp) as (pre & post & E & Hurl & Hpost & -> & ->).
  assert (Hne : split text <> []).
  { intros E0. rewrite add_tokens_split, E0 in E. now destruct pre. }
  assert (Htoks : forall extra,
            add_tokens (text ++ sp :: extra)
            = pre ++ tok :: (post ++ split extra)).
  { intros extra.
    rewrite add_tokens_split, split_app, without_command_app by assumption.
    rewrite <- add_tokens_split, E, <- app_assoc. reflexivity. }
  split.
  - intros extra Hex.
    apply (@parse_tokens_found _ pre (post ++ split extra) tok);
      [apply Htoks | assumption |].
    now rewrite forallb_app, Hpost, Hex.
  - intros tok2 Ht2 Hu2.
    replace (hd tok pre) with (hd tok2 (pre ++ tok :: post))
      by (now destruct pre).
    rewrite E.
    apply (@parse_tokens_found _ (pre ++ tok :: post) [] tok2);
      [|assumption|reflexivity].
    rewrite Htoks, (split_one _ Ht2), <- app_assoc. reflexivity.
Qed.

Lemma add_tokens_tokens (text : str) :
  forallb is_token (add_tokens text) = true.
Proof.
  assert (H : Forall (fun x : str => x <> [] /\ forallb nonspace x = true)
                     (add_tokens text)).
  { rewrite add_tokens_split. pose proof (split_tokens text) as F.
    unfold without_command. destruct (split text) as [|t0 r]; [constructor|].
    destruct (startswith t0 (u "/add")); [now inversion F | assumption]. }
  apply forallb_forall. intros x Hx. rewrite Forall_forall in H.
  now apply is_token_spec, H.
Qed.

(* ================================================================== *)
(** * More on the handlers *)
(* ================================================================== *)

Section MoreHandlers.

Variable lower : str -> str.
Variable upper : str -> str.
Variable bot : list event -> response.

Lemma load_data_missing (w : World) :
  file w = None ->
  load_data w =
    (Raised (FileNotFoundError
               (DATA_FILE ++ u " not found. Create it from the template.")), w).
Proof. intros H. unfold load_data. now rewrite H. Qed.

(** X3. Without the data file every handler that reads it stops with
    [FileNotFoundError] before it does anything: no request, no reply, no
    log line.  [/add] reads the file only once its arguments parse: with
    arguments that do not parse it answers with the usage text even though
    the file is missing. *)
Theorem missing_data_file (w : World) :
  file w = None ->
  let err :=
    FileNotFoundError
      (DATA_FILE ++ u " not found. Create it from the template.") in
  ensure_channel_messages upper bot w = (Raised err, w)
  /\ refresh_command upper bot w = (Raised err, w)
  /\ list_command w = (Raised err, w)
  /\ info_command w = (Raised err, w)
  /\ (forall user raw category title tok,
        parse_add_args raw = (Some category, title, Some tok) ->
        add_command lower upper bot user raw w = (Raised err, w))
  /\ (forall user raw,
        parse_add_args raw = (None, None, None) ->
        add_command lower upper bot user raw w =
          (Returned tt, mkWorld None (trace w ++ [ReplyText USAGE false]))).
Proof.
  intros Hf err. pose proof (load_data_missing w Hf) as Hl. fold err in Hl.
  repeat split.
  - unfold ensure_channel_messages. now rewrite bind_run, Hl.
  - unfold refresh_command. now rewrite bind_run, Hl.
  - unfold list_command. now rewrite bind_run, Hl.
  - unfold info_command. now rewrite bind_run, Hl.
  - intros user raw category title tok Hp.
    destruct (parse_some _ Hp) as [Hc Ht].
    unfold add_command. rewrite Hp, Hc, Ht. cbn [negb orb]. cbv iota.
    now rewrite bind_run, Hl.
  - intros user raw Hp. unfold add_command. rewrite Hp. cbv iota.
    unfold reply_text, emit. now rewrite Hf.
Qed.

(** X4. The link that [/add] stores goes last in the links of the matched
    key.  Its url is a token that the URL pattern accepts; its [texto] is
    never empty, the title when one was given and the url otherwise, so the
    category message always shows it under that text; its [autor] is the
    user name, or the full name of a user without one. *)
Theorem add_command_stored_link (user : User) (raw : str) (w : World)
        (data : Doc) (category tok cat_key : str) (title : str)
        (rest : list str) (info : Category) :
  parse_add_args raw = (Some category, Some title, Some tok) ->
  file w = Some data ->
  matches lower data category = cat_key :: rest ->
  dict_get cat_key (categorias data) = Some info ->
  exists entry data' out later,
    add_command lower upper bot user raw w =
      (out, mkWorld (Some data') (trace w ++ SaveData data' :: later))
    /\ dict_get cat_key (categorias data')
       = Some (mkCategory (message_id info)
                          (Some (get_links info ++ [entry])))
    /\ url entry = tok
    /\ url_pattern_match tok = true /\ is_token tok = true
    /\ texto entry = (if truthy title then title else tok)
    /\ truthy (texto entry) = true
    /\ link_title entry = texto entry
    /\ autor entry = match username user with
                     | Some name => if truthy name then name
                                    else full_name user
                     | None => full_name user
                     end.
Proof.
  intros Hp Hf Hm Hg.
  destruct (add_command_stored lower upper bot user raw w Hp Hf Hm Hg)
    as [out [later [E _]]].
  destruct (parse_some _ Hp) as [_ Htok].
  destruct (parse_inv _ Hp) as (pre & post & Et & Hurl & _).
  assert (Htoken : is_token tok = true).
  { pose proof (add_tokens_tokens raw) as F. rewrite Et in F.
    rewrite forallb_token_app in F. apply andb_true_iff in F as [_ F].
    cbn [forallb] in F. now apply andb_true_iff in F as [F _]. }
  exists (new_entry user (Some title) tok),
         (with_link data cat_key info (new_entry user (Some title) tok)),
         out, later.
  split; [exact E|]. split; [apply dict_get_set_same|].
  split; [reflexivity|]. split; [assumption|]. split; [assumption|].
  split; [reflexivity|].
  assert (Htexto : truthy (texto (new_entry user (Some title) tok)) = true).
  { simpl. destruct (truthy title) eqn:Ht; assumption. }
  split; [exact Htexto|]. split; [|reflexivity].
  unfold link_title. now rewrite Htexto.
Qed.

End MoreHandlers.

(* ================================================================== *)
(** * The hint of [echo_handler] *)
(* ================================================================== *)

Lemma split_from_first (s cur tok : str) (r : list str) :
  cur <> [] -> split_from cur s = tok :: r ->
  exists x s', s = x ++ s' /\ tok = rev cur ++ x.
Proof.
  revert cur. induction s as [|c s IH]; intros cur Hne H; simpl in H.
  - destruct cur; [congruence|]. injection H as <- _.
    exists [], []. split; [reflexivity | now rewrite app_nil_r].
  - destruct (isspace c).
    + destruct cur; [congruence|]. injection H as <- _.
      exists [], (c :: s). split; [reflexivity | now rewrite app_nil_r].
    + assert (Hc : c :: cur <> []) by discriminate.
      destruct (IH (c :: cur) Hc H) as (x & s' & -> & ->).
      exists (c :: x), s'. simpl. now rewrite <- app_assoc.
Qed.

(** The text without its leading white space starts with its first token. *)
Lemma lstrip_first_token (s tok : str) (r : list str) :
  split s = tok :: r -> exists s', lstrip s = tok ++ s'.
Proof.
  unfold split. induction s as [|c s IH]; simpl; [discriminate|].
  destruct (isspace c) eqn:Hc; [exact IH|].
  intros H. assert (Hne : [c] <> []) by discriminate.
  destruct (split_from_first s Hne H) as (x & s' & -> & ->).
  now exists s'.
Qed.

Lemma lstrip_keeps_tail (x y : str) (d : N) :
  isspace d = false -> exists z, lstrip (x ++ d :: y) = z ++ d :: y.
Proof.
  intros Hd. induction x as [|c x IH]; simpl.
  - rewrite Hd. now exists [].
  - destruct (isspace c); [exact IH|]. now exists (c :: x).
Qed.

(** So does the stripped text. *)
Lemma strip_first_token (s tok : str) (r : list str) :
  split s = tok :: r -> exists s', strip s = tok ++ s'.
Proof.
  intros H. destruct (lstrip_first_token s H) as [s1 E].
  assert (Htok : is_token tok = true).
  { pose proof (split_tokens s) as F. rewrite H in F.
    inversion F; subst. now apply is_token_spec. }
  apply is_token_spec in Htok as [Hne Hns].
  unfold strip. rewrite E, rev_app_distr.
  destruct (rev tok) as [|d t'] eqn:Er.
  { exfalso. apply Hne. apply (f_equal (@rev N)) in Er.
    now rewrite rev_involutive in Er. }
  assert (Hd : isspace d = false).
  { rewrite forallb_forall in Hns. apply negb_true_iff, Hns, in_rev.
    rewrite Er. now left. }
  destruct (lstrip_keeps_tail (rev s1) t' d Hd) as [z Ez].
  rewrite Ez, rev_app_distr, <- Er, rev_involutive. now exists (rev z).
Qed.

(** X5. A message whose first token is a URL that [/add] would accept gets
    the hint of [echo_handler], and the command that the hint gives as its
    example is one that [parse_add_args] accepts: unless a later token of the
    message is itself a URL, it parses to the category ["Videos"], the title
    ["Video útil"] and that first token as the url. *)
Theorem echo_hint_parses (raw tok : str) (rest : list str) (w : World) :
  split raw = tok :: rest -> url_pattern_match tok = true ->
  let example := u "/add Videos Video útil " ++ strip raw in
  echo_handler raw w =
    (Returned tt,
     mkWorld (file w)
       (trace w
        ++ [ReplyText
              (u "Si quieres agregar este enlace, usa:" ++ NL
               ++ u "/add <Categoría> <Título opcional> <URL>" ++ NL
               ++ u "Ejemplo: " ++ example) false]))
  /\ (forallb no_url rest = true ->
      parse_add_args example
      = (Some (u "Videos"), Some (u "Video útil"), Some tok)).
Proof.
  intros Hs Hurl example.
  assert (Htok : is_token tok = true).
  { pose proof (split_tokens raw) as F. rewrite Hs in F.
    inversion F; subst. now apply is_token_spec. }
  split.
  - destruct (strip_first_token raw Hs) as [s' Es].
    apply is_token_spec in Htok as [_ Hns].
    apply (url_pattern_match_token tok Hns) in Hurl
      as [r [_ [-> | ->]]].
    + unfold echo_handler. cbv zeta. fold (strip raw).
      rewrite Es, <- app_assoc, startswith_app. cbn [orb].
      unfold example. rewrite Es, <- !app_assoc. reflexivity.
    + unfold echo_handler. cbv zeta.
      rewrite Es, <- !app_assoc, (startswith_app (u "https://")).
      rewrite orb_true_r.
      unfold example. rewrite Es, <- !app_assoc. reflexivity.
  - intros Hrest. unfold example.
    apply (@parse_tokens_found _ [u "Videos"; u "Video"; u "útil"] rest tok);
      [|assumption|assumption].
    rewrite add_tokens_split.
    change (u "/add Videos Video útil " ++ strip raw)
      with (u "/add Videos Video útil" ++ 32%N :: strip raw).
    rewrite split_app by reflexivity.
    rewrite split_strip, Hs. reflexivity.
Qed.

(* ================================================================== *)
(** * More on startup reconciliation *)
(* ================================================================== *)

Section MoreStartup.

Variable upper : str -> str.
Variable bot : list event -> response.

Lemma ensure_loop_noop (chat : str) (items : dict Category) (st : Doc * bool)
      (w : World) :
  forallb (fun item => field_truthy (message_id (snd item))) items = true ->
  for_each items (ensure_category upper bot chat) st w = (Returned st, w).
Proof.
  induction items as [|[cat info] items IH]; intros H; [reflexivity|].
  cbn [forallb snd] in H. apply andb_true_iff in H as [Hi Hr].
  cbn [for_each]. rewrite bind_run. unfold ensure_category at 1.
  destruct st as [data modified]. rewrite Hi. cbn [negb].
  unfold ret at 1. now apply IH.
Qed.

(** When every message id is set, startup has nothing to do. *)
Lemma ensure_noop (w : World) (data : Doc) :
  file w = Some data -> channel_set data = true -> all_ids_set data = true ->
  ensure_channel_messages upper bot w = (Returned tt, w).
Proof.
  intros Hf Hch Hall. unfold all_ids_set in Hall.
  apply andb_true_iff in Hall as [Hidx Hcats].
  unfold channel_set in Hch.
  unfold ensure_channel_messages. rewrite bind_run, (load_data_run w Hf).
  cbv zeta. destruct (channel_username data) as [channel|]; [|discriminate].
  rewrite Hch, Hidx. cbn [negb]. rewrite bind_run. unfold ret at 1.
  rewrite bind_run. cbn [fst]. rewrite ensure_loop_noop by assumption.
  reflexivity.
Qed.

(** The channel accepts every request and never answers with the id 0. *)
Hypothesis accepting :
  forall tr e, exists mid, bot (tr ++ [e]) = Done mid /\ mid <> 0%Z.

Lemma ensure_category_accepted (chat cat : str) (info : Category) (cur : Doc)
      (m : bool) (w : World) :
  dict_get cat (categorias cur) = Some info ->
  exists cur' m' w',
    ensure_category upper bot chat (cat, info) (cur, m) w
    = (Returned (cur', m'), w')
    /\ file w' = file w
    /\ (m = true -> m' = true)
    /\ (field_truthy (message_id info) = true -> cur' = cur /\ m' = m)
    /\ (field_truthy (message_id info) = false ->
        exists mid,
          mid <> 0%Z
          /\ cur' = set_categorias cur
                      (dict_set cat (mkCategory (Value mid) (links info))
                                (categorias cur))).
Proof.
  intros Hg. unfold ensure_category.
  destruct (field_truthy (message_id info)) eqn:Ht; cbn [negb].
  - exists cur, m, w. repeat split; auto; discriminate.
  - destruct (accepting (trace w)
                (SendMessage chat
                   (format_category_message upper cat (get_links info)) false))
      as [mid [Hb Hmid]].
    rewrite bind_run. unfold send_message, request. cbv zeta. rewrite Hb.
    rewrite bind_run. unfold set_message_id. rewrite bind_run.
    unfold get_category. rewrite Hg. unfold ret at 1. unfold ret at 1.
    rewrite bind_run. unfold logger, emit, ret.
    eexists. eexists. eexists. split; [reflexivity|].
    split; [reflexivity|]. split; [reflexivity|].
    split; [discriminate|]. intros _. exists mid. now split.
Qed.

(** The loop of startup under such a channel: it returns; every category it
    visits has its message id set afterwards; a category whose id was set
    is untouched, and no list of links changes. *)
Lemma ensure_loop_accepted (chat : str) (items : dict Category) :
  forall (cur : Doc) (m : bool) (w : World),
    NoDup (keys items) ->
    (forall cat info, In (cat, info) items ->
                      dict_get cat (categorias cur) = Some info) ->
    exists cur' m' w',
      for_each items (ensure_category upper bot chat) (cur, m) w
      = (Returned (cur', m'), w')
      /\ file w' = file w
      /\ channel_username cur' = channel_username cur
      /\ indice_message_id cur' = indice_message_id cur
      /\ keys (categorias cur') = keys (categorias cur)
      /\ (m = true -> m' = true)
      /\ (m' = false -> cur' = cur)
      /\ (forall cat c,
            dict_get cat (categorias cur) = Some c ->
            exists c',
              dict_get cat (categorias cur') = Some c'
              /\ links c' = links c
              /\ (field_truthy (message_id c) = true -> c' = c)
              /\ (In cat (keys items) -> field_truthy (message_id c') = true)
              /\ (~ In cat (keys items) -> c' = c)).
Proof.
  induction items as [|[cat info] items IH]; intros cur m w Hnd Hin.
  - exists cur, m, w. repeat split; auto.
    intros cat c Hc. exists c. repeat split; auto; intros [].
  - cbn [keys map fst] in Hnd. inversion Hnd as [|? ? Hnotin Hnd']; subst.
    assert (Hg : dict_get cat (categorias cur) = Some info)
      by (apply Hin; now left).
    destruct (@ensure_category_accepted chat cat info cur m w Hg)
      as (cur1 & m1 & w1 & E1 & Hf1 & Hm1 & Hset & Hunset).
    assert (Hother : forall cat', cat <> cat' ->
              dict_get cat' (categorias cur1) = dict_get cat' (categorias cur)).
    { intros cat' Hne.
      destruct (field_truthy (message_id info)) eqn:Ht.
      - now destruct (Hset eq_refl) as [-> _].
      - destruct (Hunset eq_refl) as [mid [_ ->]].
        now apply dict_get_set_other. }
    assert (Hin1 : forall cat' info', In (cat', info') items ->
              dict_get cat' (categorias cur1) = Some info').
    { intros cat' info' Hi. rewrite Hother; [apply Hin; now right|].
      intros ->. apply Hnotin. unfold keys.
      change cat' with (fst (cat', info')). now apply in_map. }
    destruct (IH cur1 m1 w1 Hnd' Hin1)
      as (cur' & m' & w' & E & Hf & Hch & Hidx & Hk & Hm & Hsame & Hcats).
    exists cur', m', w'. cbn [for_each]. rewrite bind_run, E1.
    split; [exact E|]. split; [congruence|].
    assert (Hshape : channel_username cur1 = channel_username cur
                     /\ indice_message_id cur1 = indice_message_id cur
                     /\ keys (categorias cur1) = keys (categorias cur)).
    { destruct (field_truthy (message_id info)) eqn:Ht.
      - now destruct (Hset eq_refl) as [-> _].
      - destruct (Hunset eq_refl) as [mid [_ ->]].
        repeat split. simpl. apply keys_dict_set.
        now apply dict_get_in_keys with (v := info). }
    destruct Hshape as (S1 & S2 & S3).
    split; [congruence|]. split; [congruence|]. split; [congruence|].
    split; [auto|]. split.
    { intros Hm'. rewrite (Hsame Hm').
      destruct (field_truthy (message_id info)) eqn:Ht.
      - now destruct (Hset eq_refl) as [-> _].
      - exfalso. destruct m1.
        + specialize (Hm eq_refl). congruence.
        + destruct (Hunset eq_refl) as [mid [_ Ecur1]].
          (* a pass that sends sets [modified] *)
          unfold ensure_category in E1. rewrite Ht in E1. cbn [negb] in E1.
          rewrite bind_run in E1. unfold send_message, request in E1.
          cbv zeta in E1.
          destruct (accepting (trace w)
                      (SendMessage chat
                         (format_category_message upper cat (get_links info))
                         false)) as [mid' [Hb _]].
          rewrite Hb in E1. rewrite bind_run in E1.
          unfold set_message_id in E1. rewrite bind_run in E1.
          unfold get_category in E1. rewrite Hg in E1.
          unfold ret at 1 in E1. unfold ret at 1 in E1.
          rewrite bind_run in E1. unfold logger, emit, ret in E1.
          injection E1 as _ Em _. discriminate Em. }
    intros cat0 c Hc.
    assert (H1 : exists c1,
               dict_get cat0 (categorias cur1) = Some c1
               /\ links c1 = links c
               /\ (field_truthy (message_id c) = true -> c1 = c)
               /\ (cat0 = cat -> field_truthy (message_id c1) = true)
               /\ (cat0 <> cat -> c1 = c)).
    { destruct (list_eq_dec N.eq_dec cat cat0) as [<- | Hne].
      - rewrite Hg in Hc. injection Hc as <-.
        destruct (field_truthy (message_id info)) eqn:Ht.
        + destruct (Hset eq_refl) as [-> _]. exists info.
          repeat split; auto.
        + destruct (Hunset eq_refl) as [mid [Hmid ->]].
          exists (mkCategory (Value mid) (links info)).
          split; [apply dict_get_set_same|]. split; [reflexivity|].
          split; [discriminate|]. split; [|congruence].
          intros _. simpl. unfold int_truthy.
          now apply negb_true_iff, Z.eqb_neq.
      - exists c. rewrite (Hother cat0 Hne).
        repeat split; auto; congruence. }
    destruct H1 as (c1 & Hc1 & L1 & T1 & In1 & Out1).
    destruct (Hcats cat0 c1 Hc1) as (c' & Hc' & L' & T' & In' & Out').
    exists c'. split; [exact Hc'|]. split; [congruence|]. split.
    { intros Ht. specialize (T1 Ht). subst c1. now apply T'. }
    split.
    + intros [<- | Hi]; [|now apply In'].
      rewrite Out' by exact Hnotin. now apply In1.
    + intros Hno.
      assert (cat0 <> cat) by (intros ->; apply Hno; now left).
      rewrite Out' by (intros Hi; apply Hno; now right).
      now apply Out1.
Qed.

Lemma startup_accepted (w : World) (data : Doc) :
  file w = Some data -> channel_set data = true -> dict_wf (categorias data) ->
  exists data' w1,
    ensure_channel_messages upper bot w = (Returned tt, w1)
    /\ file w1 = Some data'
    /\ all_ids_set data' = true
    /\ channel_username data' = channel_username data
    /\ keys (categorias data') = keys (categorias data)
    /\ (opt_int_truthy (indice_message_id data) = true ->
        indice_message_id data' = indice_message_id data)
    /\ (forall cat c,
          dict_get cat (categorias data) = Some c ->
          exists c',
            dict_get cat (categorias data') = Some c'
            /\ links c' = links c
            /\ (field_truthy (message_id c) = true -> c' = c)).
Proof.
  intros Hf Hch Hwf.
  assert (Hin : forall cat info, In (cat, info) (categorias data) ->
                                 dict_get cat (categorias data) = Some info)
    by (intros cat info; now apply dict_get_nodup).
  (* what the loop leaves, read as a whole document *)
  assert (Hall : forall d1 cur',
    categorias d1 = categorias data ->
    opt_int_truthy (indice_message_id cur') = true ->
    keys (categorias cur') = keys (categorias d1) ->
    (forall cat c,
        dict_get cat (categorias d1) = Some c ->
        exists c',
          dict_get cat (categorias cur') = Some c'
          /\ links c' = links c
          /\ (field_truthy (message_id c) = true -> c' = c)
          /\ (In cat (keys (categorias data)) ->
              field_truthy (message_id c') = true)
          /\ (~ In cat (keys (categorias data)) -> c' = c)) ->
    all_ids_set cur' = true).
  { intros d1 cur' Hc Hidx Hk Hcats. unfold all_ids_set. rewrite Hidx.
    cbn [andb]. apply forallb_forall. intros [k v] Hkv. cbn [snd].
    assert (Hnd' : NoDup (keys (categorias cur')))
      by (rewrite Hk, Hc; exact Hwf).
    pose proof (dict_get_nodup _ _ _ Hnd' Hkv) as Hg'.
    assert (Hk' : In k (keys (categorias data))).
    { rewrite <- Hc, <- Hk. unfold keys.
      change k with (fst (k, v)). now apply in_map. }
    destruct (in_keys_dict_get _ _ Hk') as [c0 Hc0].
    rewrite <- Hc in Hc0.
    destruct (Hcats k c0 Hc0) as (c' & Hc' & _ & _ & Ht & _).
    rewrite Hg' in Hc'. injection Hc' as <-. now apply Ht. }
  unfold channel_set in Hch.
  destruct (channel_username data) as [channel|] eqn:Ech; [|discriminate].
  unfold ensure_channel_messages. rewrite bind_run, (load_data_run w Hf).
  cbv zeta. rewrite Ech, Hch. cbn [negb]. rewrite bind_run.
  destruct (opt_int_truthy (indice_message_id data)) eqn:Hidx; cbn [negb].
  - unfold ret at 1. rewrite bind_run. cbn [fst].
    destruct (ensure_loop_accepted channel (categorias data) data false w
                Hwf Hin)
      as (cur' & m' & w' & E & Hfile & Hc & Hi & Hk & _ & Hsame & Hcats).
    rewrite E.
    assert (Hset : all_ids_set cur' = true).
    { apply (Hall data cur'); auto. now rewrite Hi. }
    assert (Hcats' : forall cat c,
              dict_get cat (categorias data) = Some c ->
              exists c',
                dict_get cat (categorias cur') = Some c'
                /\ links c' = links c
                /\ (field_truthy (message_id c) = true -> c' = c)).
    { intros cat c Hg. destruct (Hcats cat c Hg) as (c' & H1 & H2 & H3 & _).
      now exists c'. }
    destruct m'.
    + exists cur'. eexists. split; [reflexivity|]. cbn [file].
      split; [reflexivity|]. split; [exact Hset|].
      split; [congruence|]. split; [exact Hk|]. split; [auto|exact Hcats'].
    + exists cur', w'. split; [reflexivity|].
      split; [rewrite Hfile, Hf; now rewrite (Hsame eq_refl)|].
      split; [exact Hset|].
      split; [congruence|]. split; [exact Hk|]. split; [auto|exact Hcats'].
  - destruct (accepting (trace w) (SendMessage channel (format_index data) true))
      as [mid [Hb Hmid]].
    rewrite bind_run. unfold send_message, request. cbv zeta. rewrite Hb.
    rewrite bind_run. unfold logger at 1, emit at 1. unfold ret at 1.
    rewrite bind_run. cbn [fst file trace].
    assert (Hin1 : forall cat info,
               In (cat, info) (categorias (set_indice data mid)) ->
               dict_get cat (categorias (set_indice data mid)) = Some info)
      by exact Hin.
    assert (Hwf1 : NoDup (keys (categorias (set_indice data mid))))
      by exact Hwf.
    destruct (ensure_loop_accepted channel (categorias (set_indice data mid))
                (set_indice data mid) true
                (mkWorld (file w)
                   ((trace w ++ [SendMessage channel (format_index data) true])
                    ++ [Log INFO (u "Created index message id="
                                  ++ str_of_int mid)]))
                Hwf1 Hin1)
      as (cur' & m' & w' & E & Hfile & Hc & Hi & Hk & Hm & _ & Hcats).
    rewrite E. rewrite (Hm eq_refl).
    exists cur'. eexists. split; [reflexivity|]. cbn [file].
    split; [reflexivity|]. split.
    { apply (Hall (set_indice data mid) cur'); auto.
      rewrite Hi. simpl. unfold int_truthy.
      now apply negb_true_iff, Z.eqb_neq. }
    split; [rewrite Hc; simpl; congruence|]. split; [exact Hk|].
    split; [discriminate|].
    intros cat c Hg. destruct (Hcats cat c Hg) as (c' & H1 & H2 & H3 & _).
    now exists c'.
Qed.

(** X6. Startup is idempotent when the channel accepts every request and
    never answers with the id 0.  With the data file present, the channel
    name set and distinct category names, the first run returns and leaves
    a document in which the index and every category have their message
    id; it has the same channel name and the same categories in the same
    order, every list of links is as it was, and a category (or the index)
    that had its id keeps it.  A second run on the resulting world changes
    nothing: no request, no log line, no save. *)
Theorem startup_is_idempotent (w : World) (data : Doc) :
  file w = Some data -> channel_set data = true -> dict_wf (categorias data) ->
  exists data' w1,
    ensure_channel_messages upper bot w = (Returned tt, w1)
    /\ file w1 = Some data'
    /\ all_ids_set data' = true
    /\ channel_username data' = channel_username data
    /\ keys (categorias data') = keys (categorias data)
    /\ (opt_int_truthy (indice_message_id data) = true ->
        indice_message_id data' = indice_message_id data)
    /\ (forall cat c,
          dict_get cat (categorias data) = Some c ->
          exists c',
            dict_get cat (categorias data') = Some c'
            /\ links c' = links c
            /\ (field_truthy (message_id c) = true -> c' = c))
    /\ ensure_channel_messages upper bot w1 = (Returned tt, w1).
Proof.
  intros Hf Hch Hwf.
  destruct (@startup_accepted w data Hf Hch Hwf)
    as (data' & w1 & E & Hf1 & Hall & Hc & Hk & Hi & Hcats).
  exists data', w1. repeat (split; [assumption|]).
  apply ensure_noop with (data := data'); auto.
  unfold channel_set in *. now rewrite Hc.
Qed.

End MoreStartup.

Section StartupFailure.

Variable upper : str -> str.
Variable bot : list event -> response.

Lemma bind_raise_keeps {A B} (m : M A) (k : A -> M B) :
  keeps_file m ->
  (forall a w e, fst (k a w) = Raised e -> file (snd (k a w)) = file w) ->
  forall w e, fst (bind m k w) = Raised e -> file (snd (bind m k w)) = file w.
Proof.
  intros Hm Hk w e. rewrite bind_run. specialize (Hm w).
  destruct (m w) as [[a|e1] w1]; cbn [fst snd] in *.
  - intros H. now rewrite (Hk a w1 e H).
  - intros _. exact Hm.
Qed.

(** X7. Startup writes the data file only as its last step, so a run that
    ends in an exception has written nothing: the file is what it was,
    also when messages were created on the channel before the failure. *)
Theorem startup_raise_saves_nothing (w : World) (e : exn) :
  fst (ensure_channel_messages upper bot w) = Raised e ->
  file (snd (ensure_channel_messages upper bot w)) = file w.
Proof.
  revert w e. unfold ensure_channel_messages. apply bind_raise_keeps.
  { intros w. unfold load_data. destruct (file w) eqn:E; exact E. }
  intros data w e. cbv zeta.
  destruct (channel_username data) as [channel|]; [|intros _; reflexivity].
  destruct (negb (truthy channel)); [intros _; reflexivity|].
  revert w e. apply bind_raise_keeps.
  { destruct (negb (opt_int_truthy (indice_message_id data)));
      [|apply keeps_ret].
    apply keeps_bind; [apply keeps_send|]. intros mid.
    apply keeps_bind; [apply keeps_emit | intros; apply keeps_ret]. }
  intros st. apply bind_raise_keeps.
  { apply keeps_for_each. apply keeps_ensure_category. }
  intros [data' [|]] w2 e2 H; discriminate H.
Qed.

(** X8. Message ids obtained before a failure are lost.  With the channel
    name set, the index without a message and the first category without
    one: when the channel accepts the index message (answering [id1]) and
    refuses the message of the first category, startup ends in that
    Telegram error right after the refused request; the file still holds
    the document without the index id, although the index message now
    exists on the channel. *)
Theorem startup_failure_loses_index_id (w : World) (channel : str)
      (idx0 : option Z) (cat : str) (info : Category) (rest : dict Category)
      (id1 : Z) (err : str) :
  let data := mkDoc (Some channel) idx0 ((cat, info) :: rest) in
  let send_index := SendMessage channel (format_index data) true in
  let log_index :=
    Log INFO (u "Created index message id=" ++ str_of_int id1) in
  let send_cat :=
    SendMessage channel (format_category_message upper cat (get_links info))
                false in
  file w = Some data ->
  truthy channel = true ->
  opt_int_truthy idx0 = false ->
  field_truthy (message_id info) = false ->
  bot (trace w ++ [send_index]) = Done id1 ->
  bot (trace w ++ [send_index; log_index; send_cat]) = Failed err ->
  ensure_channel_messages upper bot w
  = (Raised (TelegramError err),
     mkWorld (Some data) (trace w ++ [send_index; log_index; send_cat])).
Proof.
  intros data send_index log_index send_cat Hf Hch Hidx Hinfo Hb1 Hb2.
  unfold ensure_channel_messages. rewrite bind_run, (load_data_run w Hf).
  cbv zeta. subst data. cbn [channel_username indice_message_id].
  rewrite Hch, Hidx. cbn [negb]. rewrite bind_run.
  rewrite bind_run. unfold send_message at 1, request at 1. cbv zeta.
  fold send_index. rewrite Hb1.
  rewrite bind_run. unfold logger at 1, emit at 1. unfold ret at 1.
  rewrite bind_run. cbn [fst file trace categorias set_indice for_each].
  rewrite bind_run. unfold ensure_category at 1. rewrite Hinfo. cbn [negb].
  rewrite bind_run. unfold send_message at 1, request at 1. cbv zeta.
  cbn [file trace]. fold log_index. fold send_cat.
  rewrite <- !app_assoc. cbn [app]. rewrite Hb2. rewrite Hf. reflexivity.
Qed.

End StartupFailure.

(* ================================================================== *)
(** * More on [/refresh] *)
(* ================================================================== *)

Section MoreRefresh.

Variable upper : str -> str.
Variable bot : list event -> response.

(** One pass of the first loop of [/refresh]: it never raises, makes one
    request, writes nothing, and changes the document only when the channel
    answers. *)
Lemma refresh_category_run (chat : str) (item : str * Category) (cur : Doc)
      (w : World) :
  exists cur' evs,
    refresh_category upper bot chat item cur w
    = (Returned cur', mkWorld (file w) (trace w ++ evs))
    /\ length (filter is_request evs) = 1
    /\ filter is_save evs = []
    /\ ((forall tr, exists err, bot tr = Failed err) -> cur' = cur).
Proof.
  destruct item as [cat info]. unfold refresh_category. cbv zeta.
  unfold try_except.
  destruct (opt_int_truthy (field_get (message_id info))).
  - rewrite bind_run. unfold edit_message_text. rewrite bind_run.
    unfold request. cbv zeta.
    destruct (bot (trace w ++
                   [EditMessageText chat (field_get (message_id info))
                      (format_category_message upper cat (get_links info))
                      false])) as [mid|err] eqn:Hb.
    + unfold ret. exists cur. eexists [_]. repeat split; reflexivity.
    + rewrite bind_run. unfold logger, emit, ret. cbn [file trace].
      exists cur. eexists [_; _]. rewrite <- app_assoc.
      repeat split; reflexivity.
  - rewrite bind_run. unfold send_message, request. cbv zeta.
    destruct (bot (trace w ++
                   [SendMessage chat
                      (format_category_message upper cat (get_links info))
                      false])) as [mid|err] eqn:Hb.
    + unfold set_message_id. rewrite bind_run. unfold get_category.
      destruct (dict_get cat (categorias cur)) as [info0|].
      * unfold ret. eexists. eexists [_]. split; [reflexivity|].
        split; [reflexivity|]. split; [reflexivity|].
        intros Hall. destruct (Hall (trace w ++
                   [SendMessage chat
                      (format_category_message upper cat (get_links info))
                      false])) as [err Herr].
        rewrite Hb in Herr. discriminate Herr.
      * unfold raise. rewrite bind_run. unfold logger, emit, ret.
        cbn [file trace]. exists cur. eexists [_; _]. rewrite <- app_assoc.
        repeat split; reflexivity.
    + rewrite bind_run. unfold logger, emit, ret. cbn [file trace].
      exists cur. eexists [_; _]. rewrite <- app_assoc.
      repeat split; reflexivity.
Qed.

Lemma refresh_loop_run (chat : str) (items : dict Category) :
  forall (cur : Doc) (w : World),
    exists cur' evs,
      for_each items (refresh_category upper bot chat) cur w
      = (Returned cur', mkWorld (file w) (trace w ++ evs))
      /\ length (filter is_request evs) = length items
      /\ filter is_save evs = []
      /\ ((forall tr, exists err, bot tr = Failed err) -> cur' = cur).
Proof.
  induction items as [|item items IH]; intros cur w.
  - exists cur, []. rewrite app_nil_r. destruct w. repeat split; reflexivity.
  - destruct (refresh_category_run chat item cur w)
      as (cur1 & ev1 & E1 & R1 & S1 & F1).
    destruct (IH cur1 (mkWorld (file w) (trace w ++ ev1)))
      as (cur' & ev2 & E2 & R2 & S2 & F2).
    exists cur', (ev1 ++ ev2). cbn [for_each]. rewrite bind_run, E1, E2.
    cbn [file trace]. rewrite <- app_assoc. split; [reflexivity|].
    rewrite !filter_app, length_app, R1, R2, S1, S2.
    split; [reflexivity|]. split; [reflexivity|].
    intros Hall. rewrite (F2 Hall). now apply F1.
Qed.

(** X9. [/refresh] always completes.  With the data file present and the
    channel name set, whatever the channel answers, the command returns; it
    makes one request per category and one for the index, then writes the
    file once and replies that the channel was regenerated, in this order
    and as its last two events.  When the channel refuses every request,
    the document written is the one read, and the reply is the same. *)
Theorem refresh_always_completes (w : World) (data : Doc) (channel : str) :
  file w = Some data ->
  channel_username data = Some channel -> truthy channel = true ->
  exists data' evs,
    refresh_command upper bot w
    = (Returned tt,
       mkWorld (Some data')
               (trace w ++ evs
                ++ [SaveData data';
                    ReplyText (u "Canal regenerado ✅") false]))
    /\ length (filter is_request evs) = S (length (categorias data))
    /\ filter is_save evs = []
    /\ ((forall tr, exists err, bot tr = Failed err) -> data' = data).
Proof.
  intros Hf Hch Ht.
  unfold refresh_command. rewrite bind_run, (load_data_run w Hf). cbv zeta.
  rewrite Hch, Ht. cbn [negb]. rewrite bind_run.
  destruct (refresh_loop_run channel (categorias data) data w)
    as (data1 & ev1 & E1 & R1 & S1 & F1).
  rewrite E1. rewrite bind_run. unfold try_except.
  destruct (opt_int_truthy (indice_message_id data1)).
  - rewrite bind_run. unfold edit_message_text. rewrite bind_run.
    unfold request. cbv zeta. cbn [file trace].
    destruct (bot ((trace w ++ ev1) ++
                   [EditMessageText channel (indice_message_id data1)
                      (format_index data1) true])) as [mid|err] eqn:Hb.
    + unfold ret at 1. unfold ret at 1. rewrite bind_run.
      unfold save_data, reply_text, emit. cbn [file trace].
      exists data1. eexists (ev1 ++ [_]). rewrite <- !app_assoc. cbn [app].
      split; [reflexivity|].
      rewrite !filter_app, length_app, R1, S1. cbn.
      split; [now rewrite Nat.add_1_r|]. split; [reflexivity|exact F1].
    + rewrite bind_run. unfold logger at 1, emit at 1. unfold ret at 1.
      rewrite bind_run. unfold save_data, reply_text, emit.
      cbn [file trace].
      exists data1. eexists (ev1 ++ [_; _]). rewrite <- !app_assoc.
      cbn [app]. split; [reflexivity|].
      rewrite !filter_app, length_app, R1, S1. cbn.
      split; [now rewrite Nat.add_1_r|]. split; [reflexivity|exact F1].
  - rewrite bind_run. unfold send_message, request. cbv zeta.
    cbn [file trace].
    destruct (bot ((trace w ++ ev1) ++
                   [SendMessage channel (format_index data1) true]))
      as [mid|err] eqn:Hb.
    + unfold ret at 1. rewrite bind_run.
      unfold save_data, reply_text, emit. cbn [file trace].
      exists (set_indice data1 mid). eexists (ev1 ++ [_]).
      rewrite <- !app_assoc. cbn [app]. split; [reflexivity|].
      rewrite !filter_app, length_app, R1, S1. cbn.
      split; [now rewrite Nat.add_1_r|]. split; [reflexivity|].
      intros Hall.
      destruct (Hall ((trace w ++ ev1) ++
                      [SendMessage channel (format_index data1) true]))
        as [err Herr].
      rewrite Hb in Herr. discriminate Herr.
    + rewrite bind_run. unfold logger at 1, emit at 1. unfold ret at 1.
      rewrite bind_run. unfold save_data, reply_text, emit.
      cbn [file trace].
      exists data1. eexists (ev1 ++ [_; _]). rewrite <- !app_assoc.
      cbn [app]. split; [reflexivity|].
      rewrite !filter_app, length_app, R1, S1. cbn.
      split; [now rewrite Nat.add_1_r|]. split; [reflexivity|exact F1].
Qed.

End MoreRefresh.

(* ================================================================== *)
(** * The reports: [/list] and [/info] *)
(* ================================================================== *)

Lemma dict_set_split {V} (k : str) (v v' : V) (d : dict V) :
  dict_get k d = Some v ->
  exists pre post,
    d = pre ++ (k, v) :: post
    /\ ~ In k (keys pre)
    /\ dict_set k v' d = pre ++ (k, v') :: post.
Proof.
  induction d as [|[k0 v0] d IH]; simpl; [discriminate|].
  destruct (str_eqb k0 k) eqn:E.
  - apply str_eqb_eq in E. subst k0. intros H. injection H as ->.
    exists [], d. simpl. auto.
  - intros H. destruct (IH H) as (pre & post & -> & Hno & ->).
    exists ((k0, v0) :: pre), post. simpl. repeat split; auto.
    intros [-> | Hin]; [|contradiction].
    now rewrite str_eqb_refl in E.
Qed.

Lemma list_step_fold (cats : dict Category) :
  forall init, fold_left list_step cats init = init ++ map list_line cats.
Proof.
  induction cats as [|[cat info] cats IH]; intros init; simpl.
  - now rewrite app_nil_r.
  - rewrite IH. unfold list_line at 1. cbn [fst snd].
    now rewrite <- app_assoc.
Qed.

Lemma list_command_run (w : World) (data : Doc) :
  file w = Some data ->
  list_command w
  = (Returned tt,
     mkWorld (file w)
       (trace w
        ++ [ReplyText
              (join NL ((u "📚 <b>Categorías disponibles:</b>" ++ NL)
                        :: map list_line (categorias data))) true])).
Proof.
  intros Hf. unfold list_command. rewrite bind_run, (load_data_run w Hf).
  cbv zeta. rewrite list_step_fold. reflexivity.
Qed.

Lemma info_command_run (w : World) (data : Doc) :
  file w = Some data ->
  info_command w
  = (Returned tt,
     mkWorld (file w)
       (trace w
        ++ [ReplyText
              (info_text (or_else (channel_username data)
                                  (u "No configurado (usa data.json)"))
                         (length (categorias data)) (total_links data))
              false])).
Proof.
  intros Hf. unfold info_command. rewrite bind_run, (load_data_run w Hf).
  reflexivity.
Qed.

Lemma total_links_app (c : option str) (i : option Z) (a b : dict Category) :
  total_links (mkDoc c i (a ++ b))
  = total_links (mkDoc c i a) + total_links (mkDoc c i b).
Proof.
  unfold total_links. cbn [categorias].
  now rewrite map_app, list_sum_app.
Qed.

Section Reports.

Variables lower upper : str -> str.
Variable bot : list event -> response.

(** X10. The reports follow a stored link.  When [/add] finds its category,
    [/info] afterwards reports the same channel and the same number of
    categories and one link more in total; the reply of [/list] is the one
    from before with the count in the line of the matched key raised by
    one, every other line being the same.  Both reports are a single reply
    and change nothing. *)
Theorem reports_after_add (user : User) (raw : str) (w : World) (data : Doc)
        (category tok cat_key : str) (title : option str) (rest : list str)
        (info : Category) :
  parse_add_args raw = (Some category, title, Some tok) ->
  file w = Some data ->
  matches lower data category = cat_key :: rest ->
  dict_get cat_key (categorias data) = Some info ->
  let w1 := snd (add_command lower upper bot user raw w) in
  let channel :=
    or_else (channel_username data) (u "No configurado (usa data.json)") in
  let header := u "📚 <b>Categorías disponibles:</b>" ++ NL in
  let n := length (get_links info) in
  info_command w
  = (Returned tt,
     mkWorld (file w)
       (trace w
        ++ [ReplyText (info_text channel (length (categorias data))
                                 (total_links data)) false]))
  /\ info_command w1
     = (Returned tt,
        mkWorld (file w1)
          (trace w1
           ++ [ReplyText (info_text channel (length (categorias data))
                                    (S (total_links data))) false]))
  /\ exists pre post,
       categorias data = pre ++ (cat_key, info) :: post
       /\ list_command w
          = (Returned tt,
             mkWorld (file w)
               (trace w
                ++ [ReplyText
                      (join NL
                         (header
                          :: map list_line pre
                          ++ (u "• <b>" ++ cat_key ++ u "</b> — "
                              ++ str_of_len n ++ u " enlaces")
                          :: map list_line post)) true]))
       /\ list_command w1
          = (Returned tt,
             mkWorld (file w1)
               (trace w1
                ++ [ReplyText
                      (join NL
                         (header
                          :: map list_line pre
                          ++ (u "• <b>" ++ cat_key ++ u "</b> — "
                              ++ str_of_len (S n) ++ u " enlaces")
                          :: map list_line post)) true])).
Proof.
  intros Hp Hf Hm Hg w1 channel header n.
  destruct (add_command_stored lower upper bot user raw w Hp Hf Hm Hg)
    as (out & later & Hrun & _).
  assert (Hf1 : file w1
                = Some (with_link data cat_key info (new_entry user title tok)))
    by (subst w1; now rewrite Hrun).
  destruct (dict_set_split cat_key
              (append_link info (new_entry user title tok)) _ Hg)
    as (pre & post & Hd & _ & Hs).
  assert (Hlen : length (get_links
                           (append_link info (new_entry user title tok)))
                 = S n).
  { unfold append_link, get_links at 1. cbn [links].
    rewrite length_app. cbn [length]. subst n. now rewrite Nat.add_1_r. }
  split; [now apply info_command_run|]. split.
  - rewrite (info_command_run w1 Hf1). unfold with_link.
    cbn [channel_username set_categorias categorias]. rewrite Hs.
    fold channel.
    replace (length (pre ++ (cat_key, append_link info
                                        (new_entry user title tok)) :: post))
      with (length (categorias data))
      by (rewrite Hd, !length_app; reflexivity).
    replace (total_links
               (set_categorias data
                  (pre ++ (cat_key, append_link info
                                      (new_entry user title tok)) :: post)))
      with (S (total_links data)); [reflexivity|].
    unfold set_categorias.
    destruct data as [c i cats]. cbn [categorias channel_username
                                      indice_message_id] in *.
    subst cats. rewrite !total_links_app.
    change ((cat_key, info) :: post) with ([(cat_key, info)] ++ post).
    change ((cat_key, append_link info (new_entry user title tok)) :: post)
      with ([(cat_key, append_link info (new_entry user title tok))] ++ post).
    rewrite !total_links_app.
    unfold total_links at 2 5. cbn [categorias map snd list_sum].
    unfold list_sum. cbn [fold_right]. rewrite Hlen. subst n. lia.
  - exists pre, post. split; [exact Hd|]. split.
    + rewrite (list_command_run w Hf), Hd, map_app. cbn [map].
      unfold list_line at 2. cbn [fst snd]. reflexivity.
    + rewrite (list_command_run w1 Hf1). unfold with_link.
      cbn [set_categorias categorias]. rewrite Hs, map_app. cbn [map].
      unfold list_line at 2. cbn [fst snd]. rewrite Hlen. reflexivity.
Qed.

End Reports.

(* ================================================================== *)
(** * Category names that differ only in case *)
(* ================================================================== *)

Lemma nodup_split_unique {A} (x : A) (a b a' b' : list A) :
  NoDup (a ++ x :: b) -> a ++ x :: b = a' ++ x :: b' -> a = a'.
Proof.
  revert a'. induction a as [|y a IH]; intros a' Hnd E.
  - destruct a' as [|y' a']; [reflexivity|].
    simpl in *. injection E as <- ->. inversion Hnd as [|? ? Hno _]; subst.
    exfalso. apply Hno. apply in_or_app. right. now left.
  - destruct a' as [|y' a'].
    + simpl in *. injection E as -> <-. inversion Hnd as [|? ? Hno _]; subst.
      exfalso. apply Hno. apply in_or_app. right. now left.
    + simpl in *. injection E as <- E. inversion Hnd; subst.
      f_equal. now apply IH.
Qed.

Section Shadowed.

Variables lower upper : str -> str.
Variable bot : list event -> response.

Lemma add_keeps_shadowed (user : User) (raw : str) (w : World) (data : Doc)
      (k1 k2 : str) (pre mid post : list str) (c2 : Category) :
  file w = Some data ->
  dict_wf (categorias data) ->
  keys (categorias data) = pre ++ k1 :: mid ++ k2 :: post ->
  lower k1 = lower k2 ->
  dict_get k2 (categorias data) = Some c2 ->
  exists data',
    file (snd (add_command lower upper bot user raw w)) = Some data'
    /\ keys (categorias data') = keys (categorias data)
    /\ dict_get k2 (categorias data') = Some c2.
Proof.
  intros Hf Hwf Hk Hl Hg2.
  assert (Hsame : exists data', file w = Some data'
                    /\ keys (categorias data') = keys (categorias data)
                    /\ dict_get k2 (categorias data') = Some c2)
    by (exists data; auto).
  destruct (parse_add_args raw) as [[c title] tk] eqn:Hp.
  destruct c as [category|], tk as [tok|];
    try (unfold add_command; rewrite Hp; exact Hsame).
  destruct (matches lower data category) as [|k rest] eqn:Hm.
  - rewrite (add_command_not_found lower upper bot user raw w Hp Hf Hm).
    exact Hsame.
  - pose proof (matches_in_keys _ _ _ Hm) as Hin.
    destruct (in_keys_dict_get _ _ Hin) as [info Hg].
    destruct (add_command_stored lower upper bot user raw w Hp Hf Hm Hg)
      as [out [later [E _]]].
    rewrite E. eexists. split; [reflexivity|]. unfold with_link. simpl.
    split; [now apply keys_dict_set|].
    rewrite dict_get_set_other; [exact Hg2|].
    intros ->. unfold matches in Hm.
    destruct (filter_first _ _ Hm) as (pre' & post' & Hk' & Hfk & Hpre & _).
    apply str_eqb_eq in Hfk.
    assert (Epre : pre ++ k1 :: mid = pre').
    { apply nodup_split_unique with (x := k2) (b := post) (b' := post').
      - rewrite <- app_assoc. cbn [app]. rewrite <- Hk. exact Hwf.
      - rewrite <- app_assoc. cbn [app]. now rewrite <- Hk. }
    subst pre'. rewrite Forall_forall in Hpre.
    assert (H1 : str_eqb (lower k1) (lower category) = false).
    { apply Hpre. apply in_or_app. right. now left. }
    apply str_eqb_neq in H1. congruence.
Qed.

(** X11. A category whose name, in lower case, equals that of a category
    earlier in the mapping can never receive a link: [/add] takes the first
    match in mapping order.  With distinct keys, after any series of [/add]
    commands from any users and whatever the channel answers, the record
    under the later key is the one it was. *)
Theorem shadowed_category_never_grows (adds : list (User * str)) (w : World)
        (data : Doc) (k1 k2 : str) (pre mid post : list str) (c2 : Category) :
  file w = Some data ->
  dict_wf (categorias data) ->
  keys (categorias data) = pre ++ k1 :: mid ++ k2 :: post ->
  lower k1 = lower k2 ->
  dict_get k2 (categorias data) = Some c2 ->
  exists data',
    file (run_all lower upper bot
            (map (fun a => Add (fst a) (snd a)) adds) w) = Some data'
    /\ keys (categorias data') = keys (categorias data)
    /\ dict_get k2 (categorias data') = Some c2.
Proof.
  revert w data. induction adds as [|[user raw] adds IH];
    intros w data Hf Hwf Hk Hl Hg2.
  - exists data. auto.
  - destruct (add_keeps_shadowed user raw w _ _ _ Hf Hwf Hk Hl Hg2)
      as (data1 & Hf1 & Hk1 & Hg1).
    cbn [map run_all run_operation fst snd].
    assert (Hwf1 : dict_wf (categorias data1))
      by (unfold dict_wf; now rewrite Hk1).
    rewrite <- Hk1 in Hk.
    destruct (IH _ _ Hf1 Hwf1 Hk Hl Hg1) as (data' & Hf' & Hk' & Hg').
    exists data'. split; [exact Hf'|]. split; [congruence|exact Hg'].
Qed.

End Shadowed.

(* ================================================================== *)
(** * When [/add] completes *)
(* ================================================================== *)

Lemma dict_get_in {V} (k : str) (v : V) (d : dict V) :
  dict_get k d = Some v -> In (k, v) d.
Proof.
  induction d as [|[k0 v0] d IH]; simpl; [discriminate|].
  destruct (str_eqb k0 k) eqn:E.
  - apply str_eqb_eq in E. subst k0. intros H. injection H as ->. now left.
  - intros H. right. now apply IH.
Qed.

Section AddCompletes.

Variables lower upper : str -> str.
Variable bot : list event -> response.

(** X12. Without a channel name (absent, null or empty) [/add] still stores
    the link: when the category is found the command writes the document
    with the link appended and replies with the confirmation, and it makes
    no request to the channel; a record without the [message_id] key is no
    obstacle here. *)
Theorem add_command_without_channel (user : User) (raw : str) (w : World)
        (data : Doc) (category tok cat_key : str) (title : option str)
        (rest : list str) (info : Category) :
  parse_add_args raw = (Some category, title, Some tok) ->
  file w = Some data ->
  matches lower data category = cat_key :: rest ->
  dict_get cat_key (categorias data) = Some info ->
  channel_set data = false ->
  let data' := with_link data cat_key info (new_entry user title tok) in
  add_command lower upper bot user raw w
  = (Returned tt,
     mkWorld (Some data')
       (trace w ++ [SaveData data'; ReplyText (added_text cat_key) true])).
Proof.
  intros Hp Hf Hm Hg Hch data'.
  rewrite (add_command_saved lower upper bot user raw w Hp Hf Hm Hg).
  fold data'. change (channel_username data') with (channel_username data).
  unfold channel_set in Hch.
  destruct (channel_username data) as [channel|]; [rewrite Hch|];
    rewrite bind_run; unfold ret, reply_text, emit; cbn [file trace];
    now rewrite <- app_assoc.
Qed.

Lemma add_returns_keyed (user : User) (raw : str) (w : World) (data : Doc) :
  file w = Some data ->
  (forall k c, dict_get k (categorias data) = Some c ->
               message_id c <> Missing) ->
  fst (add_command lower upper bot user raw w) = Returned tt.
Proof.
  intros Hf Hkeys.
  destruct (parse_add_args raw) as [[c title] tk] eqn:Hp.
  destruct c as [category|], tk as [tok|];
    try (unfold add_command; rewrite Hp; reflexivity).
  destruct (matches lower data category) as [|k rest] eqn:Hm.
  - now rewrite (add_command_not_found lower upper bot user raw w Hp Hf Hm).
  - destruct (in_keys_dict_get _ _ (matches_in_keys _ _ _ Hm)) as [info Hg].
    destruct (channel_set data) eqn:Hset; unfold channel_set in Hset.
    + destruct (channel_username data) as [channel|] eqn:Hch; [|discriminate].
      destruct (add_command_found_cases lower upper bot user raw w
                  Hp Hf Hm Hg Hch Hset) as [_ Hrun].
      now rewrite (Hrun (Hkeys _ _ Hg)).
    + rewrite (add_command_saved lower upper bot user raw w Hp Hf Hm Hg).
      change (channel_username
                (with_link data k info (new_entry user title tok)))
        with (channel_username data).
      destruct (channel_username data) as [channel|]; [rewrite Hset|];
        reflexivity.
Qed.


(** X14. Startup establishes what [/add] needs.  When the channel accepts
    every request and never answers with the id 0, the data file is present
    with the channel name set and distinct category names, then after the
    startup reconciliation every [/add] returns: the [KeyError] of a record
    without [message_id] cannot happen any more. *)
Theorem add_after_startup_returns (user : User) (raw : str) (w : World)
        (data : Doc) :
  (forall tr e, exists mid, bot (tr ++ [e]) = Done mid /\ mid <> 0%Z) ->
  file w = Some data -> channel_set data = true -> dict_wf (categorias data) ->
  fst (ensure_channel_messages upper bot w) = Returned tt
  /\ fst (add_command lower upper bot user raw
            (snd (ensure_channel_messages upper bot w))) = Returned tt.
Proof.
  intros Hacc Hf Hch Hwf.
  destruct (@startup_accepted upper bot Hacc w data Hf Hch Hwf)
    as (data' & w1 & E & Hf1 & Hall & _).
  rewrite E. cbn [fst snd]. split; [reflexivity|].
  apply add_returns_keyed with (data := data'); [exact Hf1|].
  intros k c Hg Hmiss. unfold all_ids_set in Hall.
  apply andb_true_iff in Hall as [_ Hall].
  rewrite forallb_forall in Hall.
  specialize (Hall (k, c) (dict_get_in _ _ Hg)). cbn [snd] in Hall.
  rewrite Hmiss in Hall. discriminate Hall.
Qed.

End AddCompletes.

(* ================================================================== *)
(** * Repeating [/add]; [/refresh] without a channel *)
(* ================================================================== *)

Section Repeats.

Variables lower upper : str -> str.
Variable bot : list event -> response.

(** X15. [/add] does not look for duplicates.  When the category is found,
    sending the same message twice stores the same link twice: after the
    second run the links of the matched key are the old links followed by
    two equal entries, whatever the channel answered in between. *)
Theorem add_command_twice (user : User) (raw : str) (w : World) (data : Doc)
        (category tok cat_key : str) (title : option str) (rest : list str)
        (info : Category) :
  parse_add_args raw = (Some category, title, Some tok) ->
  file w = Some data ->
  matches lower data category = cat_key :: rest ->
  dict_get cat_key (categorias data) = Some info ->
  let entry := new_entry user title tok in
  let w1 := snd (add_command lower upper bot user raw w) in
  let w2 := snd (add_command lower upper bot user raw w1) in
  exists data2 info2,
    file w2 = Some data2
    /\ keys (categorias data2) = keys (categorias data)
    /\ dict_get cat_key (categorias data2) = Some info2
    /\ message_id info2 = message_id info
    /\ get_links info2 = get_links info ++ [entry; entry].
Proof.
  intros Hp Hf Hm Hg entry w1 w2.
  destruct (add_command_stored lower upper bot user raw w Hp Hf Hm Hg)
    as (out1 & later1 & E1 & _).
  fold entry in E1.
  assert (Hf1 : file w1 = Some (with_link data cat_key info entry))
    by (subst w1; now rewrite E1).
  assert (Hk1 : keys (categorias (with_link data cat_key info entry))
                = keys (categorias data)).
  { unfold with_link. simpl. apply keys_dict_set.
    now apply dict_get_in_keys with (v := info). }
  assert (Hm1 : matches lower (with_link data cat_key info entry) category
                = cat_key :: rest)
    by (unfold matches in *; now rewrite Hk1).
  assert (Hg1 : dict_get cat_key (categorias (with_link data cat_key info entry))
                = Some (append_link info entry))
    by (unfold with_link; simpl; apply dict_get_set_same).
  destruct (add_command_stored lower upper bot user raw w1 Hp Hf1 Hm1 Hg1)
    as (out2 & later2 & E2 & _).
  fold entry in E2.
  exists (with_link (with_link data cat_key info entry) cat_key
                    (append_link info entry) entry),
         (append_link (append_link info entry) entry).
  split; [subst w2; now rewrite E2|]. split.
  { unfold with_link at 1. simpl. rewrite keys_dict_set; [exact Hk1|].
    now apply dict_get_in_keys with (v := append_link info entry). }
  split; [unfold with_link at 1; simpl; apply dict_get_set_same|].
  split; [reflexivity|].
  unfold append_link, get_links at 1. cbn [links].
  unfold get_links at 1. cbn [links]. now rewrite <- app_assoc.
Qed.

(** X16. Without a channel name (absent, null or empty) [/refresh] does
    nothing but reply that the channel is not configured: no request, no
    save. *)
Theorem refresh_without_channel (w : World) (data : Doc) :
  file w = Some data -> channel_set data = false ->
  refresh_command upper bot w
  = (Returned tt,
     mkWorld (Some data)
       (trace w
        ++ [ReplyText (u "channel_username no está configurado en data.json. Edita el archivo y pon el @username del canal.") false])).
Proof.
  intros Hf Hch. unfold refresh_command.
  rewrite bind_run, (load_data_run w Hf). cbv zeta.
  unfold channel_set in Hch.
  destruct (channel_username data) as [channel|]; [rewrite Hch|];
    cbn [negb]; unfold reply_text, emit; now rewrite Hf.
Qed.

End Repeats.

(* ================================================================== *)
(** * [/refresh] repairs what startup would *)
(* ================================================================== *)

Lemma all_ids_by_key (data : Doc) :
  dict_wf (categorias data) ->
  opt_int_truthy (indice_message_id data) = true ->
  (forall k c, dict_get k (categorias data) = Some c ->
               field_truthy (message_id c) = true) ->
  all_ids_set data = true.
Proof.
  intros Hwf Hidx Hcats. unfold all_ids_set. rewrite Hidx. cbn [andb].
  apply forallb_forall. intros [k v] Hkv. cbn [snd].
  apply (Hcats k). now apply dict_get_nodup.
Qed.

Section RefreshRepairs.

Variable upper : str -> str.
Variable bot : list event -> response.

(** The channel accepts every request and never answers with the id 0. *)
Hypothesis accepting :
  forall tr e, exists mid, bot (tr ++ [e]) = Done mid /\ mid <> 0%Z.

Lemma refresh_category_accepted (chat cat : str) (info : Category)
      (cur : Doc) (w : World) :
  dict_get cat (categorias cur) = Some info ->
  exists cur' evs,
    refresh_category upper bot chat (cat, info) cur w
    = (Returned cur', mkWorld (file w) (trace w ++ evs))
    /\ filter is_save evs = []
    /\ (field_truthy (message_id info) = true -> cur' = cur)
    /\ (field_truthy (message_id info) = false ->
        exists mid,
          mid <> 0%Z
          /\ cur' = set_categorias cur
                      (dict_set cat (mkCategory (Value mid) (links info))
                                (categorias cur))).
Proof.
  intros Hg. unfold refresh_category. cbv zeta. rewrite field_get_truthy.
  unfold try_except.
  destruct (field_truthy (message_id info)) eqn:Ht.
  - destruct (accepting (trace w)
                (EditMessageText chat (field_get (message_id info))
                   (format_category_message upper cat (get_links info)) false))
      as [mid [Hb _]].
    rewrite bind_run. unfold edit_message_text. rewrite bind_run.
    unfold request. cbv zeta. rewrite Hb. unfold ret.
    exists cur. eexists [_]. split; [reflexivity|]. split; [reflexivity|].
    split; [reflexivity|discriminate].
  - destruct (accepting (trace w)
                (SendMessage chat
                   (format_category_message upper cat (get_links info)) false))
      as [mid [Hb Hmid]].
    rewrite bind_run. unfold send_message, request. cbv zeta. rewrite Hb.
    unfold set_message_id. rewrite bind_run. unfold get_category.
    rewrite Hg. unfold ret.
    eexists. eexists [_]. split; [reflexivity|]. split; [reflexivity|].
    split; [discriminate|]. intros _. exists mid. now split.
Qed.

Lemma refresh_loop_accepted (chat : str) (items : dict Category) :
  forall (cur : Doc) (w : World),
    NoDup (keys items) ->
    (forall cat info, In (cat, info) items ->
                      dict_get cat (categorias cur) = Some info) ->
    exists cur' evs,
      for_each items (refresh_category upper bot chat) cur w
      = (Returned cur', mkWorld (file w) (trace w ++ evs))
      /\ filter is_save evs = []
      /\ channel_username cur' = channel_username cur
      /\ indice_message_id cur' = indice_message_id cur
      /\ keys (categorias cur') = keys (categorias cur)
      /\ (forall cat c,
            dict_get cat (categorias cur) = Some c ->
            exists c',
              dict_get cat (categorias cur') = Some c'
              /\ links c' = links c
              /\ (field_truthy (message_id c) = true -> c' = c)
              /\ (In cat (keys items) -> field_truthy (message_id c') = true)
              /\ (~ In cat (keys items) -> c' = c)).
Proof.
  induction items as [|[cat info] items IH]; intros cur w Hnd Hin.
  - exists cur, []. rewrite app_nil_r. destruct w. repeat split; auto.
    intros cat c Hc. exists c. repeat split; auto; intros [].
  - cbn [keys map fst] in Hnd. inversion Hnd as [|? ? Hnotin Hnd']; subst.
    assert (Hg : dict_get cat (categorias cur) = Some info)
      by (apply Hin; now left).
    destruct (@refresh_category_accepted chat cat info cur w Hg)
      as (cur1 & ev1 & E1 & S1 & Hset & Hunset).
    assert (Hother : forall cat', cat <> cat' ->
              dict_get cat' (categorias cur1) = dict_get cat' (categorias cur)).
    { intros cat' Hne.
      destruct (field_truthy (message_id info)) eqn:Ht.
      - now rewrite (Hset eq_refl).
      - destruct (Hunset eq_refl) as [mid [_ ->]].
        now apply dict_get_set_other. }
    assert (Hin1 : forall cat' info', In (cat', info') items ->
              dict_get cat' (categorias cur1) = Some info').
    { intros cat' info' Hi. rewrite Hother; [apply Hin; now right|].
      intros ->. apply Hnotin. unfold keys.
      change cat' with (fst (cat', info')). now apply in_map. }
    destruct (IH cur1 (mkWorld (file w) (trace w ++ ev1)) Hnd' Hin1)
      as (cur' & ev2 & E & S2 & Hch & Hidx & Hk & Hcats).
    exists cur', (ev1 ++ ev2). cbn [for_each]. rewrite bind_run, E1, E.
    cbn [file trace]. rewrite <- app_assoc. split; [reflexivity|].
    split; [now rewrite filter_app, S1, S2|].
    assert (Hshape : channel_username cur1 = channel_username cur
                     /\ indice_message_id cur1 = indice_message_id cur
                     /\ keys (categorias cur1) = keys (categorias cur)).
    { destruct (field_truthy (message_id info)) eqn:Ht.
      - now rewrite (Hset eq_refl).
      - destruct (Hunset eq_refl) as [mid [_ ->]].
        repeat split. simpl. apply keys_dict_set.
        now apply dict_get_in_keys with (v := info). }
    destruct Hshape as (P1 & P2 & P3).
    split; [congruence|]. split; [congruence|]. split; [congruence|].
    intros cat0 c Hc.
    assert (H1 : exists c1,
               dict_get cat0 (categorias cur1) = Some c1
               /\ links c1 = links c
               /\ (field_truthy (message_id c) = true -> c1 = c)
               /\ (cat0 = cat -> field_truthy (message_id c1) = true)
               /\ (cat0 <> cat -> c1 = c)).
    { destruct (list_eq_dec N.eq_dec cat cat0) as [<- | Hne].
      - rewrite Hg in Hc. injection Hc as <-.
        destruct (field_truthy (message_id info)) eqn:Ht.
        + rewrite (Hset eq_refl). exists info. repeat split; auto.
        + destruct (Hunset eq_refl) as [mid [Hmid ->]].
          exists (mkCategory (Value mid) (links info)).
          split; [apply dict_get_set_same|]. split; [reflexivity|].
          split; [discriminate|]. split; [|congruence].
          intros _. simpl. unfold int_truthy.
          now apply negb_true_iff, Z.eqb_neq.
      - exists c. rewrite (Hother cat0 Hne).
        repeat split; auto; congruence. }
    destruct H1 as (c1 & Hc1 & L1 & T1 & In1 & Out1).
    destruct (Hcats cat0 c1 Hc1) as (c' & Hc' & L' & T' & In' & Out').
    exists c'. split; [exact Hc'|]. split; [congruence|]. split.
    { intros Ht. specialize (T1 Ht). subst c1. now apply T'. }
    split.
    + intros [<- | Hi]; [|now apply In'].
      rewrite Out' by exact Hnotin. now apply In1.
    + intros Hno.
      assert (cat0 <> cat) by (intros ->; apply Hno; now left).
      rewrite Out' by (intros Hi; apply Hno; now right).
      now apply Out1.
Qed.

(** X17. [/refresh] repairs what startup would.  When the channel accepts
    every request and never answers with the id 0, the data file is present
    with the channel name set and distinct category names, then [/refresh]
    writes the file once, as its last step before the reply, with a
    document in which the index and every category have their message id;
    the categories and their links are as they were and an id that was set
    is kept.  A startup reconciliation run afterwards does nothing. *)
Theorem refresh_repairs (w : World) (data : Doc) :
  file w = Some data -> channel_set data = true -> dict_wf (categorias data) ->
  exists data' evs,
    refresh_command upper bot w
    = (Returned tt,
       mkWorld (Some data')
               (trace w ++ evs
                ++ [SaveData data';
                    ReplyText (u "Canal regenerado ✅") false]))
    /\ filter is_save evs = []
    /\ all_ids_set data' = true
    /\ channel_username data' = channel_username data
    /\ keys (categorias data') = keys (categorias data)
    /\ (opt_int_truthy (indice_message_id data) = true ->
        indice_message_id data' = indice_message_id data)
    /\ (forall cat c,
          dict_get cat (categorias data) = Some c ->
          exists c',
            dict_get cat (categorias data') = Some c'
            /\ links c' = links c
            /\ (field_truthy (message_id c) = true -> c' = c))
    /\ ensure_channel_messages upper bot
         (snd (refresh_command upper bot w))
       = (Returned tt, snd (refresh_command upper bot w)).
Proof.
  intros Hf Hch Hwf.
  assert (Hin : forall cat info, In (cat, info) (categorias data) ->
                                 dict_get cat (categorias data) = Some info)
    by (intros cat info; now apply dict_get_nodup).
  destruct (refresh_loop_accepted (channel_name data) (categorias data) data w
              Hwf Hin)
    as (data1 & ev1 & E1 & S1 & Hc1 & Hi1 & Hk1 & Hcats).
  assert (Hcats' : forall cat c,
            dict_get cat (categorias data) = Some c ->
            exists c',
              dict_get cat (categorias data1) = Some c'
              /\ links c' = links c
              /\ (field_truthy (message_id c) = true -> c' = c)).
  { intros cat c Hg. destruct (Hcats cat c Hg) as (c' & H1 & H2 & H3 & _).
    now exists c'. }
  assert (Hset1 : forall k c, dict_get k (categorias data1) = Some c ->
                              field_truthy (message_id c) = true).
  { intros k c Hg.
    assert (Hk : In k (keys (categorias data)))
      by (rewrite <- Hk1; now apply dict_get_in_keys with (v := c)).
    destruct (in_keys_dict_get _ _ Hk) as [c0 Hc0].
    destruct (Hcats k c0 Hc0) as (c' & Hc' & _ & _ & Ht & _).
    rewrite Hg in Hc'. injection Hc' as <-. now apply Ht. }
  assert (Hwf1 : dict_wf (categorias data1))
    by (unfold dict_wf; now rewrite Hk1).
  assert (Hnoop : forall data' w1,
            file w1 = Some data' -> all_ids_set data' = true ->
            channel_username data' = channel_username data ->
            ensure_channel_messages upper bot w1 = (Returned tt, w1)).
  { intros data' w1 Hf1 Hall Hc. apply ensure_noop with (data := data'); auto.
    unfold channel_set in *. now rewrite Hc. }
  unfold channel_set in Hch. unfold channel_name in E1.
  destruct (channel_username data) as [channel|] eqn:Ech; [|discriminate].
  assert (Hrun : exists data' evs,
    refresh_command upper bot w
    = (Returned tt,
       mkWorld (Some data')
               (trace w ++ evs
                ++ [SaveData data';
                    ReplyText (u "Canal regenerado ✅") false]))
    /\ filter is_save evs = []
    /\ all_ids_set data' = true
    /\ channel_username data' = Some channel
    /\ keys (categorias data') = keys (categorias data)
    /\ (opt_int_truthy (indice_message_id data) = true ->
        indice_message_id data' = indice_message_id data)
    /\ categorias data' = categorias data1).
  { unfold refresh_command. rewrite bind_run, (load_data_run w Hf). cbv zeta.
    rewrite Ech, Hch. cbn [negb]. rewrite bind_run, E1. rewrite bind_run.
    unfold try_except. rewrite Hi1.
    destruct (opt_int_truthy (indice_message_id data)) eqn:Hidx.
    - destruct (accepting (trace w ++ ev1)
                  (EditMessageText channel (indice_message_id data)
                     (format_index data1) true)) as [mid [Hb _]].
      rewrite bind_run. unfold edit_message_text. rewrite bind_run.
      unfold request. cbv zeta. cbn [file trace]. rewrite Hb.
      unfold ret at 1. unfold ret at 1. rewrite bind_run.
      unfold save_data, reply_text, emit. cbn [file trace].
      exists data1. eexists (ev1 ++ [_]). rewrite <- !app_assoc. cbn [app].
      split; [reflexivity|]. split; [now rewrite filter_app, S1|].
      split; [apply all_ids_by_key; auto; now rewrite Hi1|].
      split; [congruence|]. split; [exact Hk1|]. split; [auto|reflexivity].
    - destruct (accepting (trace w ++ ev1)
                  (SendMessage channel (format_index data1) true))
        as [mid [Hb Hmid]].
      rewrite bind_run. unfold send_message, request. cbv zeta.
      cbn [file trace]. rewrite Hb.
      unfold ret at 1. rewrite bind_run.
      unfold save_data, reply_text, emit. cbn [file trace].
      exists (set_indice data1 mid). eexists (ev1 ++ [_]).
      rewrite <- !app_assoc. cbn [app].
      split; [reflexivity|]. split; [now rewrite filter_app, S1|].
      split.
      { apply all_ids_by_key; auto. simpl. unfold int_truthy.
        now apply negb_true_iff, Z.eqb_neq. }
      split; [simpl; congruence|]. split; [exact Hk1|].
      split; [discriminate|reflexivity]. }
  destruct Hrun as (data' & evs & E & S & Hall & Hc & Hk & Hi & Hsame).
  exists data', evs. rewrite E. cbn [snd].
  split; [reflexivity|]. split; [exact S|]. split; [exact Hall|].
  split; [exact Hc|]. split; [exact Hk|]. split; [exact Hi|]. split.
  - intros cat c Hg. rewrite Hsame. now apply Hcats'.
  - apply (Hnoop data'); auto.
Qed.

End RefreshRepairs.

(* ================================================================== *)
(** * The further statements on concrete catalogues *)
(* ================================================================== *)

(** [parse_add_args_round_trip] on the command of the usage text. *)
Lemma parse_add_args_round_trip_witness :
  parse_add_args
    (join (u " ") (u "/add" :: u "Diseño"
                   :: [u "Mi"; u "título"] ++ [Sample.example_url]))
  = (Some (u "Diseño"), Some (join (u " ") [u "Mi"; u "título"]),
     Some Sample.example_url).
Proof.
  apply (@parse_add_args_round_trip (u "/add") (u "Diseño") Sample.example_url
           [u "Mi"; u "título"]); by_compute.
Defined.

(** [parse_add_args_trailing]: a word after the URL is dropped. *)
Lemma parse_add_args_trailing_witness :
  parse_add_args (u "/add Diseño Mi título https://example.com/x"
                  ++ 32%N :: u "gracias")
  = (Some (u "Diseño"), Some (u "Mi título"), Some Sample.example_url).
Proof.
  destruct (@parse_add_args_trailing
              (u "/add Diseño Mi título https://example.com/x")
              (u "Diseño") (u "Mi título") Sample.example_url 32%N)
    as [H _]; [by_compute | by_compute |].
  apply H. by_compute.
Defined.

(** [missing_data_file]: [/list] without the file. *)
Lemma missing_data_file_witness :
  list_command (mkWorld None [])
  = (Raised (FileNotFoundError
               (DATA_FILE ++ u " not found. Create it from the template.")),
     mkWorld None []).
Proof.
  destruct (@missing_data_file Latin1.lower Latin1.upper Sample.counting_bot
              (mkWorld None []) eq_refl) as (_ & _ & H & _).
  exact H.
Defined.

(** [add_command_stored_link] on the catalogue. *)
Lemma add_command_stored_link_witness :
  exists entry,
    url entry = Sample.example_url /\ texto entry = u "Mi título".
Proof.
  destruct (@add_command_stored_link Latin1.lower Latin1.upper
              Sample.counting_bot Sample.ana
              (u "/add diseño Mi título https://example.com/x") Sample.start
              Sample.catalogue (u "diseño") Sample.example_url (u "Diseño")
              (u "Mi título") [] (mkCategory (Value 7%Z) (Some [])))
    as (entry & data' & out & later & _ & _ & Hu & _ & _ & Ht & _);
    try by_compute.
  exists entry. split; [exact Hu|].
  etransitivity; [exact Ht|]. by_compute.
Defined.

(** [echo_hint_parses] on a URL sent with spaces around it. *)
Lemma echo_hint_parses_witness :
  parse_add_args (u "/add Videos Video útil "
                  ++ strip (u "  https://example.com/x  "))
  = (Some (u "Videos"), Some (u "Video útil"), Some Sample.example_url).
Proof.
  destruct (@echo_hint_parses (u "  https://example.com/x  ")
              Sample.example_url [] Sample.start)
    as [_ H]; [by_compute | by_compute |].
  apply H. reflexivity.
Defined.

(** [startup_is_idempotent] with a channel that numbers its messages. *)
Lemma startup_is_idempotent_witness :
  exists w1,
    ensure_channel_messages Latin1.upper Sample.counting_bot
      (mkWorld (Some Sample.videos_doc) []) = (Returned tt, w1)
    /\ ensure_channel_messages Latin1.upper Sample.counting_bot w1
       = (Returned tt, w1).
Proof.
  destruct (@startup_is_idempotent Latin1.upper Sample.counting_bot)
    with (w := mkWorld (Some Sample.videos_doc) []) (data := Sample.videos_doc)
    as (data' & w1 & E & _ & _ & _ & _ & _ & _ & E2).
  - intros tr e. exists (Z.of_nat (length (tr ++ [e]))).
    split; [reflexivity|]. rewrite length_app. simpl. lia.
  - reflexivity.
  - by_compute.
  - change (NoDup [u "Videos"]).
    apply NoDup_cons; [intros [] | apply NoDup_nil].
  - exists w1. now split.
Defined.

(** [startup_raise_saves_nothing] with a channel that refuses. *)
Lemma startup_raise_saves_nothing_witness :
  file (snd (ensure_channel_messages Latin1.upper Sample.failing_bot
               (mkWorld (Some Sample.videos_doc) [])))
  = Some Sample.videos_doc.
Proof.
  apply (@startup_raise_saves_nothing Latin1.upper Sample.failing_bot
           (mkWorld (Some Sample.videos_doc) [])
           (TelegramError (u "Bad Request"))).
  by_compute.
Defined.

(** [startup_failure_loses_index_id]: the index message is created, the
    category message is refused. *)
Lemma startup_failure_loses_index_id_witness :
  fst (ensure_channel_messages Latin1.upper Scenario.flaky_bot
         (mkWorld (Some Sample.videos_doc) []))
  = Raised (TelegramError (u "Bad Request"))
  /\ file (snd (ensure_channel_messages Latin1.upper Scenario.flaky_bot
                  (mkWorld (Some Sample.videos_doc) [])))
     = Some Sample.videos_doc.
Proof.
  pose proof (@startup_failure_loses_index_id Latin1.upper Scenario.flaky_bot
                (mkWorld (Some Sample.videos_doc) []) (u "@mi_canal") None
                (u "Videos") (mkCategory Null (Some [])) [] 11%Z
                (u "Bad Request")) as H.
  cbv zeta in H.
  specialize (H eq_refl ltac:(by_compute) eq_refl eq_refl
                ltac:(by_compute) ltac:(by_compute)).
  split.
  - etransitivity; [apply (f_equal fst); exact H | reflexivity].
  - etransitivity; [apply (f_equal (fun r => file (snd r))); exact H|].
    reflexivity.
Defined.

(** [refresh_always_completes] with a channel that refuses every request. *)
Lemma refresh_always_completes_witness :
  fst (refresh_command Latin1.upper Sample.failing_bot Sample.start)
  = Returned tt
  /\ file (snd (refresh_command Latin1.upper Sample.failing_bot Sample.start))
     = Some Sample.catalogue.
Proof.
  destruct (@refresh_always_completes Latin1.upper Sample.failing_bot
              Sample.start Sample.catalogue (u "@mi_canal")
              eq_refl eq_refl ltac:(by_compute))
    as (data' & evs & E & _ & _ & Hsame).
  rewrite E. cbn [fst snd file]. split; [reflexivity|].
  rewrite Hsame; [reflexivity|].
  intros tr. now exists (u "Bad Request").
Defined.

(** [reports_after_add]: [/info] after a link was stored. *)
Lemma reports_after_add_witness :
  info_command
    (snd (add_command Latin1.lower Latin1.upper Sample.counting_bot Sample.ana
            (u "/add diseño Mi título https://example.com/x") Sample.start))
  = (Returned tt,
     mkWorld
       (file (snd (add_command Latin1.lower Latin1.upper Sample.counting_bot
                     Sample.ana
                     (u "/add diseño Mi título https://example.com/x")
                     Sample.start)))
       (trace (snd (add_command Latin1.lower Latin1.upper Sample.counting_bot
                      Sample.ana
                      (u "/add diseño Mi título https://example.com/x")
                      Sample.start))
        ++ [ReplyText (info_text (u "@mi_canal") 2 1) false])).
Proof.
  pose proof (@reports_after_add Latin1.lower Latin1.upper Sample.counting_bot
                Sample.ana (u "/add diseño Mi título https://example.com/x")
                Sample.start Sample.catalogue (u "diseño") Sample.example_url
                (u "Diseño") (Some (u "Mi título")) []
                (mkCategory (Value 7%Z) (Some []))) as H.
  specialize (H ltac:(by_compute) eq_refl ltac:(by_compute)
                ltac:(by_compute)).
  cbv zeta in H. destruct H as (_ & H & _).
  etransitivity; [exact H|]. by_compute.
Defined.

(** [shadowed_category_never_grows]: the user types the second key as it
    is stored, and the link goes to the first. *)
Lemma shadowed_category_never_grows_witness :
  exists data',
    file (run_all Latin1.lower Latin1.upper Sample.counting_bot
            (map (fun a => Add (fst a) (snd a))
                 [(Sample.ana, Scenario.clip)])
            (mkWorld (Some Scenario.shadow_doc) [])) = Some data'
    /\ keys (categorias data') = keys (categorias Scenario.shadow_doc)
    /\ dict_get (u "videos") (categorias data')
       = Some (mkCategory (Value 8%Z) (Some [])).
Proof.
  apply (@shadowed_category_never_grows Latin1.lower Latin1.upper
           Sample.counting_bot [(Sample.ana, Scenario.clip)]
           (mkWorld (Some Scenario.shadow_doc) []) Scenario.shadow_doc
           (u "Videos") (u "videos") [] [] []).
  - reflexivity.
  - change (NoDup [u "Videos"; u "videos"]). apply NoDup_cons.
    + intros [E | []]. vm_compute in E. discriminate E.
    + apply NoDup_cons; [intros [] | apply NoDup_nil].
  - reflexivity.
  - by_compute.
  - by_compute.
Defined.

(** [add_command_without_channel] on the catalogue without a channel. *)
Lemma add_command_without_channel_witness :
  add_command Latin1.lower Latin1.upper Sample.failing_bot Sample.ana
    Scenario.clip (mkWorld (Some Scenario.offline_doc) [])
  = (Returned tt,
     mkWorld
       (Some (mkDoc None None
                [(u "Videos", mkCategory Missing (Some [Scenario.clip_entry]))]))
       [SaveData
          (mkDoc None None
             [(u "Videos", mkCategory Missing (Some [Scenario.clip_entry]))]);
        ReplyText (added_text (u "Videos")) true]).
Proof.
  pose proof (@add_command_without_channel Latin1.lower Latin1.upper
                Sample.failing_bot Sample.ana Scenario.clip
                (mkWorld (Some Scenario.offline_doc) []) Scenario.offline_doc
                (u "videos") Sample.example_url (u "Videos")
                (Some (u "Clip")) [] (mkCategory Missing None)) as H.
  cbv zeta in H.
  specialize (H ltac:(by_compute) eq_refl ltac:(by_compute) ltac:(by_compute)
                eq_refl).
  etransitivity; [exact H|]. by_compute.
Defined.


(** [add_after_startup_returns]: the category ["Videos"] has no
    [message_id] and gets one at startup. *)
Lemma add_after_startup_returns_witness :
  fst (add_command Latin1.lower Latin1.upper Sample.counting_bot Sample.ana
         Scenario.clip
         (snd (ensure_channel_messages Latin1.upper Sample.counting_bot
                 Sample.start)))
  = Returned tt.
Proof.
  apply (@add_after_startup_returns Latin1.lower Latin1.upper
           Sample.counting_bot Sample.ana Scenario.clip Sample.start
           Sample.catalogue).
  - intros tr e. exists (Z.of_nat (length (tr ++ [e]))).
    split; [reflexivity|]. rewrite length_app. simpl. lia.
  - reflexivity.
  - by_compute.
  - change (NoDup [u "Diseño"; u "Videos"]). apply NoDup_cons.
    + intros [E | []]. vm_compute in E. discriminate E.
    + apply NoDup_cons; [intros [] | apply NoDup_nil].
Defined.

(** [add_command_twice] on the catalogue. *)
Lemma add_command_twice_witness :
  exists data2 info2,
    file (snd (add_command Latin1.lower Latin1.upper Sample.counting_bot
                 Sample.ana (u "/add diseño Mi título https://example.com/x")
                 (snd (add_command Latin1.lower Latin1.upper
                         Sample.counting_bot Sample.ana
                         (u "/add diseño Mi título https://example.com/x")
                         Sample.start))))
    = Some data2
    /\ dict_get (u "Diseño") (categorias data2) = Some info2
    /\ get_links info2 = [Sample.entry; Sample.entry].
Proof.
  pose proof (@add_command_twice Latin1.lower Latin1.upper Sample.counting_bot
                Sample.ana (u "/add diseño Mi título https://example.com/x")
                Sample.start Sample.catalogue (u "diseño") Sample.example_url
                (u "Diseño") (Some (u "Mi título")) []
                (mkCategory (Value 7%Z) (Some []))) as H.
  cbv zeta in H.
  destruct H as (data2 & info2 & Hf & _ & Hg & _ & Hl); try by_compute.
  exists data2, info2. split; [exact Hf|]. split; [exact Hg|].
  etransitivity; [exact Hl|]. by_compute.
Defined.

(** [refresh_without_channel] on the catalogue without a channel. *)
Lemma refresh_without_channel_witness :
  file (snd (refresh_command Latin1.upper Sample.failing_bot
               (mkWorld (Some Scenario.offline_doc) [])))
  = Some Scenario.offline_doc.
Proof.
  pose proof (@refresh_without_channel Latin1.upper Sample.failing_bot
                (mkWorld (Some Scenario.offline_doc) []) Scenario.offline_doc
                eq_refl eq_refl) as H.
  etransitivity; [apply (f_equal (fun r => file (snd r))); exact H|].
  reflexivity.
Defined.

(** [refresh_repairs]: after [/refresh], startup has nothing to do. *)
Lemma refresh_repairs_witness :
  ensure_channel_messages Latin1.upper Sample.counting_bot
    (snd (refresh_command Latin1.upper Sample.counting_bot Sample.start))
  = (Returned tt,
     snd (refresh_command Latin1.upper Sample.counting_bot Sample.start)).
Proof.
  destruct (@refresh_repairs Latin1.upper Sample.counting_bot)
    with (w := Sample.start) (data := Sample.catalogue)
    as (data' & evs & _ & _ & _ & _ & _ & _ & _ & H).
  - intros tr e. exists (Z.of_nat (length (tr ++ [e]))).
    split; [reflexivity|]. rewrite length_app. simpl. lia.
  - reflexivity.
  - by_compute.
  - change (NoDup [u "Diseño"; u "Videos"]). apply NoDup_cons.
    + intros [E | []]. vm_compute in E. discriminate E.
    + apply NoDup_cons; [intros [] | apply NoDup_nil].
  - exact H.
Defined.
